(** * LeaderBoard: the scoring-and-ranking engine

    A shallow embedding of [app/services/scoring_engine.py] (with the parts of
    [app/models.py], [app/schemas.py], [app/api/scores.py] and
    [app/api/leaderboard.py] it touches), the properties of the
    specification proved about it, and further properties of the code.

    Conventions of the embedding:
    - a [Numeric(p, s)] column holds a fixed-point number: it is an integer
      counting units of [10^-s] ([raw_score = 8050] is [80.50]);
    - [Decimal] is Python's [decimal.Decimal] under the default context
      (28 significant digits, [ROUND_HALF_EVEN]); the operations follow the
      algorithms of the standard library's [decimal] module, the exponent
      limits [Emin]/[Emax] apart, which values of [Numeric] columns never
      approach;
    - the tables of the database are lists of rows, in insertion order;
    - exceptions are values of [exn]; fallible code returns a [result]. *)

From Stdlib Require Import ZArith QArith Qabs Lia Lqa Ascii String.
From stdpp Require Import gmap strings list pretty sorting.

Local Open Scope Z_scope.

(* ====================================================================== *)
(** * Exceptions *)
(* ====================================================================== *)

(** What the driver reports in an [OperationalError] ([exc.orig]); the code
    catches the class and does not look at the cause. *)
Inductive cause : Type :=
| LockWaitTimeout       (* MySQL 1205: lock wait timeout exceeded *)
| Deadlock              (* MySQL 1213: deadlock found, a serialization failure *)
| ConnectionLost        (* MySQL 2006, 2013: the server has gone away *)
| OtherCause.           (* access denied, too many connections, ... *)

Global Instance cause_eq_dec : EqDecision cause.
Proof. solve_decision. Defined.

Inductive exn : Type :=
| ValueError            (* raised by _validate_module_type *)
| RuntimeError          (* raised when the retries are exhausted *)
| OperationalError (c : cause)  (* sqlalchemy.exc.OperationalError *)
| InvalidRequestError   (* sqlalchemy.exc.InvalidRequestError: a result with a
                           joined eager load of a collection, read without
                           unique() *)
| NoResultFound         (* scalar_one() on an empty result *)
| MultipleResultsFound  (* scalar_one() / scalar_one_or_none() on several rows *)
| AttributeError        (* attribute access on None *)
| InvalidOperation      (* decimal.InvalidOperation *)
| DivisionByZero        (* decimal.DivisionByZero *)
| StorageError.         (* any other failure of the storage or cache layer *)

Global Instance exn_eq_dec : EqDecision exn.
Proof. solve_decision. Defined.

Inductive result (A : Type) : Type :=
| Ok (a : A)
| Raise (e : exn).
Arguments Ok {A} a.
Arguments Raise {A} e.

Global Instance result_ret : MRet result := fun A a => Ok a.
Global Instance result_bind : MBind result := fun A B k r =>
  match r with
  | Ok a => k a
  | Raise e => Raise e
  end.

(* ====================================================================== *)
(** * decimal.Decimal under the default context *)
(* ====================================================================== *)

Module Dec.

(** A finite decimal [coef * 10^expo]; the sign is the sign of [coef]. *)
Record Decimal : Type := mkDec { coef : Z; expo : Z }.

Global Instance Decimal_eq_dec : EqDecision Decimal.
Proof. solve_decision. Defined.

(** [getcontext().prec] *)
Definition prec : Z := 28.

Fixpoint ndigits_fuel (fuel : nat) (n : Z) : Z :=
  match fuel with
  | O => 1
  | S f => if n <? 10 then 1 else 1 + ndigits_fuel f (n / 10)
  end.

(** [len(str(n))] for [n >= 0]: the length of the coefficient [_int]. *)
Definition ndigits (n : Z) : Z := ndigits_fuel (Z.to_nat (Z.log2 n)) n.

(** [_round_half_up]: the magnitude [m] without its [k] low digits, rounded
    up when the first dropped digit is 5 or more. *)
Definition round_half_up (m k : Z) : Z :=
  let p := 10 ^ k in
  if 2 * (m mod p) >=? p then m / p + 1 else m / p.

(** [_round_half_even]: as above, an exact half going to the even neighbour. *)
Definition round_half_even (m k : Z) : Z :=
  let p := 10 ^ k in
  let q := m / p in
  let r := m mod p in
  if 2 * r =? p then (if Z.even q then q else q + 1)
  else if 2 * r >? p then q + 1
  else q.

(** [Decimal._fix(context)]: round to [prec] significant digits. *)
Definition fix_ (d : Decimal) : Decimal :=
  let m := Z.abs (coef d) in
  let exp_min := ndigits m + expo d - prec in
  if expo d <? exp_min then
    let c := round_half_even m (exp_min - expo d) in
    if ndigits c >? prec
    then mkDec (Z.sgn (coef d) * (c / 10)) (exp_min + 1)
    else mkDec (Z.sgn (coef d) * c) exp_min
  else d.

(** The loop of [__truediv__] on an exact quotient:
    [while exp < ideal_exp and coeff % 10 == 0: coeff //= 10; exp += 1]. *)
Fixpoint strip_zeros (fuel : nat) (coeff exp ideal_exp : Z) : Z * Z :=
  match fuel with
  | O => (coeff, exp)
  | S f =>
      if (exp <? ideal_exp) && (coeff mod 10 =? 0)
      then strip_zeros f (coeff / 10) (exp + 1) ideal_exp
      else (coeff, exp)
  end.

(** [Decimal.__truediv__] *)
Definition div (a b : Decimal) : result Decimal :=
  if coef b =? 0 then
    Raise (if coef a =? 0 then InvalidOperation else DivisionByZero)
  else if coef a =? 0 then
    Ok (fix_ (mkDec 0 (expo a - expo b)))
  else
    let sign := Z.sgn (coef a) * Z.sgn (coef b) in
    let m1 := Z.abs (coef a) in
    let m2 := Z.abs (coef b) in
    let shift := ndigits m2 - ndigits m1 + prec + 1 in
    let exp := expo a - expo b - shift in
    let num := if 0 <=? shift then m1 * 10 ^ shift else m1 in
    let den := if 0 <=? shift then m2 else m2 * 10 ^ (- shift) in
    let coeff := num / den in
    let remainder := num mod den in
    let '(coeff', exp') :=
      if remainder =? 0
      then strip_zeros (Z.to_nat (expo a - expo b - exp)) coeff exp
                       (expo a - expo b)
      else (if coeff mod 5 =? 0 then coeff + 1 else coeff, exp) in
    Ok (fix_ (mkDec (sign * coeff') exp')).

(** [Decimal.__mul__] *)
Definition mul (a b : Decimal) : Decimal :=
  fix_ (mkDec (coef a * coef b) (expo a + expo b)).

(** [Decimal.__add__]: the operands are aligned on the smaller exponent. *)
Definition add (a b : Decimal) : Decimal :=
  let exp := Z.min (expo a) (expo b) in
  fix_ (mkDec (coef a * 10 ^ (expo a - exp) + coef b * 10 ^ (expo b - exp)) exp).

(** [Decimal._rescale(exp, ROUND_HALF_UP)] *)
Definition rescale_half_up (d : Decimal) (exp : Z) : Decimal :=
  if expo d >=? exp
  then mkDec (coef d * 10 ^ (expo d - exp)) exp
  else mkDec (Z.sgn (coef d) * round_half_up (Z.abs (coef d)) (exp - expo d)) exp.

(** [d.quantize(Decimal(10) ** exp, rounding=ROUND_HALF_UP)]: fails with
    [InvalidOperation] when the result needs more than [prec] digits. *)
Definition quantize_half_up (d : Decimal) (exp : Z) : result Decimal :=
  if coef d =? 0 then Ok (mkDec 0 exp)
  else if (expo d + ndigits (Z.abs (coef d)) - 1) - exp + 1 >? prec
  then Raise InvalidOperation
  else
    let ans := rescale_half_up d exp in
    if ndigits (Z.abs (coef ans)) >? prec then Raise InvalidOperation
    else Ok ans.

(** [d > 0] *)
Definition is_pos (d : Decimal) : bool := 0 <? coef d.

(** The number a [Decimal] denotes. *)
Definition to_Q (d : Decimal) : Q :=
  (inject_Z (coef d) * (10 # 1) ^ (expo d))%Q.

End Dec.

Import Dec.

(* ====================================================================== *)
(** * The data model ([app/models.py]) *)
(* ====================================================================== *)

(** [Numeric(p, s)] read through the ORM and passed to [Decimal(str(...))]. *)
Definition Decimal_of_numeric (scale : Z) (units : Z) : Decimal :=
  mkDec units (- scale).

(** A [Decimal] written to a [Numeric(p, s)] column. *)
Definition numeric_of_Decimal (scale : Z) (d : Decimal) : Z :=
  coef (rescale_half_up d (- scale)).

Record Exam : Type := mkExam {
  exam_id : Z;
  weight_coding : Z;            (* Numeric(5, 2) *)
  weight_quiz : Z;              (* Numeric(5, 2) *)
  weight_assessment : Z;        (* Numeric(5, 2) *)
  max_score_coding : Z;         (* Numeric(10, 2) *)
  max_score_quiz : Z;           (* Numeric(10, 2) *)
  max_score_assessment : Z      (* Numeric(10, 2) *)
}.

Record ExamSession : Type := mkExamSession {
  es_session_id : Z;
  es_exam_id : Z;
  es_user_id : Z;
  es_total_time_sec : Z;
  es_status : string;
  es_version : Z
}.

Record ModuleScore : Type := mkModuleScore {
  ms_score_id : Z;
  ms_session_id : Z;
  ms_module_type : string;
  ms_raw_score : Z;             (* Numeric(10, 2) *)
  ms_max_score : Z;             (* Numeric(10, 2) *)
  ms_time_spent_sec : Z;
  ms_details : option string;   (* JSON *)
  ms_version : Z;
  ms_updated_at : Z
}.

Record LeaderboardSnapshot : Type := mkLeaderboardSnapshot {
  lb_snapshot_id : Z;
  lb_exam_id : Z;
  lb_user_id : Z;
  lb_session_id : Z;
  lb_weighted_coding : Z;       (* Numeric(10, 4) *)
  lb_weighted_quiz : Z;         (* Numeric(10, 4) *)
  lb_weighted_assessment : Z;   (* Numeric(10, 4) *)
  lb_total_score : Z;           (* Numeric(10, 4) *)
  lb_total_time_sec : Z;
  lb_rank_position : Z;
  lb_last_calculated_at : Z
}.

Record ScoreAuditLog : Type := mkScoreAuditLog {
  al_log_id : Z;
  al_session_id : Z;
  al_module_type : string;
  al_old_score : option Z;      (* Numeric(10, 2), nullable *)
  al_new_score : Z;             (* Numeric(10, 2) *)
  al_changed_by : Z;
  al_change_reason : string;
  al_created_at : Z
}.

Global Instance Exam_eq_dec : EqDecision Exam.
Proof. solve_decision. Defined.
Global Instance ExamSession_eq_dec : EqDecision ExamSession.
Proof. solve_decision. Defined.
Global Instance ModuleScore_eq_dec : EqDecision ModuleScore.
Proof. solve_decision. Defined.
Global Instance LeaderboardSnapshot_eq_dec : EqDecision LeaderboardSnapshot.
Proof. solve_decision. Defined.
Global Instance ScoreAuditLog_eq_dec : EqDecision ScoreAuditLog.
Proof. solve_decision. Defined.

(** The database: one list of rows per table. *)
Record DB : Type := mkDB {
  exams : list Exam;
  exam_sessions : list ExamSession;
  module_scores : list ModuleScore;
  leaderboard_snapshot : list LeaderboardSnapshot;
  score_audit_log : list ScoreAuditLog
}.

(** The cache of [flask_caching]: keys to serialised values. *)
Abbreviation Cache := (gmap string string).

(* ====================================================================== *)
(** * The scoring algorithm ([_calculate_weighted_score]) *)
(* ====================================================================== *)

(** The three keys of [weight_map], [max_map] and of the loop
    [for module in ("coding", "quiz", "assessment")]. *)
Inductive module : Type := coding | quiz | assessment.

Global Instance module_eq_dec : EqDecision module.
Proof. solve_decision. Defined.

Definition module_name (m : module) : string :=
  match m with
  | coding => "coding"
  | quiz => "quiz"
  | assessment => "assessment"
  end.

(** [exam.weight_<module>] and [exam.max_score_<module>], in units of [0.01]. *)
Definition weight_of (exam : Exam) (m : module) : Z :=
  match m with
  | coding => weight_coding exam
  | quiz => weight_quiz exam
  | assessment => weight_assessment exam
  end.

Definition max_of (exam : Exam) (m : module) : Z :=
  match m with
  | coding => max_score_coding exam
  | quiz => max_score_quiz exam
  | assessment => max_score_assessment exam
  end.

(** [weight_map[module] = Decimal(str(exam.weight_<module>))] *)
Definition weight_map (exam : Exam) (m : module) : Decimal :=
  Decimal_of_numeric 2 (weight_of exam m).

(** [max_map[module] = Decimal(str(exam.max_score_<module>))] *)
Definition max_map (exam : Exam) (m : module) : Decimal :=
  Decimal_of_numeric 2 (max_of exam m).

(** [{ms.module_type: ms for ms in session.module_scores}]: a later row
    of the same module type replaces an earlier one. *)
Definition scores_dict (rows : list ModuleScore) : gmap string ModuleScore :=
  foldl (fun d ms => <[ms_module_type ms := ms]> d) ∅ rows.

(** The dict returned by [_calculate_weighted_score]. *)
Record Weighted : Type := mkWeighted {
  w_coding : Decimal;
  w_quiz : Decimal;
  w_assessment : Decimal;
  w_total_score : Decimal;
  w_total_time_sec : Z
}.

(** The state of the loop: [result], [total] and [total_time]. *)
Record CalcState : Type := mkCalcState {
  cs_result : module -> Decimal;
  cs_total : Decimal;
  cs_total_time : Z
}.

(** The body of the loop up to [weighted]: the weighted score of one module
    and the time it adds. *)
Definition module_weighted (exam : Exam) (scores : gmap string ModuleScore)
    (m : module) : result (Decimal * Z) :=
  match scores !! module_name m with
  | Some ms =>
      if is_pos (max_map exam m) then
        normalised ← Dec.div (Decimal_of_numeric 2 (ms_raw_score ms)) (max_map exam m);
        weighted ← quantize_half_up (mul normalised (weight_map exam m)) (-4);
        Ok (weighted, ms_time_spent_sec ms)
      else Ok (mkDec 0 (-4), 0)
  | None => Ok (mkDec 0 (-4), 0)
  end.

Definition calc_step (exam : Exam) (scores : gmap string ModuleScore)
    (st : result CalcState) (m : module) : result CalcState :=
  s ← st;
  '(weighted, time) ← module_weighted exam scores m;
  Ok (mkCalcState
        (fun m' => if decide (m' = m) then weighted else cs_result s m')
        (add (cs_total s) weighted)
        (cs_total_time s + time)).

Definition _calculate_weighted_score (module_scores_of_session : list ModuleScore)
    (exam : Exam) : result Weighted :=
  let scores := scores_dict module_scores_of_session in
  s ← foldl (calc_step exam scores)
        (Ok (mkCalcState (fun _ => mkDec 0 0) (mkDec 0 0) 0))
        [coding; quiz; assessment];
  total_score ← quantize_half_up (cs_total s) (-4);
  Ok (mkWeighted (cs_result s coding) (cs_result s quiz) (cs_result s assessment)
        total_score (cs_total_time s)).

(** [result[f"weighted_{module}"]] *)
Definition weighted_of (res : Weighted) (m : module) : Decimal :=
  match m with
  | coding => w_coding res
  | quiz => w_quiz res
  | assessment => w_assessment res
  end.

(** The time of the row of module [m], when the session has one. *)
Definition submitted_time (rows : list ModuleScore) (m : module) : Z :=
  match scores_dict rows !! module_name m with
  | Some ms => ms_time_spent_sec ms
  | None => 0
  end.

(** The time of the row of module [m], when the session has one and the
    maximum of the exam for [m] is positive. *)
Definition counted_time (exam : Exam) (rows : list ModuleScore) (m : module) : Z :=
  match scores_dict rows !! module_name m with
  | Some ms => if is_pos (max_map exam m) then ms_time_spent_sec ms else 0
  | None => 0
  end.

(** The ranges of the columns: [Numeric(5, 2)] and [Numeric(10, 2)]. *)
Definition numeric_5_2 (units : Z) : Prop := Z.abs units < 10 ^ 5.
Definition numeric_10_2 (units : Z) : Prop := Z.abs units < 10 ^ 10.

Definition exam_in_range (exam : Exam) : Prop :=
  forall m, numeric_5_2 (weight_of exam m) /\ numeric_10_2 (max_of exam m).

Definition scores_in_range (rows : list ModuleScore) : Prop :=
  forall ms, ms ∈ rows -> numeric_10_2 (ms_raw_score ms).

(** The rational number a [Numeric(p, s)] value denotes. *)
Definition numeric_Q (scale : Z) (units : Z) : Q :=
  (inject_Z units / inject_Z (10 ^ scale))%Q.

(** [(raw / max) * weight], exactly. *)
Definition exact_weighted (raw max weight : Z) : Q :=
  (numeric_Q 2 raw / numeric_Q 2 max * numeric_Q 2 weight)%Q.

(* ====================================================================== *)
(** * Rank refresh ([_refresh_ranks]) *)
(* ====================================================================== *)

(** The ordering key of the window: [(total_score, total_time_sec)]. *)
Definition rank_key (r : LeaderboardSnapshot) : Z * Z :=
  (lb_total_score r, lb_total_time_sec r).

(** [ORDER BY total_score DESC, total_time_sec ASC]: [k1] sorts strictly
    before [k2]. *)
Definition precedes (k1 k2 : Z * Z) : Prop :=
  k2.1 < k1.1 \/ (k1.1 = k2.1 /\ k1.2 < k2.2).

(** [k1] sorts before [k2] or is a peer of it. *)
Definition not_after (k1 k2 : Z * Z) : Prop :=
  k2.1 < k1.1 \/ (k1.1 = k2.1 /\ k1.2 <= k2.2).

Global Instance precedes_dec k1 k2 : Decision (precedes k1 k2).
Proof. unfold precedes. apply _. Defined.
Global Instance not_after_dec k1 k2 : Decision (not_after k1 k2).
Proof. unfold not_after. apply _. Defined.

(** The number of distinct keys of [K] that sort before [k] or are its peer. *)
Definition rank_of (K : gset (Z * Z)) (k : Z * Z) : Z :=
  Z.of_nat (size (filter (fun k' => not_after k' k) K)).

(** [DENSE_RANK() OVER (ORDER BY total_score DESC, total_time_sec ASC)] of a
    row of the partition [part]: the number of distinct ordering keys of the
    partition from its first row up to the peers of the row (SQL defines it as
    [COUNT(DISTINCT key) OVER (... RANGE UNBOUNDED PRECEDING)]). *)
Definition dense_rank (part : list LeaderboardSnapshot) (r : LeaderboardSnapshot) : Z :=
  rank_of (list_to_set (rank_key <$> part)) (rank_key r).

(** The entries of exam [e]: [WHERE exam_id = :exam_id]. *)
Definition entries_of (tbl : list LeaderboardSnapshot) (e : Z) : list LeaderboardSnapshot :=
  filter (fun r => lb_exam_id r = e) tbl.

(** The derived table [ranked]: [SELECT snapshot_id, DENSE_RANK() ... AS
    new_rank FROM leaderboard_snapshot WHERE exam_id = :exam_id]. *)
Definition ranked (tbl : list LeaderboardSnapshot) (e : Z) : list (Z * Z) :=
  (fun r => (lb_snapshot_id r, dense_rank (entries_of tbl e) r)) <$> entries_of tbl e.

Definition set_rank (lb : LeaderboardSnapshot) (new_rank : Z) : LeaderboardSnapshot :=
  mkLeaderboardSnapshot (lb_snapshot_id lb) (lb_exam_id lb) (lb_user_id lb)
    (lb_session_id lb) (lb_weighted_coding lb) (lb_weighted_quiz lb)
    (lb_weighted_assessment lb) (lb_total_score lb) (lb_total_time_sec lb)
    new_rank (lb_last_calculated_at lb).

(** The row of [ranked] joined to [lb]: [ON lb.snapshot_id = ranked.snapshot_id]. *)
Definition join_ranked (rk : list (Z * Z)) (lb : LeaderboardSnapshot) : option Z :=
  snd <$> head (filter (fun p => p.1 = lb_snapshot_id lb) rk).

(** The effect of the [UPDATE] on one row: [SET lb.rank_position =
    ranked.new_rank] on a row of the exam that the join matches. *)
Definition refresh_row (rk : list (Z * Z)) (e : Z) (lb : LeaderboardSnapshot)
  : LeaderboardSnapshot :=
  if decide (lb_exam_id lb = e) then
    match join_ranked rk lb with
    | Some new_rank => set_rank lb new_rank
    | None => lb
    end
  else lb.

(** [UPDATE leaderboard_snapshot AS lb INNER JOIN ranked ... SET
    lb.rank_position = ranked.new_rank WHERE lb.exam_id = :exam_id] on the
    table, with the number of rows it matched. *)
Definition update_ranks (tbl : list LeaderboardSnapshot) (e : Z)
  : list LeaderboardSnapshot * Z :=
  let rk := ranked tbl e in
  (refresh_row rk e <$> tbl,
   Z.of_nat (length (filter (fun lb => lb_exam_id lb = e /\ is_Some (join_ranked rk lb)) tbl))).

Definition with_leaderboard (db : DB) (tbl : list LeaderboardSnapshot) : DB :=
  mkDB (exams db) (exam_sessions db) (module_scores db) tbl (score_audit_log db).

Definition _refresh_ranks (db : DB) (exam_id : Z) : DB * Z :=
  let '(tbl, rowcount) := update_ranks (leaderboard_snapshot db) exam_id in
  (with_leaderboard db tbl, rowcount).

Definition recalculate_all_ranks (db : DB) (exam_id : Z) : DB * Z :=
  _refresh_ranks db exam_id.

(** A table whose entries of exam [e] carry their dense rank. *)
Definition dense_ranked (tbl : list LeaderboardSnapshot) (e : Z) : Prop :=
  forall r, r ∈ entries_of tbl e -> lb_rank_position r = dense_rank (entries_of tbl e) r.

(** What the specification asks of the ranks of the entries of exam [e]:
    - entries with the same [(total_score, total_time_sec)] share their rank;
    - the entries of the next distinct pair in the order have the previous
      rank plus one, and those of the first pair have rank 1;
    - there are as many distinct ranks as distinct pairs;
    - of two entries with the same score, the faster one does not rank after
      the slower one. *)
Definition dense_rank_properties (tbl : list LeaderboardSnapshot) (e : Z) : Prop :=
  let part := entries_of tbl e in
  (forall a b, a ∈ part -> b ∈ part ->
     rank_key a = rank_key b -> lb_rank_position a = lb_rank_position b)
  /\ (forall a b, a ∈ part -> b ∈ part ->
     precedes (rank_key a) (rank_key b) ->
     (forall c, c ∈ part ->
        ~ (precedes (rank_key a) (rank_key c) /\ precedes (rank_key c) (rank_key b))) ->
     lb_rank_position b = lb_rank_position a + 1)
  /\ (forall a, a ∈ part ->
     (forall c, c ∈ part -> ~ precedes (rank_key c) (rank_key a)) ->
     lb_rank_position a = 1)
  /\ size (list_to_set (lb_rank_position <$> part) : gset Z)
     = size (list_to_set (rank_key <$> part) : gset (Z * Z))
  /\ (forall a b, a ∈ part -> b ∈ part ->
     lb_total_score a = lb_total_score b ->
     lb_total_time_sec a < lb_total_time_sec b ->
     lb_rank_position a <= lb_rank_position b).

(* ====================================================================== *)
(** * Cache keys and invalidation *)
(* ====================================================================== *)

(** [f"leaderboard:exam:{exam_id}"] *)
Definition invalidation_key (exam_id : Z) : string :=
  "leaderboard:exam:" +:+ pretty exam_id.

(** [_invalidate_leaderboard_cache]: [cache.delete(cache_key)]. *)
Definition _invalidate_leaderboard_cache (cache : Cache) (exam_id : Z) : Cache :=
  delete (invalidation_key exam_id) cache.

(** [get_leaderboard]'s [f"leaderboard:exam:{exam_id}:p{page}:pp{per_page}"] *)
Definition page_key (exam_id page per_page : Z) : string :=
  "leaderboard:exam:" +:+ pretty exam_id +:+ ":p" +:+ pretty page
    +:+ ":pp" +:+ pretty per_page.

(** [page = max(1, page)], [per_page = min(200, max(1, per_page))] *)
Definition clamp_page (page : Z) : Z := Z.max 1 page.
Definition clamp_per_page (per_page : Z) : Z := Z.min 200 (Z.max 1 per_page).

(** The cache accesses of [get_leaderboard]: [cache.get(cache_key)] and
    [cache.set(cache_key, json.dumps(result))]. *)
Definition get_leaderboard_cached (cache : Cache) (exam_id page per_page : Z)
  : option string :=
  cache !! page_key exam_id (clamp_page page) (clamp_per_page per_page).

Definition get_leaderboard_store (cache : Cache) (exam_id page per_page : Z)
    (payload : string) : Cache :=
  <[page_key exam_id (clamp_page page) (clamp_per_page per_page) := payload]> cache.

(* ====================================================================== *)
(** * The submission pipeline ([submit_module_score]) *)
(* ====================================================================== *)

(** The arguments of [submit_module_score].  The scores are the numbers of
    the request; the embedding takes those with at most two fractional
    digits, in units of [0.01], as the [Numeric(10, 2)] columns hold them. *)
Record Submission : Type := mkSubmission {
  session_id : Z;
  module_type : string;
  raw_score : Z;
  max_score : Z;
  time_spent_sec : Z;
  details : option string;
  changed_by : Z
}.

(** [MAX_RETRIES = 3] *)
Definition MAX_RETRIES : nat := 3.

Definition _VALID_MODULES : list string := ["coding"; "quiz"; "assessment"].

Definition _validate_module_type (module_type : string) : result unit :=
  if decide (module_type ∈ _VALID_MODULES) then Ok () else Raise ValueError.

(** The calls of one attempt that reach the storage layer or the cache, in
    the order in which [_atomic_score_update] makes them. *)
Inductive dbop : Type :=
| OpLockSession       (* SELECT exam_sessions ... FOR UPDATE *)
| OpGetExam           (* db.session.get(Exam, ...) *)
| OpLockModuleScore   (* SELECT module_scores ... FOR UPDATE *)
| OpSelectLeaderboard (* SELECT leaderboard_snapshot ... FOR UPDATE, after autoflush *)
| OpFlush             (* db.session.flush() *)
| OpRefreshRanks      (* UPDATE ... JOIN of _refresh_ranks *)
| OpCommit            (* db.session.commit() *)
| OpCacheDelete       (* cache.delete *)
| OpReRead.           (* SELECT leaderboard_snapshot after the commit *)

Global Instance dbop_eq_dec : EqDecision dbop.
Proof. solve_decision. Defined.

(** A failure of the environment: the call [f_at] raises [f_exn]. *)
Record fault : Type := mkFault { f_at : dbop; f_exn : exn }.

Definition storage_call (f : option fault) (op : dbop) : result unit :=
  match f with
  | Some ft => if decide (f_at ft = op) then Raise (f_exn ft) else Ok ()
  | None => Ok ()
  end.

(** [.scalar_one()] and [.scalar_one_or_none()] on the rows of a result. *)
Definition scalar_one {A : Type} (rows : list A) : result A :=
  match rows with
  | [] => Raise NoResultFound
  | [x] => Ok x
  | _ => Raise MultipleResultsFound
  end.

Definition scalar_one_or_none {A : Type} (rows : list A) : result (option A) :=
  match rows with
  | [] => Ok None
  | [x] => Ok (Some x)
  | _ => Raise MultipleResultsFound
  end.

(** An auto-incremented primary key. *)
Definition next_id (ids : list Z) : Z := 1 + foldr Z.max 0 ids.

Definition with_module_scores (db : DB) (tbl : list ModuleScore) : DB :=
  mkDB (exams db) (exam_sessions db) tbl (leaderboard_snapshot db) (score_audit_log db).

Definition with_audit_log (db : DB) (tbl : list ScoreAuditLog) : DB :=
  mkDB (exams db) (exam_sessions db) (module_scores db) (leaderboard_snapshot db) tbl.

(** Step 2, the [else] branch: the row updated in place, its version bumped. *)
Definition resubmit (sub : Submission) (now : Z) (ms : ModuleScore) : ModuleScore :=
  mkModuleScore (ms_score_id ms) (ms_session_id ms) (ms_module_type ms)
    (raw_score sub) (max_score sub) (time_spent_sec sub) (details sub)
    (ms_version ms + 1) now.

(** Step 2: upsert of the module score. *)
Definition upsert_module_score (db : DB) (sub : Submission) (now : Z)
    (module_score : option ModuleScore) : DB :=
  match module_score with
  | None =>
      with_module_scores db
        (module_scores db ++
         [mkModuleScore (next_id (ms_score_id <$> module_scores db))
            (session_id sub) (module_type sub) (raw_score sub) (max_score sub)
            (time_spent_sec sub) (details sub) 1 now])
  | Some ms =>
      with_module_scores db
        ((fun r => if decide (ms_score_id r = ms_score_id ms)
                   then resubmit sub now r else r) <$> module_scores db)
  end.

(** Step 3: the audit entry. *)
Definition write_audit_log (db : DB) (sub : Submission) (now : Z)
    (old_score : option Z) : DB :=
  with_audit_log db
    (score_audit_log db ++
     [mkScoreAuditLog (next_id (al_log_id <$> score_audit_log db))
        (session_id sub) (module_type sub) old_score (raw_score sub)
        (changed_by sub) "module_submission" now]).

(** The module scores of a session: the rows that the relationship
    [ExamSession.module_scores] loads. *)
Definition session_module_scores (db : DB) (session : ExamSession) : list ModuleScore :=
  filter (fun ms => ms_session_id ms = es_session_id session) (module_scores db).

Definition leaderboard_row_of (exam : Exam) (session : ExamSession)
    (lb : LeaderboardSnapshot) : Prop :=
  lb_exam_id lb = exam_id exam /\ lb_user_id lb = es_user_id session.

Global Instance leaderboard_row_of_dec exam session lb :
  Decision (leaderboard_row_of exam session lb).
Proof. unfold leaderboard_row_of. apply _. Defined.

(** The fields [_upsert_leaderboard] overwrites on an existing row. *)
Definition overwrite_entry (weighted : Weighted) (now : Z)
    (lb : LeaderboardSnapshot) : LeaderboardSnapshot :=
  mkLeaderboardSnapshot (lb_snapshot_id lb) (lb_exam_id lb) (lb_user_id lb)
    (lb_session_id lb)
    (numeric_of_Decimal 4 (w_coding weighted))
    (numeric_of_Decimal 4 (w_quiz weighted))
    (numeric_of_Decimal 4 (w_assessment weighted))
    (numeric_of_Decimal 4 (w_total_score weighted))
    (w_total_time_sec weighted)
    (lb_rank_position lb) now.

(** Step 5: [_upsert_leaderboard]. *)
Definition _upsert_leaderboard (f : option fault) (db : DB) (session : ExamSession)
    (exam : Exam) (weighted : Weighted) (now : Z) : result DB :=
  _ ← storage_call f OpSelectLeaderboard;
  lb_entry ← scalar_one_or_none
    (filter (leaderboard_row_of exam session) (leaderboard_snapshot db));
  match lb_entry with
  | None =>
      Ok (with_leaderboard db
            (leaderboard_snapshot db ++
             [mkLeaderboardSnapshot
                (next_id (lb_snapshot_id <$> leaderboard_snapshot db))
                (exam_id exam) (es_user_id session) (es_session_id session)
                (numeric_of_Decimal 4 (w_coding weighted))
                (numeric_of_Decimal 4 (w_quiz weighted))
                (numeric_of_Decimal 4 (w_assessment weighted))
                (numeric_of_Decimal 4 (w_total_score weighted))
                (w_total_time_sec weighted)
                0 now]))
  | Some lb =>
      Ok (with_leaderboard db
            ((fun r => if decide (lb_snapshot_id r = lb_snapshot_id lb)
                       then overwrite_entry weighted now r else r)
               <$> leaderboard_snapshot db))
  end.

Definition module_score_of (sub : Submission) (ms : ModuleScore) : Prop :=
  ms_session_id ms = session_id sub /\ ms_module_type ms = module_type sub.

Global Instance module_score_of_dec sub ms : Decision (module_score_of sub ms).
Proof. unfold module_score_of. apply _. Defined.

(** The rows of step 1, [select(ExamSession).where(session_id == ...)].
    [ExamSession.module_scores] is declared with [lazy="joined"]
    ([app/models.py]), which makes the statement a LEFT OUTER JOIN of
    [exam_sessions] on [module_scores]: one row for each module score of the
    session, and one row for a session that has none. *)
Definition select_session_joined (db : DB) (sid : Z)
  : list (ExamSession * option ModuleScore) :=
  session ← filter (fun s => es_session_id s = sid) (exam_sessions db);
  match session_module_scores db session with
  | [] => [(session, None)]
  | rows => (fun ms => (session, Some ms)) <$> rows
  end.

(** [.scalar_one()] on the result of a statement with a joined eager load of
    a collection, [.unique()] not having been called on it.  SQLAlchemy 2
    hands out no row of such a result: asked for one, it raises
    [InvalidRequestError] ("The unique() method must be invoked on this
    Result, as it contains results that include joined eager loads against
    collections").  A result without rows gives [NoResultFound], as for any
    [.scalar_one()].  What the call would return is the session with the
    collection loaded for it. *)
Definition scalar_one_joined (rows : list (ExamSession * option ModuleScore))
  : result (ExamSession * list ModuleScore) :=
  match rows with
  | [] => Raise NoResultFound
  | _ :: _ => Raise InvalidRequestError
  end.

(** [session.module_scores] as step 4 reads it: the collection loaded at
    step 1.  A row that step 2 updates is one of its objects, and is read
    updated; a row that step 2 creates is given [session_id] only, and is not
    appended to the collection. *)
Definition loaded_module_scores (loaded : list ModuleScore) (sub : Submission)
    (now : Z) (module_score : option ModuleScore) : list ModuleScore :=
  match module_score with
  | None => loaded
  | Some ms =>
      (fun r => if decide (ms_score_id r = ms_score_id ms)
                then resubmit sub now r else r) <$> loaded
  end.

(** Steps 1 to 6 of [_atomic_score_update], on the unit of work: the
    uncommitted database, with the exam and the session it read.  A row that
    the database refuses at a flush is a failure of the storage layer. *)
Definition unit_of_work (f : option fault) (now : Z) (db : DB) (sub : Submission)
  : result (DB * Exam * ExamSession) :=
  _ ← storage_call f OpLockSession;
  '(session, loaded) ← scalar_one_joined (select_session_joined db (session_id sub));
  _ ← storage_call f OpGetExam;
  let exam := head (filter (fun e => exam_id e = es_exam_id session) (exams db)) in
  _ ← storage_call f OpLockModuleScore;
  module_score ← scalar_one_or_none
    (filter (module_score_of sub) (module_scores db));
  let old_score := ms_raw_score <$> module_score in
  let db := upsert_module_score db sub now module_score in
  let db := write_audit_log db sub now old_score in
  exam ← match exam with Some e => Ok e | None => Raise AttributeError end;
  weighted ← _calculate_weighted_score
    (loaded_module_scores loaded sub now module_score) exam;
  db ← _upsert_leaderboard f db session exam weighted now;
  _ ← storage_call f OpFlush;
  _ ← storage_call f OpRefreshRanks;
  Ok ((_refresh_ranks db (exam_id exam)).1, exam, session).

(** [_atomic_score_update]: the committed database and the cache after the
    attempt, and the entry it returns or the exception it raises.  Nothing of
    the unit of work is committed unless the commit is reached. *)
Definition _atomic_score_update (f : option fault) (now : Z) (db : DB)
    (cache : Cache) (sub : Submission)
  : DB * Cache * result LeaderboardSnapshot :=
  match (work ← unit_of_work f now db sub;
         _ ← storage_call f OpCommit;
         Ok work) with
  | Raise e => (db, cache, Raise e)
  | Ok (db', exam, session) =>
      match storage_call f OpCacheDelete with
      | Raise e => (db', cache, Raise e)
      | Ok _ =>
          (db', _invalidate_leaderboard_cache cache (exam_id exam),
           _ ← storage_call f OpReRead;
           scalar_one (filter (leaderboard_row_of exam session)
                              (leaderboard_snapshot db')))
      end
  end.

(** What surrounds a call: the failures of the storage layer, per attempt,
    and the clock. *)
Record Env : Type := mkEnv {
  faults : nat -> option fault;
  clock : nat -> Z
}.

(** What a call leaves behind: the committed database, the cache, the value
    returned or the exception raised, and the number of attempts made. *)
Record Outcome : Type := mkOutcome {
  out_db : DB;
  out_cache : Cache;
  out_result : result (option LeaderboardSnapshot);
  out_attempts : nat
}.

(** The loop [for attempt in range(1, MAX_RETRIES + 1)]; [made] counts the
    attempts already made.  An [OperationalError], whatever its cause, is
    followed by [db.session.rollback()], which discards the unit of work. *)
Fixpoint retry_loop (env : Env) (attempts : list nat) (made : nat) (db : DB)
    (cache : Cache) (sub : Submission) : Outcome :=
  match attempts with
  | [] => mkOutcome db cache (Ok None) made
  | attempt :: rest =>
      match _atomic_score_update (faults env attempt) (clock env attempt) db cache sub with
      | (db', cache', Ok entry) => mkOutcome db' cache' (Ok (Some entry)) (S made)
      | (db', cache', Raise (OperationalError _)) =>
          if decide (attempt = MAX_RETRIES)
          then mkOutcome db' cache' (Raise RuntimeError) (S made)
          else retry_loop env rest (S made) db' cache' sub
      | (db', cache', Raise e) => mkOutcome db' cache' (Raise e) (S made)
      end
  end.

Definition submit_module_score (env : Env) (db : DB) (cache : Cache)
    (sub : Submission) : Outcome :=
  match _validate_module_type (module_type sub) with
  | Raise e => mkOutcome db cache (Raise e) 0
  | Ok _ => retry_loop env (seq 1 MAX_RETRIES) 0 db cache sub
  end.

(* ====================================================================== *)
(** * The request layer ([app/schemas.py], [app/api/scores.py]) *)
(* ====================================================================== *)

(** [SubmitScoreSchema]: [OneOf] on the module type, [Range(min=0)] on
    [raw_score] and [time_spent_sec], [Range(min=0.01)] on [max_score], and
    [validate_score_range]. *)
Definition SubmitScoreSchema_valid (sub : Submission) : bool :=
  bool_decide (module_type sub ∈ ["coding"; "quiz"; "assessment"])
  && (0 <=? raw_score sub) && (1 <=? max_score sub)
  && (0 <=? time_spent_sec sub) && (raw_score sub <=? max_score sub).

(** [submit_score]: the HTTP status of [POST /api/v1/scores]. *)
Definition submit_score (env : Env) (db : DB) (cache : Cache) (sub : Submission)
  : DB * Cache * Z :=
  if SubmitScoreSchema_valid sub then
    let out := submit_module_score env db cache sub in
    (out_db out, out_cache out,
     match out_result out with
     | Ok _ => 200
     | Raise ValueError => 400
     | Raise RuntimeError => 409
     | Raise _ => 500
     end)
  else (db, cache, 422).

(* ====================================================================== *)
(** * Vocabulary of the statements about the pipeline *)
(* ====================================================================== *)

(** The [k]-th attempt of a call, on the state it starts from. *)
Definition attempt (env : Env) (k : nat) (db : DB) (cache : Cache) (sub : Submission)
  : DB * Cache * result LeaderboardSnapshot :=
  _atomic_score_update (faults env k) (clock env k) db cache sub.

(** A write-write conflict: a lock wait timeout or a serialization failure. *)
Definition write_write_conflict (c : cause) : Prop :=
  c = LockWaitTimeout \/ c = Deadlock.

Global Instance write_write_conflict_dec c : Decision (write_write_conflict c).
Proof. unfold write_write_conflict. apply _. Defined.

(** The result is an [OperationalError]: what [except OperationalError]
    catches. *)
Definition operational {A : Type} (r : result A) : Prop :=
  match r with
  | Raise (OperationalError _) => True
  | _ => False
  end.

Global Instance operational_dec {A : Type} (r : result A) : Decision (operational r).
Proof. destruct r as [a|[]]; simpl; apply _. Defined.

(** The character [c] occurs in [s]. *)
Fixpoint occurs (c : ascii) (s : string) : Prop :=
  match s with
  | EmptyString => False
  | String a s' => a = c \/ occurs c s'
  end.

(** What an attempt that is not retried hands to the caller. *)
Definition returned (r : result LeaderboardSnapshot) : result (option LeaderboardSnapshot) :=
  match r with
  | Ok entry => Ok (Some entry)
  | Raise e => Raise e
  end.

(* ====================================================================== *)
(** * Sample data *)
(* ====================================================================== *)

(** The row [ms] with another module type, raw score and time. *)
Definition with_score (ms : ModuleScore) (m : string) (raw time : Z) : ModuleScore :=
  mkModuleScore (ms_score_id ms) (ms_session_id ms) m raw (ms_max_score ms) time
    (ms_details ms) (ms_version ms) (ms_updated_at ms).

Definition blank_score : ModuleScore := mkModuleScore 0 1 "" 0 10000 0 None 1 0.

(** The exam of the tests: weights 50 / 30 / 20, every maximum 100. *)
Definition exam_50_30_20 : Exam := mkExam 1 5000 3000 2000 10000 10000 10000.

(** Weights 12.5 / 12.5 / 75, maximums 100 / 100 / 200. *)
Definition exam_uneven : Exam := mkExam 1 1250 1250 7500 10000 10000 20000.

(** An exam whose maximum for coding is 0. *)
Definition exam_no_coding : Exam := mkExam 1 5000 3000 2000 0 10000 10000.

(** One exam, two sessions, nothing submitted. *)
Definition db0 : DB :=
  mkDB [exam_50_30_20]
       [mkExamSession 1 1 7 0 "in_progress" 1; mkExamSession 2 1 8 0 "in_progress" 1]
       [] [] [].

(** An environment without failures. *)
Definition quiet : Env := mkEnv (fun _ => None) (fun _ => 0).

(** A database in which session 1 has coding on record, 80 out of 100 in
    3000 s, with its audit entry and its leaderboard entry. *)
Definition db_submitted : DB :=
  mkDB [exam_50_30_20]
       [mkExamSession 1 1 7 0 "in_progress" 1; mkExamSession 2 1 8 0 "in_progress" 1]
       [mkModuleScore 1 1 "coding" 8000 10000 3000 None 1 0]
       [mkLeaderboardSnapshot 1 1 7 1 400000 0 0 400000 3000 1 0]
       [mkScoreAuditLog 1 1 "coding" None 8000 0 "module_submission" 0].

(** A leaderboard: four entries of exam 1, two of them tied, and one of
    exam 2; no rank computed yet. *)
Definition db_unranked : DB :=
  mkDB [exam_50_30_20] [] []
       [mkLeaderboardSnapshot 1 1 7 1 400000 0 0 400000 3000 0 0;
        mkLeaderboardSnapshot 2 1 8 2 400000 0 0 400000 2000 0 0;
        mkLeaderboardSnapshot 3 1 9 3 250000 0 0 250000 100 0 0;
        mkLeaderboardSnapshot 4 2 7 4 990000 0 0 990000 50 0 0;
        mkLeaderboardSnapshot 5 1 10 5 400000 0 0 400000 2000 0 0]
       [].

(** An environment in which the first [n] attempts meet a lock wait timeout
    on the session row. *)
Definition contended (n : nat) : Env :=
  mkEnv (fun k => if decide (k <= n)%nat
                  then Some (mkFault OpLockSession (OperationalError LockWaitTimeout))
                  else None)
        (fun _ => 0).

(** An environment in which every attempt loses its connection to the
    database on its first query. *)
Definition unplugged : Env :=
  mkEnv (fun _ => Some (mkFault OpLockSession (OperationalError ConnectionLost)))
        (fun _ => 0).

(** Membership in a list that is written out. *)
Ltac in_list := repeat first [apply list_elem_of_here | apply list_elem_of_further].

(* ====================================================================== *)
(** * The leaderboard reader ([app/api/leaderboard.py]) *)
(* ====================================================================== *)

(** The columns of [users] that the reader selects. *)
Record User : Type := mkUser {
  u_user_id : Z;
  u_username : string;
  u_full_name : string
}.

Global Instance User_eq_dec : EqDecision User.
Proof. solve_decision. Defined.

(** One entry of the response.  [float(lb.total_score)] and the three other
    floats are kept as the [Numeric(10, 4)] values they are converted from. *)
Record LeaderboardEntry : Type := mkLeaderboardEntry {
  le_rank : Z;
  le_user_id : Z;
  le_username : string;
  le_full_name : string;
  le_total_score : Z;
  le_weighted_coding : Z;
  le_weighted_quiz : Z;
  le_weighted_assessment : Z;
  le_total_time_sec : Z;
  le_last_calculated_at : Z
}.

(** The dict built from a row [(lb, username, full_name)]. *)
Definition entry_dict (row : LeaderboardSnapshot * User) : LeaderboardEntry :=
  let '(lb, u) := row in
  mkLeaderboardEntry (lb_rank_position lb) (lb_user_id lb) (u_username u) (u_full_name u)
    (lb_total_score lb) (lb_weighted_coding lb) (lb_weighted_quiz lb)
    (lb_weighted_assessment lb) (lb_total_time_sec lb) (lb_last_calculated_at lb).

(** [select(LeaderboardSnapshot, User.username, User.full_name)
     .join(User, LeaderboardSnapshot.user_id == User.user_id)] *)
Definition join_users (users : list User) (tbl : list LeaderboardSnapshot)
  : list (LeaderboardSnapshot * User) :=
  lb ← tbl; (fun u => (lb, u)) <$> filter (fun u => u_user_id u = lb_user_id lb) users.

(** [.order_by(total_score.desc(), total_time_sec.asc())] on the joined
    rows: the first row sorts before the second or is its peer. *)
Definition leaderboard_order (a b : LeaderboardSnapshot * User) : Prop :=
  not_after (rank_key a.1) (rank_key b.1).

Global Instance leaderboard_order_dec a b : Decision (leaderboard_order a b).
Proof. unfold leaderboard_order. apply _. Defined.

(** The paginated, sorted query of [get_leaderboard]:
    [.where(exam_id == e).order_by(...).offset(offset).limit(per_page)].  Rows
    that are peers in the order come in the order of the table, one of the
    orders the database may return them in. *)
Definition leaderboard_page (users : list User) (tbl : list LeaderboardSnapshot)
    (e page per_page : Z) : list (LeaderboardSnapshot * User) :=
  let offset := (page - 1) * per_page in
  take (Z.to_nat per_page)
    (drop (Z.to_nat offset)
       (merge_sort leaderboard_order
          (filter (fun r => lb_exam_id r.1 = e) (join_users users tbl)))).

(** [_get_user_entry]: [.one_or_none()] on the rows of the user in the exam. *)
Definition _get_user_entry (users : list User) (db : DB) (e user : Z)
  : result (option LeaderboardEntry) :=
  match scalar_one_or_none
          (filter (fun r => lb_exam_id r.1 = e /\ lb_user_id r.1 = user)
             (join_users users (leaderboard_snapshot db))) with
  | Ok row => Ok (entry_dict <$> row)
  | Raise exc => Raise exc
  end.

(** The body of a response built from the database ([exam_title], a column
    the embedding does not hold, apart). *)
Record Page : Type := mkPage {
  pg_exam_id : Z;
  pg_total_participants : Z;
  pg_page : Z;
  pg_per_page : Z;
  pg_leaderboard : list LeaderboardEntry
}.

(** The answers of [GET /api/v1/leaderboard]. *)
Inductive Answer : Type :=
| BadRequest    (* 400: no exam_id *)
| ExamNotFound  (* 404 *)
| FromCache (payload : string) (my_entry : option (option LeaderboardEntry))
    (* 200: json.loads(payload) with "cached" set, and "my_entry" set when a
       user is given *)
| FromDatabase (page : Page) (my_entry : option LeaderboardEntry).
    (* 200: "cached" is False *)

Section Reader.

(** [json.dumps(result, default=str)] *)
Variable dumps : Page -> string.

(** [get_leaderboard], on the query parameters as [request.args.get(...,
    type=int)] reads them: [None] for a parameter that is missing or not an
    integer.  [if requesting_user_id:] takes the user 0 for no user. *)
Definition get_leaderboard (users : list User) (db : DB) (cache : Cache)
    (arg_exam_id page per_page user_id : option Z) : Cache * result Answer :=
  match arg_exam_id with
  | None => (cache, Ok BadRequest)
  | Some e =>
      let page := default 1 page in
      let per_page := default 50 per_page in
      let requesting_user_id :=
        match user_id with
        | Some u => if decide (u = 0) then None else Some u
        | None => None
        end in
      match get_leaderboard_cached cache e page per_page with
      | Some cached_data =>
          match requesting_user_id with
          | Some u =>
              (cache, my_entry ← _get_user_entry users db e u;
                      Ok (FromCache cached_data (Some my_entry)))
          | None => (cache, Ok (FromCache cached_data None))
          end
      | None =>
          match head (filter (fun x => exam_id x = e) (exams db)) with
          | None => (cache, Ok ExamNotFound)
          | Some exam =>
              let total_count :=
                Z.of_nat (length (entries_of (leaderboard_snapshot db) e)) in
              let rows :=
                leaderboard_page users (leaderboard_snapshot db) e
                  (clamp_page page) (clamp_per_page per_page) in
              let result :=
                mkPage e total_count (clamp_page page) (clamp_per_page per_page)
                  (entry_dict <$> rows) in
              let cache := get_leaderboard_store cache e page per_page (dumps result) in
              match requesting_user_id with
              | Some u =>
                  (cache, my_entry ← _get_user_entry users db e u;
                          Ok (FromDatabase result my_entry))
              | None => (cache, Ok (FromDatabase result None))
              end
          end
      end
  end.

End Reader.

(** The users of the sample leaderboard. *)
Definition sample_users : list User :=
  [mkUser 7 "ada" "Ada"; mkUser 8 "bob" "Bob"; mkUser 9 "cy" "Cy"; mkUser 10 "di" "Di"].

(* ====================================================================== *)
(** * General lemmas *)
(* ====================================================================== *)

Section Prelude.

Lemma bind_Ok {A B : Type} (r : result A) (k : A -> result B) (b : B) :
  (x ← r; k x) = Ok b -> exists a, r = Ok a /\ k a = Ok b.
Proof. destruct r as [a|e]; simpl; [eauto|discriminate]. Qed.

Lemma bind_Ok_l {A B : Type} (a : A) (k : A -> result B) : (x ← Ok a; k x) = k a.
Proof. reflexivity. Qed.

Lemma filter_fmap_list {A B : Type} (f : A -> B) (P : B -> Prop)
    `{!forall x, Decision (P x)} (l : list A) :
  filter P (f <$> l) = f <$> filter (fun x => P (f x)) l.
Proof.
  induction l as [|x l IH]; [done|]. rewrite fmap_cons, !filter_cons.
  destruct (decide (P (f x))); rewrite IH; done.
Qed.

End Prelude.

(* ====================================================================== *)
(** * Properties of the decimal arithmetic *)
(* ====================================================================== *)


Section DecimalArithmetic.

Lemma pow10_pos k : 0 <= k -> 0 < 10 ^ k.
Proof. intros. apply Z.pow_pos_nonneg; lia. Qed.

Lemma pow10_add a b : 0 <= a -> 0 <= b -> 10 ^ (a + b) = 10 ^ a * 10 ^ b.
Proof. intros. apply Z.pow_add_r; lia. Qed.

Lemma pow10_succ a : 0 <= a -> 10 ^ (a + 1) = 10 * 10 ^ a.
Proof. intros. rewrite pow10_add by lia. lia. Qed.

Lemma pow10_le a b : 0 <= a <= b -> 10 ^ a <= 10 ^ b.
Proof. intros. apply Z.pow_le_mono_r; lia. Qed.

Lemma pow10_lt a b : 0 <= a < b -> 10 ^ a < 10 ^ b.
Proof. intros. apply Z.pow_lt_mono_r; lia. Qed.

Lemma pow10_lt_inv a b : 0 <= a -> 0 <= b -> 10 ^ a < 10 ^ b -> a < b.
Proof.
  intros Ha Hb Hlt. destruct (Z_lt_le_dec a b) as [|Hge]; [done|].
  pose proof (pow10_le b a). lia.
Qed.

Lemma ndigits_fuel_spec fuel n :
  0 < n < 10 ^ (Z.of_nat fuel + 1) ->
  1 <= ndigits_fuel fuel n /\
  10 ^ (ndigits_fuel fuel n - 1) <= n < 10 ^ ndigits_fuel fuel n.
Proof.
  revert n. induction fuel as [|fuel IH]; intros n Hn.
  - simpl in *. change (10 ^ (1 - 1)) with 1. change (10 ^ 1) with 10 in *. lia.
  - simpl ndigits_fuel. destruct (Z.ltb_spec n 10) as [Hlt|Hge].
    + change (10 ^ (1 - 1)) with 1. change (10 ^ 1) with 10. lia.
    + assert (Hdiv : 0 < n / 10 < 10 ^ (Z.of_nat fuel + 1)).
      { split; [apply Z.div_str_pos; lia|].
        apply Z.div_lt_upper_bound; [lia|].
        rewrite <- pow10_succ by lia.
        replace (Z.of_nat fuel + 1 + 1) with (Z.of_nat (S fuel) + 1) by lia.
        lia. }
      destruct (IH _ Hdiv) as (H1 & Hlo & Hhi).
      set (d := ndigits_fuel fuel (n / 10)) in *.
      replace (1 + d - 1) with ((d - 1) + 1) by lia.
      replace (1 + d) with (d + 1) by lia.
      rewrite !pow10_succ by lia.
      pose proof (Z.div_mod n 10 ltac:(lia)).
      pose proof (Z.mod_pos_bound n 10 ltac:(lia)).
      lia.
Qed.

Lemma ndigits_spec n :
  0 < n -> 1 <= ndigits n /\ 10 ^ (ndigits n - 1) <= n < 10 ^ ndigits n.
Proof.
  intros Hn. apply ndigits_fuel_spec. split; [done|].
  rewrite Z2Nat.id by apply Z.log2_nonneg.
  pose proof (Z.log2_spec n Hn) as [_ Hlt].
  eapply Z.lt_le_trans; [exact Hlt|].
  rewrite <- Z.add_1_r.
  apply Z.pow_le_mono_l. pose proof (Z.log2_nonneg n). lia.
Qed.

Lemma ndigits_zero : ndigits 0 = 1.
Proof. reflexivity. Qed.

Lemma ndigits_pos n : 0 <= n -> 1 <= ndigits n.
Proof.
  intros Hn. destruct (decide (n = 0)) as [->|]; [by rewrite ndigits_zero|].
  apply ndigits_spec. lia.
Qed.

Lemma ndigits_le n k : 0 <= n < 10 ^ k -> 1 <= k -> ndigits n <= k.
Proof.
  intros [Hn Hlt] Hk. destruct (decide (n = 0)) as [->|]; [by rewrite ndigits_zero|].
  destruct (ndigits_spec n) as (H1 & Hlo & _); [lia|].
  assert (ndigits n - 1 < k); [|lia].
  apply pow10_lt_inv; lia.
Qed.

Lemma ndigits_ge n k : 0 <= k -> 10 ^ k <= n -> k + 1 <= ndigits n.
Proof.
  intros Hk Hle. pose proof (pow10_pos k Hk).
  destruct (ndigits_spec n) as (H1 & _ & Hhi); [lia|].
  assert (k < ndigits n); [|lia].
  apply pow10_lt_inv; lia.
Qed.

(** Rounding a magnitude to a multiple of [10^k]. *)
Lemma round_half_even_spec m k :
  0 <= m -> 0 <= k ->
  let c := round_half_even m k in
  m / 10 ^ k <= c <= m / 10 ^ k + 1 /\ 2 * Z.abs (c * 10 ^ k - m) <= 10 ^ k.
Proof.
  intros Hm Hk. unfold round_half_even.
  pose proof (pow10_pos k Hk) as Hp.
  pose proof (Z.div_mod m (10 ^ k) ltac:(lia)) as Hdm.
  pose proof (Z.mod_pos_bound m (10 ^ k) Hp) as Hr.
  set (p := 10 ^ k) in *. set (q := m / p) in *. set (r := m mod p) in *.
  simpl. destruct (Z.eqb_spec (2 * r) p).
  - destruct (Z.even q); split; lia.
  - destruct (Z.gtb_spec (2 * r) p); split; lia.
Qed.

Lemma round_half_up_spec m k :
  0 <= m -> 0 <= k ->
  let c := round_half_up m k in
  m / 10 ^ k <= c <= m / 10 ^ k + 1 /\ 2 * Z.abs (c * 10 ^ k - m) <= 10 ^ k.
Proof.
  intros Hm Hk. unfold round_half_up.
  pose proof (pow10_pos k Hk) as Hp.
  pose proof (Z.div_mod m (10 ^ k) ltac:(lia)) as Hdm.
  pose proof (Z.mod_pos_bound m (10 ^ k) Hp) as Hr.
  set (p := 10 ^ k) in *. set (q := m / p) in *. set (r := m mod p) in *.
  simpl. destruct (Z.geb_spec (2 * r) p); split; lia.
Qed.

End DecimalArithmetic.

Section DecimalFix.

Lemma abs_sgn_mul x c : x <> 0 -> 0 <= c -> Z.abs (Z.sgn x * c) = c.
Proof. intros. destruct (Z.sgn_spec x) as [[? ->]|[[? ->]|[? ->]]]; lia. Qed.

Lemma sgn_mul_abs x c : 0 <= c -> Z.sgn x * c = Z.sgn x * Z.abs (Z.sgn x * c).
Proof. intros. destruct (Z.sgn_spec x) as [[? ->]|[[? ->]|[? ->]]]; lia. Qed.

(** [_fix]: the exponent does not decrease, the sign is kept, the coefficient
    fits the precision, and the magnitude moves by at most half a unit of the
    28th digit: a relative error of [10^-27 / 2]. *)
Lemma fix_spec d :
  let d' := fix_ d in
  expo d <= expo d' /\
  coef d' = Z.sgn (coef d) * Z.abs (coef d') /\
  ndigits (Z.abs (coef d')) <= 28 /\
  2 * 10 ^ 27 * Z.abs (Z.abs (coef d') * 10 ^ (expo d' - expo d) - Z.abs (coef d))
    <= Z.abs (coef d).
Proof.
  destruct d as [c e]. unfold fix_, prec. simpl coef. simpl expo.
  set (m := Z.abs c).
  destruct (Z.ltb_spec e (ndigits m + e - 28)) as [Hround|Hfit].
  - assert (Hm : 0 < m).
    { destruct (decide (m = 0)) as [Hz|]; [|lia]. rewrite Hz, ndigits_zero in Hround. lia. }
    assert (Hc0 : c <> 0) by lia.
    destruct (ndigits_spec m Hm) as (_ & Hlo & Hhi).
    set (k := ndigits m - 28) in *.
    replace (ndigits m + e - 28 - e) with k by lia.
    assert (Hk : 0 < k) by lia.
    replace (ndigits m - 1) with (27 + k) in Hlo by lia.
    replace (ndigits m) with (28 + k) in Hhi by lia.
    rewrite pow10_add in Hlo, Hhi by lia.
    pose proof (pow10_pos k ltac:(lia)) as Hp.
    destruct (round_half_even_spec m k ltac:(lia) ltac:(lia)) as [[Hq1 Hq2] Herr].
    set (r := round_half_even m k) in *.
    assert (Hqlo : 10 ^ 27 <= m / 10 ^ k) by (apply Z.div_le_lower_bound; lia).
    assert (Hqhi : m / 10 ^ k < 10 ^ 28) by (apply Z.div_lt_upper_bound; lia).
    destruct (Z.gtb_spec (ndigits r) 28) as [Hbig|Hsmall].
    + assert (Hr : r = 10 ^ 28).
      { destruct (Z_lt_le_dec r (10 ^ 28)); [|lia].
        pose proof (ndigits_le r 28 ltac:(lia) ltac:(lia)). lia. }
      simpl coef. simpl expo. rewrite Hr in *.
      change (10 ^ 28 / 10) with (10 ^ 27).
      rewrite abs_sgn_mul by lia.
      replace (ndigits m + e - 28 + 1 - e) with (k + 1) by lia.
      rewrite pow10_succ by lia.
      repeat split.
      * lia.
      * vm_compute. discriminate.
      * replace (10 ^ 27 * (10 * 10 ^ k)) with (10 ^ 28 * 10 ^ k) by lia. lia.
    + simpl coef. simpl expo.
      rewrite abs_sgn_mul by lia.
      replace (ndigits m + e - 28 - e) with k by lia.
      repeat split; lia.
  - simpl coef. simpl expo. fold m.
    replace (e - e) with 0 by lia. change (10 ^ 0) with 1.
    repeat split; lia.
Qed.

End DecimalFix.

Section DecimalDivision.

Lemma strip_zeros_spec fuel c e ideal c' e' :
  0 <= c -> strip_zeros fuel c e ideal = (c', e') ->
  e <= e' /\ 0 <= c' /\ c' * 10 ^ (e' - e) = c.
Proof.
  revert c e. induction fuel as [|fuel IH]; intros c e Hc Heq; simpl in Heq.
  - inversion Heq; subst. replace (e' - e') with 0 by lia. change (10 ^ 0) with 1. lia.
  - destruct ((e <? ideal) && (c mod 10 =? 0)) eqn:Hcond.
    + apply andb_true_iff in Hcond as [_ Hmod]. apply Z.eqb_eq in Hmod.
      pose proof (Z.div_mod c 10 ltac:(lia)) as Hdm.
      apply IH in Heq as (He & Hc' & Hval); [|apply Z.div_pos; lia].
      replace (e' - e) with ((e' - (e + 1)) + 1) by lia.
      rewrite pow10_succ by lia. lia.
    + inversion Heq; subst. replace (e' - e') with 0 by lia. change (10 ^ 0) with 1. lia.
Qed.

(** The quotient of two [Numeric(10, 2)] values: [n] is within a relative
    error of [10^-27] of [|R| / M]; its value is taken at the scale [10^60]. *)
Lemma div_numeric_spec R M :
  R <> 0 -> Z.abs R < 10 ^ 10 -> 0 < M < 10 ^ 10 ->
  exists n,
    Dec.div (Decimal_of_numeric 2 R) (Decimal_of_numeric 2 M) = Ok n /\
    - 60 <= expo n /\
    coef n = Z.sgn R * Z.abs (coef n) /\
    10 ^ 27 * Z.abs (Z.abs (coef n) * 10 ^ (60 + expo n) * M - Z.abs R * 10 ^ 60)
      <= Z.abs R * 10 ^ 60.
Proof.
  intros HR HRb HM.
  unfold Dec.div, Decimal_of_numeric, prec. simpl coef. simpl expo.
  destruct (Z.eqb_spec M 0) as [?|_]; [lia|].
  destruct (Z.eqb_spec R 0) as [?|_]; [lia|].
  replace (Z.abs M) with M by lia.
  replace (Z.sgn M) with 1 by lia. rewrite Z.mul_1_r.
  set (A := Z.abs R) in *. assert (HA : 0 < A) by lia.
  destruct (ndigits_spec A HA) as (HdA & HAlo & HAhi).
  destruct (ndigits_spec M ltac:(lia)) as (HdM & HMlo & HMhi).
  pose proof (ndigits_le A 10 ltac:(lia) ltac:(lia)) as HdA10.
  pose proof (ndigits_le M 10 ltac:(lia) ltac:(lia)) as HdM10.
  set (shift := ndigits M - ndigits A + 28 + 1).
  assert (Hshift : 20 <= shift <= 38) by lia.
  replace (- (2) - - (2) - shift) with (- shift) by lia.
  replace (- (2) - - (2) - - shift) with shift by lia.
  replace (- (2) - - (2)) with 0 by lia.
  destruct (Z.leb_spec 0 shift) as [_|?]; [|lia].
  set (num := A * 10 ^ shift).
  pose proof (pow10_pos shift ltac:(lia)) as Hps.
  set (P := 10 ^ (60 - shift)).
  assert (HP : 0 < P) by (apply pow10_pos; lia).
  assert (HS : 10 ^ shift * P = 10 ^ 60).
  { unfold P. rewrite <- pow10_add by lia. f_equal. lia. }
  assert (Hnum : 10 ^ 28 * M <= num).
  { unfold num.
    assert (10 ^ 28 * 10 ^ ndigits M <= 10 ^ (ndigits A - 1) * 10 ^ shift).
    { rewrite <- !pow10_add by lia. apply pow10_le. lia. }
    nia. }
  pose proof (Z.div_mod num M ltac:(lia)) as Hdm.
  pose proof (Z.mod_pos_bound num M ltac:(lia)) as Hr.
  assert (Hq : 10 ^ 28 <= num / M) by (apply Z.div_le_lower_bound; lia).
  set (q := num / M) in *. set (r := num mod M) in *.
  destruct (Z.eqb_spec r 0) as [Hr0|Hr0].
  - destruct (strip_zeros (Z.to_nat shift) q (- shift) 0) as [c' e'] eqn:Hstrip.
    apply strip_zeros_spec in Hstrip as (He' & Hc' & Hval); [|lia].
    replace (e' - - shift) with (e' + shift) in Hval by lia.
    pose proof (pow10_pos (e' + shift) ltac:(lia)) as Hpe.
    assert (Hc'pos : 0 < c') by nia.
    eexists. split; [reflexivity|].
    destruct (fix_spec (mkDec (Z.sgn R * c') e')) as (Hexp & Hsgn & _ & Herr).
    simpl coef in *. simpl expo in *.
    set (n := fix_ (mkDec (Z.sgn R * c') e')) in *.
    rewrite abs_sgn_mul in Herr by lia.
    split; [lia|]. split.
    { replace (Z.sgn (Z.sgn R * c')) with (Z.sgn R) in Hsgn; [exact Hsgn|].
      destruct (Z.sgn_spec R) as [[? ->]|[[? ->]|[? ->]]]; lia. }
    set (F := Z.abs (coef n) * 10 ^ (expo n - e')) in *.
    assert (HN : Z.abs (coef n) * 10 ^ (60 + expo n) = F * 10 ^ (60 + e')).
    { unfold F. rewrite <- Z.mul_assoc, <- pow10_add by lia. do 2 f_equal. lia. }
    rewrite HN.
    assert (HcP : c' * 10 ^ (60 + e') = q * P).
    { rewrite <- Hval. unfold P. rewrite <- Z.mul_assoc, <- pow10_add by lia.
      do 2 f_equal. lia. }
    assert (HAS : A * 10 ^ 60 = c' * 10 ^ (60 + e') * M).
    { rewrite HcP, <- HS. unfold num in Hdm. nia. }
    rewrite HAS.
    pose proof (pow10_pos (60 + e') ltac:(lia)) as Hp1.
    set (P1 := 10 ^ (60 + e')) in *.
    replace (F * P1 * M - c' * P1 * M) with ((F - c') * (P1 * M)) by ring.
    rewrite Z.abs_mul. replace (Z.abs (P1 * M)) with (P1 * M) by nia.
    assert (0 <= P1 * M) by nia.
    nia.
  - set (c0 := if q mod 5 =? 0 then q + 1 else q).
    assert (Hc0 : q <= c0 <= q + 1) by (unfold c0; destruct (q mod 5 =? 0); lia).
    eexists. split; [reflexivity|].
    destruct (fix_spec (mkDec (Z.sgn R * c0) (- shift))) as (Hexp & Hsgn & _ & Herr).
    simpl coef in *. simpl expo in *.
    set (n := fix_ (mkDec (Z.sgn R * c0) (- shift))) in *.
    rewrite abs_sgn_mul in Herr by lia.
    split; [lia|]. split.
    { replace (Z.sgn (Z.sgn R * c0)) with (Z.sgn R) in Hsgn; [exact Hsgn|].
      destruct (Z.sgn_spec R) as [[? ->]|[[? ->]|[? ->]]]; lia. }
    replace (expo n - - shift) with (expo n + shift) in Herr by lia.
    set (F := Z.abs (coef n) * 10 ^ (expo n + shift)) in *.
    assert (HN : Z.abs (coef n) * 10 ^ (60 + expo n) = F * P).
    { unfold F, P. rewrite <- Z.mul_assoc, <- pow10_add by lia. do 2 f_equal. lia. }
    rewrite HN, <- HS.
    replace (F * P * M - A * (10 ^ shift * P))
      with (((F - c0) * M + (c0 * M - num)) * P) by (unfold num; ring).
    rewrite Z.abs_mul. replace (Z.abs P) with P by lia.
    assert (Hc0M : Z.abs (c0 * M - num) <= M) by nia.
    assert (HFM : 2 * 10 ^ 27 * Z.abs ((F - c0) * M) <= c0 * M).
    { rewrite Z.abs_mul. replace (Z.abs M) with M by lia. nia. }
    assert (Hsum : 10 ^ 27 * Z.abs ((F - c0) * M + (c0 * M - num)) <= num).
    { assert (c0 * M <= num + M) by nia. lia. }
    replace (A * (10 ^ shift * P)) with (num * P) by (unfold num; ring).
    nia.
Qed.

End DecimalDivision.

Section ErrorChain.

Lemma abs_mul_pos a E : 0 <= E -> Z.abs (a * E) = Z.abs a * E.
Proof. intros. rewrite Z.abs_mul. f_equal. lia. Qed.

Lemma abs_pos_mul E a : 0 <= E -> Z.abs (E * a) = E * Z.abs a.
Proof. intros. rewrite Z.abs_mul. f_equal. lia. Qed.

Lemma scale_le c a b E : 0 <= E -> c * a <= b -> c * (a * E) <= b * E.
Proof. intros. nia. Qed.

Lemma scale_le_l c a b E : 0 <= E -> c * a <= b -> c * (E * a) <= E * b.
Proof. intros. nia. Qed.

(** The errors of the division and of the product, at the scale [10^60]
    ([N]: the quotient, [Np]: the product at the scale [10^62]). *)
Lemma chain_product_bound M A V N Np :
  0 < M < 10 ^ 10 -> 0 < A < 10 ^ 10 -> 0 < V < 10 ^ 5 -> 0 <= N ->
  10 ^ 27 * Z.abs (N * M - A * 10 ^ 60) <= A * 10 ^ 60 ->
  2 * 10 ^ 27 * Z.abs (Np - N * V) <= N * V ->
  0 < Np < 10 ^ 76.
Proof.
  intros HM HA HV HN Hn Hp.
  assert (HNM : N * M <= 2 * (A * 10 ^ 60)) by lia.
  assert (HNb : N <= 2 * (A * 10 ^ 60)) by (clear - HNM HM HN; nia).
  assert (HNlo : 0 < N).
  { destruct (decide (N = 0)) as [->|]; [|lia]. simpl in Hn. lia. }
  assert (HNV0 : 0 < N * V) by (clear - HNlo HV; nia).
  assert (HNVb : N * V < 2 * 10 ^ 75).
  { assert (N * V <= 2 * (A * 10 ^ 60) * V)
      by (apply Z.mul_le_mono_nonneg_r; lia).
    assert (A * V < 10 ^ 10 * 10 ^ 5) by (clear - HA HV; nia).
    clear - H H0. lia. }
  clear - Hp HNV0 HNVb. lia.
Qed.

Lemma chain_final_bound M A V N Np Y :
  0 < M < 10 ^ 10 -> 0 < A < 10 ^ 10 -> 0 < V < 10 ^ 5 -> 0 <= N -> 0 <= Y ->
  10 ^ 27 * Z.abs (N * M - A * 10 ^ 60) <= A * 10 ^ 60 ->
  2 * 10 ^ 27 * Z.abs (Np - N * V) <= N * V ->
  2 * Z.abs (Y * 10 ^ 58 - Np) <= 10 ^ 58 ->
  Y < 10 ^ 28 /\ 2 * Z.abs (M * Y - 100 * A * V) <= M.
Proof.
  intros HM HA HV HN HY Hn Hp Hq.
  pose proof (chain_product_bound M A V N Np HM HA HV HN Hn Hp) as HNp.
  split; [lia|].
  assert (HNM : N * M <= 2 * (A * 10 ^ 60)) by lia.
  set (e1 := Y * 10 ^ 58 - Np) in *.
  set (e2 := Np - N * V) in *.
  set (e3 := N * M - A * 10 ^ 60) in *.
  assert (Hdecomp : (M * Y - 100 * A * V) * 10 ^ 58 = M * e1 + M * e2 + V * e3).
  { unfold e1, e2, e3. change (10 ^ 60) with (100 * 10 ^ 58). ring. }
  assert (H1 : 2 * Z.abs (M * e1) <= M * 10 ^ 58).
  { rewrite abs_pos_mul by lia. apply scale_le_l; [lia|exact Hq]. }
  assert (H2 : 10 ^ 27 * Z.abs (M * e2) <= V * (A * 10 ^ 60)).
  { rewrite abs_pos_mul by lia.
    assert (H2a : 2 * 10 ^ 27 * (M * Z.abs e2) <= M * (N * V))
      by (apply scale_le_l; [lia|exact Hp]).
    assert (H2b : M * (N * V) <= V * (2 * (A * 10 ^ 60))).
    { replace (M * (N * V)) with (V * (N * M)) by ring.
      apply Z.mul_le_mono_nonneg_l; [lia|exact HNM]. }
    clear - H2a H2b. lia. }
  assert (H3 : 10 ^ 27 * Z.abs (V * e3) <= V * (A * 10 ^ 60)).
  { rewrite abs_pos_mul by lia. apply scale_le_l; [lia|exact Hn]. }
  assert (HAV : V * (A * 10 ^ 60) < 10 ^ 75).
  { clear - HA HV. assert (A * V < 10 ^ 10 * 10 ^ 5) by nia. nia. }
  assert (Hfin : 2 * Z.abs ((M * Y - 100 * A * V) * 10 ^ 58) < (M + 1) * 10 ^ 58).
  { rewrite Hdecomp. clear - H1 H2 H3 HAV HM. lia. }
  rewrite abs_mul_pos in Hfin by lia.
  clear - Hfin. nia.
Qed.

End ErrorChain.

Section WeightedModule.

(** The product [normalised * weight], rounded by [_fix]: its magnitude at
    the scale [10^62] against that of the quotient at the scale [10^60]. *)
Lemma mul_numeric_spec n W :
  - 60 <= expo n ->
  let p := mul n (Decimal_of_numeric 2 W) in
  - 62 <= expo p /\
  coef p = Z.sgn (coef n) * Z.sgn W * Z.abs (coef p) /\
  2 * 10 ^ 27 * Z.abs (Z.abs (coef p) * 10 ^ (62 + expo p)
                       - Z.abs (coef n) * 10 ^ (60 + expo n) * Z.abs W)
    <= Z.abs (coef n) * 10 ^ (60 + expo n) * Z.abs W.
Proof.
  intros Hen. unfold mul, Decimal_of_numeric. simpl coef. simpl expo.
  destruct (fix_spec (mkDec (coef n * W) (expo n + - (2)))) as (Hep & Hsp & _ & Hp).
  set (p := fix_ (mkDec (coef n * W) (expo n + - (2)))) in *.
  simpl coef in *. simpl expo in *.
  rewrite Z.abs_mul in Hp. rewrite Z.sgn_mul in Hsp.
  split; [lia|]. split; [exact Hsp|].
  pose proof (pow10_pos (60 + expo n) ltac:(lia)) as HP2.
  set (P2 := 10 ^ (60 + expo n)) in *.
  assert (HNp : Z.abs (coef p) * 10 ^ (62 + expo p)
                = Z.abs (coef p) * 10 ^ (expo p - (expo n + - (2))) * P2).
  { unfold P2. rewrite <- Z.mul_assoc, <- pow10_add by lia. do 2 f_equal. lia. }
  rewrite HNp.
  set (G := Z.abs (coef p) * 10 ^ (expo p - (expo n + - (2)))) in *.
  replace (G * P2 - Z.abs (coef n) * P2 * Z.abs W)
    with ((G - Z.abs (coef n) * Z.abs W) * P2) by ring.
  replace (Z.abs (coef n) * P2 * Z.abs W)
    with (Z.abs (coef n) * Z.abs W * P2) by ring.
  rewrite abs_mul_pos by lia. apply scale_le; [lia|exact Hp].
Qed.

(** [_rescale(-4, ROUND_HALF_UP)]: the magnitude in units of [10^-4]. *)
Lemma rescale_numeric_spec p :
  - 62 <= expo p ->
  exists Y,
    rescale_half_up p (-4) = mkDec (Z.sgn (coef p) * Y) (-4) /\ 0 <= Y /\
    2 * Z.abs (Y * 10 ^ 58 - Z.abs (coef p) * 10 ^ (62 + expo p)) <= 10 ^ 58.
Proof.
  intros Hep. unfold rescale_half_up.
  destruct (Z.geb_spec (expo p) (-4)) as [Hge|Hlt].
  - exists (Z.abs (coef p) * 10 ^ (expo p - -4)).
    pose proof (pow10_pos (expo p - -4) ltac:(lia)).
    split; [|split; [nia|]].
    + f_equal. rewrite Z.mul_assoc, (Z.mul_comm (Z.sgn (coef p))), Z.abs_sgn. done.
    + replace (Z.abs (coef p) * 10 ^ (expo p - -4) * 10 ^ 58)
        with (Z.abs (coef p) * 10 ^ (62 + expo p)); [lia|].
      rewrite <- Z.mul_assoc, <- pow10_add by lia. do 2 f_equal. lia.
  - exists (round_half_up (Z.abs (coef p)) (-4 - expo p)).
    destruct (round_half_up_spec (Z.abs (coef p)) (-4 - expo p) ltac:(lia) ltac:(lia))
      as [[Hq _] Herr].
    set (Y := round_half_up (Z.abs (coef p)) (-4 - expo p)) in *.
    pose proof (pow10_pos (-4 - expo p) ltac:(lia)) as Hpk.
    assert (0 <= Z.abs (coef p) / 10 ^ (-4 - expo p)) by (apply Z.div_pos; lia).
    split; [done|]. split; [lia|].
    pose proof (pow10_pos (62 + expo p) ltac:(lia)) as Hpe.
    assert (H58 : 10 ^ 58 = 10 ^ (-4 - expo p) * 10 ^ (62 + expo p)).
    { rewrite <- pow10_add by lia. f_equal. lia. }
    rewrite H58.
    set (K := 10 ^ (-4 - expo p)) in *. set (E := 10 ^ (62 + expo p)) in *.
    replace (Y * (K * E) - Z.abs (coef p) * E) with ((Y * K - Z.abs (coef p)) * E) by ring.
    rewrite abs_mul_pos by lia. apply scale_le; [lia|exact Herr].
Qed.

(** [quantize] succeeds on a non-zero [p] below [10^14]. *)
Lemma quantize_numeric_spec p :
  - 62 <= expo p -> coef p <> 0 ->
  Z.abs (coef p) * 10 ^ (62 + expo p) < 10 ^ 76 ->
  exists Y,
    quantize_half_up p (-4) = Ok (mkDec (Z.sgn (coef p) * Y) (-4)) /\ 0 <= Y /\
    2 * Z.abs (Y * 10 ^ 58 - Z.abs (coef p) * 10 ^ (62 + expo p)) <= 10 ^ 58.
Proof.
  intros Hep Hcp HNp.
  destruct (ndigits_spec (Z.abs (coef p)) ltac:(lia)) as (Hd1 & Hdlo & _).
  assert (Hdig : expo p + ndigits (Z.abs (coef p)) <= 24).
  { destruct (Z_le_gt_dec (expo p + ndigits (Z.abs (coef p))) 24); [done|].
    assert (10 ^ 76 <= Z.abs (coef p) * 10 ^ (62 + expo p)); [|lia].
    assert (10 ^ 76 <= 10 ^ (ndigits (Z.abs (coef p)) - 1) * 10 ^ (62 + expo p)).
    { rewrite <- pow10_add by lia. apply pow10_le. lia. }
    pose proof (pow10_pos (62 + expo p) ltac:(lia)).
    etrans; [eassumption|]. apply Z.mul_le_mono_nonneg_r; lia. }
  destruct (rescale_numeric_spec p Hep) as (Y & Hres & HY0 & HY).
  exists Y. split; [|done].
  unfold quantize_half_up, prec.
  destruct (Z.eqb_spec (coef p) 0); [done|].
  destruct (Z.gtb_spec (expo p + ndigits (Z.abs (coef p)) - 1 - -4 + 1) 28); [lia|].
  rewrite Hres. simpl coef.
  rewrite abs_sgn_mul by done.
  destruct (Z.gtb_spec (ndigits Y) 28) as [Hbig|_]; [|done].
  assert (Y < 10 ^ 28) by (clear - HY HNp HY0; lia).
  pose proof (ndigits_le Y 28 ltac:(lia) ltac:(lia)). lia.
Qed.

(** [(raw / max * weight).quantize(Decimal("0.0001"), ROUND_HALF_UP)] on
    values of the columns: it is defined, carries the sign of
    [raw * weight], and its magnitude [Y] (in units of [10^-4]) is a nearest
    multiple of [10^-4] to [|raw| / max * |weight|]. *)
Lemma weigh_spec R M W :
  Z.abs R < 10 ^ 10 -> 0 < M < 10 ^ 10 -> Z.abs W < 10 ^ 5 ->
  exists Y,
    (normalised ← Dec.div (Decimal_of_numeric 2 R) (Decimal_of_numeric 2 M);
     quantize_half_up (mul normalised (Decimal_of_numeric 2 W)) (-4))
    = Ok (mkDec (Z.sgn R * Z.sgn W * Y) (-4)) /\
    0 <= Y /\
    2 * Z.abs (M * Y - 100 * Z.abs R * Z.abs W) <= M.
Proof.
  intros HR HM HW.
  destruct (decide (R = 0)) as [->|HR0].
  { exists 0. split; [|lia].
    unfold Dec.div, Decimal_of_numeric. simpl coef. simpl expo.
    destruct (Z.eqb_spec M 0); [lia|]. simpl.
    unfold mul, quantize_half_up, fix_. simpl. reflexivity. }
  destruct (div_numeric_spec R M HR0 HR HM) as (n & Hdiv & Hen & Hsn & Hn).
  rewrite Hdiv. simpl.
  assert (Hcn : coef n <> 0).
  { intros Hz. rewrite Hz in Hn. simpl in Hn. clear - Hn HR0. lia. }
  destruct (decide (W = 0)) as [->|HW0].
  { exists 0. split; [|clear - HM; lia].
    unfold mul, Decimal_of_numeric. simpl coef. simpl expo.
    rewrite Z.mul_0_r. unfold fix_. simpl coef. simpl expo.
    change (ndigits (Z.abs 0)) with 1. unfold prec.
    destruct (Z.ltb_spec (expo n + - (2)) (1 + (expo n + - (2)) - 28)); [lia|].
    unfold quantize_half_up. simpl. by rewrite Z.mul_0_r. }
  destruct (mul_numeric_spec n W Hen) as (Hep & Hsp & Hp).
  set (p := mul n (Decimal_of_numeric 2 W)) in *.
  assert (Hsn' : Z.sgn (coef n) = Z.sgn R).
  { rewrite Hsn, Z.sgn_mul, Z.sgn_sgn.
    replace (Z.sgn (Z.abs (coef n))) with 1 by lia. lia. }
  rewrite Hsn' in Hsp.
  pose proof (pow10_pos (60 + expo n) ltac:(lia)) as HP2.
  assert (HN0 : 0 <= Z.abs (coef n) * 10 ^ (60 + expo n)) by (apply Z.mul_nonneg_nonneg; lia).
  set (N := Z.abs (coef n) * 10 ^ (60 + expo n)) in *.
  set (Np := Z.abs (coef p) * 10 ^ (62 + expo p)) in *.
  assert (HA : 0 < Z.abs R < 10 ^ 10) by lia.
  assert (HV : 0 < Z.abs W < 10 ^ 5) by lia.
  pose proof (chain_product_bound M _ _ N Np HM HA HV HN0 Hn Hp) as HNp.
  assert (Hcp : coef p <> 0).
  { intros Hz. unfold Np in HNp. rewrite Hz in HNp. simpl in HNp. clear - HNp. lia. }
  destruct (quantize_numeric_spec p Hep Hcp ltac:(apply HNp)) as (Y & Hq & HY0 & HY).
  fold Np in HY.
  exists Y. rewrite Hq. split.
  { do 2 f_equal. rewrite Hsp, !Z.sgn_mul, !Z.sgn_sgn.
    replace (Z.sgn (Z.abs (coef p))) with 1 by lia. ring. }
  split; [done|].
  apply (chain_final_bound M _ _ N Np Y HM HA HV HN0 HY0 Hn Hp HY).
Qed.

End WeightedModule.

Section Calculator.

Lemma fix_small c e : Z.abs c < 10 ^ 28 -> fix_ (mkDec c e) = mkDec c e.
Proof.
  intros Hc. unfold fix_, prec. simpl coef. simpl expo.
  pose proof (ndigits_le (Z.abs c) 28 ltac:(lia) ltac:(lia)).
  destruct (Z.ltb_spec e (ndigits (Z.abs c) + e - 28)); [lia|done].
Qed.

Lemma add_zero_numeric b : Z.abs b < 10 ^ 28 -> add (mkDec 0 0) (mkDec b (-4)) = mkDec b (-4).
Proof.
  intros Hb. unfold add. simpl coef. simpl expo.
  change (Z.min 0 (-4)) with (-4). change (-4 - -4) with 0. change (10 ^ 0) with 1.
  replace (0 * 10 ^ (0 - -4) + b * 1) with b by lia. by apply fix_small.
Qed.

Lemma add_numeric a b :
  Z.abs (a + b) < 10 ^ 28 -> add (mkDec a (-4)) (mkDec b (-4)) = mkDec (a + b) (-4).
Proof.
  intros Hb. unfold add. simpl coef. simpl expo.
  change (Z.min (-4) (-4)) with (-4). change (-4 - -4) with 0. change (10 ^ 0) with 1.
  replace (a * 1 + b * 1) with (a + b) by lia. by apply fix_small.
Qed.

Lemma quantize_numeric c :
  Z.abs c < 10 ^ 24 -> quantize_half_up (mkDec c (-4)) (-4) = Ok (mkDec c (-4)).
Proof.
  intros Hc. unfold quantize_half_up, prec. simpl coef. simpl expo.
  destruct (Z.eqb_spec c 0) as [->|Hc0]; [done|].
  pose proof (ndigits_le (Z.abs c) 24 ltac:(lia) ltac:(lia)).
  destruct (Z.gtb_spec (-4 + ndigits (Z.abs c) - 1 - -4 + 1) 28); [lia|].
  unfold rescale_half_up. simpl.
  rewrite Z.mul_1_r.
  destruct (Z.gtb_spec (ndigits (Z.abs c)) 28); [lia|done].
Qed.

(** The loop of [_calculate_weighted_score] over the three modules, for any
    weighing of a module, any sum and any rounding. *)
Lemma calc_loop_unfold (weigh : module -> result (Decimal * Z))
    (plus : Decimal -> Decimal -> Decimal) (quant : Decimal -> result Decimal)
    (zero : Decimal) :
  (s ← foldl (fun (st : result CalcState) m =>
                s ← st;
                '(weighted, time) ← weigh m;
                Ok (mkCalcState
                      (fun m' => if decide (m' = m) then weighted else cs_result s m')
                      (plus (cs_total s) weighted)
                      (cs_total_time s + time)))
        (Ok (mkCalcState (fun _ => zero) zero 0))
        [coding; quiz; assessment];
   total_score ← quant (cs_total s);
   Ok (mkWeighted (cs_result s coding) (cs_result s quiz) (cs_result s assessment)
         total_score (cs_total_time s)))
  = (c ← weigh coding;
     q ← weigh quiz;
     a ← weigh assessment;
     total ← quant (plus (plus (plus zero c.1) q.1) a.1);
     Ok (mkWeighted c.1 q.1 a.1 total (0 + c.2 + q.2 + a.2))).
Proof.
  cbn [foldl mbind result_bind].
  destruct (weigh coding) as [[w1 t1]|e1]; [|done].
  destruct (weigh quiz) as [[w2 t2]|e2]; [|done].
  destruct (weigh assessment) as [[w3 t3]|e3]; [|done].
  cbn [mbind result_bind cs_result cs_total cs_total_time fst snd].
  destruct (quant _); reflexivity.
Qed.

Lemma calc_unfold rows exam :
  _calculate_weighted_score rows exam =
  (c ← module_weighted exam (scores_dict rows) coding;
   q ← module_weighted exam (scores_dict rows) quiz;
   a ← module_weighted exam (scores_dict rows) assessment;
   total ← quantize_half_up (add (add (add (mkDec 0 0) c.1) q.1) a.1) (-4);
   Ok (mkWeighted c.1 q.1 a.1 total (0 + c.2 + q.2 + a.2))).
Proof.
  exact (calc_loop_unfold (module_weighted exam (scores_dict rows)) add
           (fun d => quantize_half_up d (-4)) (mkDec 0 0)).
Qed.

(** The dict of module scores. *)
Lemma scores_dict_acc_Some (rows : list ModuleScore) (acc : gmap string ModuleScore) k ms :
  foldl (fun d ms => <[ms_module_type ms := ms]> d) acc rows !! k = Some ms ->
  (ms ∈ rows /\ ms_module_type ms = k) \/ acc !! k = Some ms.
Proof.
  revert acc. induction rows as [|r rows IH]; intros acc H; simpl in H; [by right|].
  apply IH in H as [[? ?]|H].
  - left. split; [by apply elem_of_cons; right|done].
  - destruct (decide (ms_module_type r = k)) as [<-|Hne].
    + rewrite lookup_insert_eq in H. inversion H; subst.
      left. split; [apply elem_of_cons; by left|done].
    + rewrite lookup_insert_ne in H by done. by right.
Qed.

Lemma scores_dict_Some rows k ms :
  scores_dict rows !! k = Some ms -> ms ∈ rows /\ ms_module_type ms = k.
Proof.
  intros H. apply scores_dict_acc_Some in H as [?|H]; [done|].
  by rewrite lookup_empty in H.
Qed.

Lemma scores_dict_acc_None (rows : list ModuleScore) (acc : gmap string ModuleScore) k :
  foldl (fun d ms => <[ms_module_type ms := ms]> d) acc rows !! k = None <->
  acc !! k = None /\ forall ms, ms ∈ rows -> ms_module_type ms <> k.
Proof.
  revert acc. induction rows as [|r rows IH]; intros acc; simpl.
  - split; [intros ?; split; [done|]; intros ? Hin; by apply elem_of_nil in Hin | by intros [? _]].
  - rewrite IH. split.
    + intros [Hins Hrows]. apply lookup_insert_None in Hins as [? ?].
      split; [done|]. intros ms [->|?]%elem_of_cons; auto.
    + intros [Hacc Hrows]. split.
      * apply lookup_insert_None. split; [done|]. apply Hrows, elem_of_cons. by left.
      * intros ms ?. apply Hrows, elem_of_cons. by right.
Qed.

Lemma scores_dict_None rows k :
  scores_dict rows !! k = None <-> forall ms, ms ∈ rows -> ms_module_type ms <> k.
Proof.
  unfold scores_dict. rewrite scores_dict_acc_None, lookup_empty.
  split; [by intros [_ ?]|by split].
Qed.

End Calculator.

Section CalculatorSpec.

Lemma module_weighted_absent exam scores m :
  scores !! module_name m = None ->
  module_weighted exam scores m = Ok (mkDec 0 (-4), 0).
Proof. intros H. unfold module_weighted. by rewrite H. Qed.

Lemma module_weighted_nonpos exam scores m ms :
  scores !! module_name m = Some ms -> max_of exam m <= 0 ->
  module_weighted exam scores m = Ok (mkDec 0 (-4), 0).
Proof.
  intros H Hmax. unfold module_weighted, is_pos, max_map, Decimal_of_numeric.
  rewrite H. simpl coef. destruct (Z.ltb_spec 0 (max_of exam m)); [lia|done].
Qed.

(** The weighted score of a submitted module, on values of the columns. *)
Lemma module_weighted_submitted exam scores m ms :
  scores !! module_name m = Some ms ->
  numeric_10_2 (ms_raw_score ms) -> numeric_5_2 (weight_of exam m) ->
  0 < max_of exam m < 10 ^ 10 ->
  exists Y,
    module_weighted exam scores m
    = Ok (mkDec (Z.sgn (ms_raw_score ms) * Z.sgn (weight_of exam m) * Y) (-4),
          ms_time_spent_sec ms) /\
    0 <= Y < 10 ^ 18 /\
    2 * Z.abs (max_of exam m * Y
               - 100 * Z.abs (ms_raw_score ms) * Z.abs (weight_of exam m))
      <= max_of exam m.
Proof.
  intros H HR HW HM. unfold numeric_10_2, numeric_5_2 in *.
  destruct (weigh_spec (ms_raw_score ms) (max_of exam m) (weight_of exam m) HR HM HW)
    as (Y & Hw & HY0 & HY).
  exists Y. split; [|split; [split; [done|]|done]].
  - unfold module_weighted, is_pos, max_map, weight_map.
    rewrite H. unfold Decimal_of_numeric at 1. simpl coef.
    destruct (Z.ltb_spec 0 (max_of exam m)); [|lia].
    cbn [mbind result_bind] in *.
    destruct (Dec.div _ _) as [n|e]; [|discriminate].
    cbn [mbind result_bind] in *. by rewrite Hw.
  - assert (Hav : Z.abs (ms_raw_score ms) * Z.abs (weight_of exam m) < 10 ^ 10 * 10 ^ 5)
      by nia.
    set (A := Z.abs (ms_raw_score ms)) in *. set (V := Z.abs (weight_of exam m)) in *.
    set (M := max_of exam m) in *.
    assert (M * Y <= 100 * (A * V) + M) by lia.
    assert (Y <= 100 * (A * V) + 1) by nia.
    clear - Hav H1. lia.
Qed.

(** The time a module adds is [counted_time]. *)
Lemma module_weighted_time exam rows m w t :
  module_weighted exam (scores_dict rows) m = Ok (w, t) ->
  t = counted_time exam rows m.
Proof.
  unfold module_weighted, counted_time.
  destruct (scores_dict rows !! module_name m) as [ms|]; [|by inversion 1].
  destruct (is_pos (max_map exam m)); [|by inversion 1].
  intros H. apply bind_Ok in H as (n & _ & H). apply bind_Ok in H as (w' & _ & H).
  by inversion H.
Qed.

(** On values of the columns every module is weighed: an integer number of
    units of [10^-4], below [10^18]. *)
Lemma module_weighted_defined exam rows m :
  exam_in_range exam -> scores_in_range rows ->
  exists c t, module_weighted exam (scores_dict rows) m = Ok (mkDec c (-4), t)
              /\ Z.abs c < 10 ^ 18.
Proof.
  intros Hexam Hrows. destruct (Hexam m) as [HW HM].
  destruct (scores_dict rows !! module_name m) as [ms|] eqn:Hms.
  - destruct (Z_lt_le_dec 0 (max_of exam m)) as [Hpos|Hnonpos].
    + apply scores_dict_Some in Hms as Hin. destruct Hin as [Hin _].
      destruct (module_weighted_submitted exam _ m ms Hms (Hrows _ Hin) HW)
        as (Y & -> & HY & _).
      { unfold numeric_10_2 in HM. lia. }
      eexists _, _. split; [done|].
      assert (Z.abs (Z.sgn (ms_raw_score ms) * Z.sgn (weight_of exam m) * Y) <= Y); [|lia].
      rewrite !Z.abs_mul.
      pose proof (Z.sgn_spec (ms_raw_score ms)). pose proof (Z.sgn_spec (weight_of exam m)).
      destruct (Z.sgn (ms_raw_score ms)) as [|[]|[]], (Z.sgn (weight_of exam m)) as [|[]|[]];
        try lia.
    + rewrite (module_weighted_nonpos _ _ _ ms) by done. by eexists _, _.
  - rewrite module_weighted_absent by done. by eexists _, _.
Qed.

(** The total of three weighted scores. *)
Lemma total_numeric c q a :
  Z.abs c < 10 ^ 18 -> Z.abs q < 10 ^ 18 -> Z.abs a < 10 ^ 18 ->
  quantize_half_up
    (add (add (add (mkDec 0 0) (mkDec c (-4))) (mkDec q (-4))) (mkDec a (-4))) (-4)
  = Ok (mkDec (c + q + a) (-4)).
Proof.
  intros. rewrite add_zero_numeric by lia.
  rewrite add_numeric by lia. rewrite add_numeric by lia.
  apply quantize_numeric. lia.
Qed.

Lemma calc_of_modules rows exam c q a tc tq ta :
  Z.abs c < 10 ^ 18 -> Z.abs q < 10 ^ 18 -> Z.abs a < 10 ^ 18 ->
  module_weighted exam (scores_dict rows) coding = Ok (mkDec c (-4), tc) ->
  module_weighted exam (scores_dict rows) quiz = Ok (mkDec q (-4), tq) ->
  module_weighted exam (scores_dict rows) assessment = Ok (mkDec a (-4), ta) ->
  _calculate_weighted_score rows exam
  = Ok (mkWeighted (mkDec c (-4)) (mkDec q (-4)) (mkDec a (-4))
          (mkDec (c + q + a) (-4)) (0 + tc + tq + ta)).
Proof.
  intros Hcb Hqb Hab Hc Hq Ha.
  rewrite calc_unfold, Hc, bind_Ok_l, Hq, bind_Ok_l, Ha, bind_Ok_l.
  cbv beta. cbn [fst snd]. rewrite (total_numeric c q a Hcb Hqb Hab). reflexivity.
Qed.

Lemma calc_defined rows exam :
  exam_in_range exam -> scores_in_range rows ->
  exists c q a tc tq ta,
    module_weighted exam (scores_dict rows) coding = Ok (mkDec c (-4), tc) /\
    module_weighted exam (scores_dict rows) quiz = Ok (mkDec q (-4), tq) /\
    module_weighted exam (scores_dict rows) assessment = Ok (mkDec a (-4), ta) /\
    _calculate_weighted_score rows exam
    = Ok (mkWeighted (mkDec c (-4)) (mkDec q (-4)) (mkDec a (-4))
            (mkDec (c + q + a) (-4)) (0 + tc + tq + ta)).
Proof.
  intros Hexam Hrows.
  destruct (module_weighted_defined exam rows coding Hexam Hrows) as (c & tc & Hc & Hcb).
  destruct (module_weighted_defined exam rows quiz Hexam Hrows) as (q & tq & Hq & Hqb).
  destruct (module_weighted_defined exam rows assessment Hexam Hrows) as (a & ta & Ha & Hab).
  exists c, q, a, tc, tq, ta. split; [exact Hc|]. split; [exact Hq|]. split; [exact Ha|].
  by apply calc_of_modules.
Qed.

(** What a result of the calculator is made of. *)
Lemma calc_Ok rows exam res :
  _calculate_weighted_score rows exam = Ok res ->
  exists c q a,
    module_weighted exam (scores_dict rows) coding = Ok (w_coding res, c) /\
    module_weighted exam (scores_dict rows) quiz = Ok (w_quiz res, q) /\
    module_weighted exam (scores_dict rows) assessment = Ok (w_assessment res, a) /\
    quantize_half_up
      (add (add (add (mkDec 0 0) (w_coding res)) (w_quiz res)) (w_assessment res)) (-4)
    = Ok (w_total_score res) /\
    w_total_time_sec res = 0 + c + q + a.
Proof.
  rewrite calc_unfold. intros H.
  apply bind_Ok in H as ([wc tc] & Hc & H).
  apply bind_Ok in H as ([wq tq] & Hq & H).
  apply bind_Ok in H as ([wa ta] & Ha & H).
  apply bind_Ok in H as (total & Ht & H).
  inversion H; subst; clear H. cbn [fst snd] in *.
  exists tc, tq, ta. done.
Qed.

End CalculatorSpec.

(* ====================================================================== *)
(** * The weighted score: the claims *)
(* ====================================================================== *)

Section CalculatorClaims.

Lemma module_weighted_Some exam scores m ms w :
  scores !! module_name m = Some ms -> 0 < max_of exam m ->
  (normalised ← Dec.div (Decimal_of_numeric 2 (ms_raw_score ms))
                        (Decimal_of_numeric 2 (max_of exam m));
   quantize_half_up (mul normalised (Decimal_of_numeric 2 (weight_of exam m))) (-4))
  = Ok w ->
  module_weighted exam scores m = Ok (w, ms_time_spent_sec ms).
Proof.
  intros H Hmax Hw. unfold module_weighted, is_pos, max_map, weight_map.
  rewrite H. unfold Decimal_of_numeric at 1. simpl coef.
  destruct (Z.ltb_spec 0 (max_of exam m)); [|lia].
  apply bind_Ok in Hw as (n & -> & Hw). rewrite bind_Ok_l, Hw. reflexivity.
Qed.

(** The number a quantized [Decimal] denotes. *)
Lemma to_Q_numeric c : (to_Q (mkDec c (-4)) == numeric_Q 4 c)%Q.
Proof.
  unfold to_Q, numeric_Q. simpl coef. simpl expo.
  change ((10 # 1) ^ (-4))%Q with (1 # 10000)%Q.
  change (inject_Z (10 ^ 4)) with (10000 # 1)%Q.
  unfold Qdiv. change (/ (10000 # 1))%Q with (1 # 10000)%Q. reflexivity.
Qed.

(** A nearest multiple of [10^-4], as a distance of rational numbers. *)
Lemma nearest_Q R M W Y :
  0 < M -> 2 * Z.abs (M * Y - 100 * R * W) <= M ->
  (Qabs (numeric_Q 4 Y - exact_weighted R M W) <= 1 # 20000)%Q.
Proof.
  intros HM Hb. unfold exact_weighted, numeric_Q.
  change (10 ^ 4) with 10000. change (10 ^ 2) with 100.
  assert (Hm : (0 < inject_Z M)%Q)
    by (change 0%Q with (inject_Z 0); rewrite <- Zlt_Qlt; exact HM).
  assert (Hm0 : ~ (inject_Z M == 0)%Q) by lra.
  assert (H1 : (inject_Z Y / inject_Z 10000
           - inject_Z R / inject_Z 100 / (inject_Z M / inject_Z 100) * (inject_Z W / inject_Z 100)
           == (inject_Z M * inject_Z Y - 100 * inject_Z R * inject_Z W) / (10000 * inject_Z M))%Q).
  { change (inject_Z 10000) with (10000 # 1)%Q. change (inject_Z 100) with (100 # 1)%Q.
    field. exact Hm0. }
  rewrite H1.
  assert (Hz : (- inject_Z M <= 2 * (inject_Z M * inject_Z Y - 100 * inject_Z R * inject_Z W)
                <= inject_Z M)%Q).
  { change 2%Q with (inject_Z 2). change 100%Q with (inject_Z 100).
    rewrite <- !inject_Z_mult, <- inject_Z_opp.
    unfold Qminus. rewrite <- inject_Z_opp, <- inject_Z_plus, <- inject_Z_mult.
    rewrite <- !Zle_Qle. lia. }
  set (a := (inject_Z M * inject_Z Y - 100 * inject_Z R * inject_Z W)%Q) in *.
  apply Qabs_Qle_condition. split.
  - apply Qle_shift_div_l; [lra|]. lra.
  - apply Qle_shift_div_r; [lra|]. lra.
Qed.

Lemma numeric_Q_plus s a b : (numeric_Q s (a + b) == numeric_Q s a + numeric_Q s b)%Q.
Proof.
  unfold numeric_Q. rewrite inject_Z_plus. unfold Qdiv. ring.
Qed.

Lemma numeric_Q_bounds c : 0 <= c <= 1000000 -> (0 <= numeric_Q 4 c <= 100)%Q.
Proof.
  intros Hc. unfold numeric_Q. change (inject_Z (10 ^ 4)) with (10000 # 1)%Q.
  assert ((inject_Z 0 <= inject_Z c <= inject_Z 1000000)%Q) as [H0 H1]
    by (rewrite <- !Zle_Qle; lia).
  change (inject_Z 0) with 0%Q in H0. change (inject_Z 1000000) with (1000000 # 1)%Q in H1.
  split.
  - apply Qle_shift_div_l; [reflexivity|]. lra.
  - apply Qle_shift_div_r; [reflexivity|]. lra.
Qed.

(** A weighted score of non-negative operands, raw below the maximum. *)
Lemma module_weighted_valid exam scores m ms :
  scores !! module_name m = Some ms ->
  0 <= weight_of exam m <= 10000 -> 0 < max_of exam m < 10 ^ 10 ->
  0 <= ms_raw_score ms <= max_of exam m ->
  exists c,
    module_weighted exam scores m = Ok (mkDec c (-4), ms_time_spent_sec ms) /\
    0 <= c <= 100 * weight_of exam m /\
    2 * Z.abs (max_of exam m * c - 100 * ms_raw_score ms * weight_of exam m)
      <= max_of exam m.
Proof.
  intros H HW HM HR.
  destruct (module_weighted_submitted exam scores m ms H) as (Y & Hw & [HY0 _] & HY);
    [unfold numeric_10_2; lia | unfold numeric_5_2; lia | done |].
  set (R := ms_raw_score ms) in *. set (W := weight_of exam m) in *.
  set (M := max_of exam m) in *.
  replace (Z.abs R) with R in HY by lia. replace (Z.abs W) with W in HY by lia.
  assert (HRW : 0 <= R * W <= M * W) by nia.
  exists (Z.sgn R * Z.sgn W * Y). split; [exact Hw|].
  destruct (decide (R = 0)) as [HR0|HR0].
  { rewrite HR0 in *. simpl. split; lia. }
  destruct (decide (W = 0)) as [HW0|HW0].
  { rewrite HW0 in *. rewrite Z.mul_0_r in *. simpl. rewrite Z.mul_0_r. simpl. split; lia. }
  replace (Z.sgn R) with 1 by lia. replace (Z.sgn W) with 1 by lia.
  rewrite !Z.mul_1_l. split; [|exact HY].
  split; [done|]. clear - HY HRW HM. nia.
Qed.

(** C2. With weights 50 / 30 / 20 and every maximum 100, a session with
    coding 80 in 1000 s, quiz 90 in 500 s and assessment 70 in 800 s weighs
    [40.0000], [27.0000] and [14.0000], for a total of [81.0000] in 2300 s:
    whatever the other fields of the three rows and the identity of the exam. *)
Theorem C2_concrete_scenario (ex : Z) (c q a : ModuleScore) :
  _calculate_weighted_score
    [with_score c "coding" 8000 1000; with_score q "quiz" 9000 500;
     with_score a "assessment" 7000 800]
    (mkExam ex 5000 3000 2000 10000 10000 10000)
  = Ok (mkWeighted (mkDec 400000 (-4)) (mkDec 270000 (-4)) (mkDec 140000 (-4))
          (mkDec 810000 (-4)) 2300).
Proof. vm_compute. reflexivity. Qed.

(** C3 (amended). For weights that are not negative and sum to 100, maximums
    that are positive, and the three modules submitted with a raw score between
    0 and the maximum: the calculator returns; each weighted score is
    [(raw / max) * weight] rounded to a nearest multiple of [10^-4] (at most
    [0.00005] away); [total_score] is the sum of the three rounded scores, at
    most [0.00015] away from the sum of the three exact ones; and it lies in
    [0, 100].  ([max_m] is the maximum of the exam, which the calculator
    divides by.) *)
Theorem C3_weighted_sum (rows : list ModuleScore) (exam : Exam)
    (row : module -> ModuleScore) :
  (forall m, scores_dict rows !! module_name m = Some (row m)) ->
  (forall m, 0 <= weight_of exam m) ->
  weight_of exam coding + weight_of exam quiz + weight_of exam assessment = 10000 ->
  (forall m, 0 < max_of exam m < 10 ^ 10) ->
  (forall m, 0 <= ms_raw_score (row m) <= max_of exam m) ->
  let exact m :=
    exact_weighted (ms_raw_score (row m)) (max_of exam m) (weight_of exam m) in
  exists Y : module -> Z,
    let total := mkDec (Y coding + Y quiz + Y assessment) (-4) in
    _calculate_weighted_score rows exam
    = Ok (mkWeighted (mkDec (Y coding) (-4)) (mkDec (Y quiz) (-4))
            (mkDec (Y assessment) (-4)) total
            (ms_time_spent_sec (row coding) + ms_time_spent_sec (row quiz)
             + ms_time_spent_sec (row assessment)))
    /\ (forall m, (Qabs (to_Q (mkDec (Y m) (-4)) - exact m) <= 1 # 20000)%Q)
    /\ (Qabs (to_Q total - (exact coding + exact quiz + exact assessment))
        <= 3 # 20000)%Q
    /\ (0 <= to_Q total <= 100)%Q.
Proof.
  intros Hrows HW Hsum HM HR exact.
  assert (HWb : forall m, 0 <= weight_of exam m <= 10000).
  { intros m. pose proof (HW coding). pose proof (HW quiz). pose proof (HW assessment).
    destruct m; simpl in *; lia. }
  destruct (module_weighted_valid exam _ coding _ (Hrows coding) (HWb _) (HM _) (HR _))
    as (yc & Hc & Hcb & Hce).
  destruct (module_weighted_valid exam _ quiz _ (Hrows quiz) (HWb _) (HM _) (HR _))
    as (yq & Hq & Hqb & Hqe).
  destruct (module_weighted_valid exam _ assessment _ (Hrows assessment) (HWb _) (HM _) (HR _))
    as (ya & Ha & Hab & Hae).
  exists (fun m => match m with coding => yc | quiz => yq | assessment => ya end).
  cbv zeta.
  assert (Hnear : forall m,
    (Qabs (numeric_Q 4 match m with coding => yc | quiz => yq | assessment => ya end
           - exact m) <= 1 # 20000)%Q).
  { intros m. unfold exact. destruct m; apply nearest_Q; try apply HM; assumption. }
  split; [|split; [|split]].
  - pose proof (HWb coding). pose proof (HWb quiz). pose proof (HWb assessment).
    rewrite (calc_of_modules rows exam yc yq ya _ _ _
               ltac:(lia) ltac:(lia) ltac:(lia) Hc Hq Ha).
    do 2 f_equal; lia.
  - intros m. rewrite to_Q_numeric. apply Hnear.
  - rewrite to_Q_numeric, !numeric_Q_plus.
    pose proof (Hnear coding) as H1. pose proof (Hnear quiz) as H2.
    pose proof (Hnear assessment) as H3.
    apply Qabs_Qle_condition in H1, H2, H3. apply Qabs_Qle_condition.
    destruct H1, H2, H3. split; lra.
  - rewrite to_Q_numeric. apply numeric_Q_bounds.
    simpl in Hsum. simpl in Hcb, Hqb, Hab. lia.
Qed.

(** C3, an instance: the exam of the tests and the scores 80, 90 and 70. *)
Lemma C3_weighted_sum_witness :
  exists Y : module -> Z,
    _calculate_weighted_score
      [with_score blank_score "coding" 8000 1000; with_score blank_score "quiz" 9000 500;
       with_score blank_score "assessment" 7000 800] exam_50_30_20
    = Ok (mkWeighted (mkDec (Y coding) (-4)) (mkDec (Y quiz) (-4))
            (mkDec (Y assessment) (-4)) (mkDec (Y coding + Y quiz + Y assessment) (-4))
            2300)
    /\ (0 <= to_Q (mkDec (Y coding + Y quiz + Y assessment) (-4)) <= 100)%Q.
Proof.
  destruct (C3_weighted_sum
    [with_score blank_score "coding" 8000 1000; with_score blank_score "quiz" 9000 500;
     with_score blank_score "assessment" 7000 800] exam_50_30_20
    (fun m => match m with
              | coding => with_score blank_score "coding" 8000 1000
              | quiz => with_score blank_score "quiz" 9000 500
              | assessment => with_score blank_score "assessment" 7000 800
              end)) as (Y & Hcalc & _ & _ & Hrange).
  - intros []; vm_compute; reflexivity.
  - intros []; simpl; lia.
  - reflexivity.
  - intros []; simpl; lia.
  - intros []; simpl; lia.
  - exists Y. split; [exact Hcalc | exact Hrange].
Defined.

(** C3 as stated fails: with weights 12.5 / 12.5 / 75 (they sum to 100),
    maximums 100 / 100 / 200 and a raw score of 0.01 in each module, the three
    weighted scores are [0.0013], [0.0013] and [0.0038] and [total_score] is
    [0.0064], while the exact sum is [0.00625]: they differ by [0.00015],
    more than one unit of the fourth digit, and [0.0064] is not [0.00625]
    rounded half-up to four digits ([0.0063]). *)
Lemma C3_counterexample :
  let rows := [with_score blank_score "coding" 1 10; with_score blank_score "quiz" 1 10;
               with_score blank_score "assessment" 1 10] in
  let exact :=
    (exact_weighted 1 10000 1250 + exact_weighted 1 10000 1250
     + exact_weighted 1 20000 7500)%Q in
  weight_of exam_uneven coding + weight_of exam_uneven quiz
    + weight_of exam_uneven assessment = 10000
  /\ _calculate_weighted_score rows exam_uneven
     = Ok (mkWeighted (mkDec 13 (-4)) (mkDec 13 (-4)) (mkDec 38 (-4)) (mkDec 64 (-4)) 30)
  /\ (exact == 625 # 100000)%Q
  /\ (to_Q (mkDec 64 (-4)) - exact == 3 # 20000)%Q
  /\ ~ (Qabs (to_Q (mkDec 64 (-4)) - exact) <= 1 # 10000)%Q
  /\ to_Q (mkDec 64 (-4)) <> to_Q (mkDec 63 (-4)).
Proof.
  cbv zeta. split_and!.
  - reflexivity.
  - vm_compute. reflexivity.
  - vm_compute. reflexivity.
  - vm_compute. reflexivity.
  - vm_compute. intros H. apply H. reflexivity.
  - vm_compute. discriminate.
Qed.

(** C4 (amended). A module without a row in the session weighs [0.0000] and
    adds no time; [total_time_sec] is the sum of [time_spent_sec] over the
    submitted modules whose maximum in the exam is positive (a submitted
    module whose maximum is 0 or less weighs [0.0000] and adds no time
    either); on values of the columns the calculator always returns; and a
    session with only coding submitted, 80 out of 100 with weight 50, gets
    [40.0000], [0.0000], [0.0000], a total of [40.0000] and the time of
    coding alone. *)
Theorem C4_missing_module_policy (rows : list ModuleScore) (exam : Exam) :
  (exam_in_range exam -> scores_in_range rows ->
   exists res, _calculate_weighted_score rows exam = Ok res)
  /\ (forall res, _calculate_weighted_score rows exam = Ok res ->
      (forall m, (forall ms, ms ∈ rows -> ms_module_type ms <> module_name m) ->
         weighted_of res m = mkDec 0 (-4) /\ counted_time exam rows m = 0)
      /\ (forall m ms, scores_dict rows !! module_name m = Some ms ->
         max_of exam m <= 0 ->
         weighted_of res m = mkDec 0 (-4) /\ counted_time exam rows m = 0)
      /\ (forall m ms, scores_dict rows !! module_name m = Some ms ->
         0 < max_of exam m -> counted_time exam rows m = ms_time_spent_sec ms)
      /\ w_total_time_sec res
         = counted_time exam rows coding + counted_time exam rows quiz
           + counted_time exam rows assessment)
  /\ (forall ms, rows = [ms] -> ms_module_type ms = "coding" ->
      ms_raw_score ms = 8000 -> weight_coding exam = 5000 ->
      max_score_coding exam = 10000 ->
      _calculate_weighted_score rows exam
      = Ok (mkWeighted (mkDec 400000 (-4)) (mkDec 0 (-4)) (mkDec 0 (-4))
              (mkDec 400000 (-4)) (ms_time_spent_sec ms))).
Proof.
  split_and!.
  - intros Hexam Hrows.
    destruct (calc_defined rows exam Hexam Hrows) as (c & q & a & tc & tq & ta & _ & _ & _ & H).
    eauto.
  - intros res Hres.
    apply calc_Ok in Hres as (tc & tq & ta & Hc & Hq & Ha & _ & Htime).
    assert (Hmw : forall m, exists t,
      module_weighted exam (scores_dict rows) m = Ok (weighted_of res m, t)).
    { intros []; eauto. }
    split_and!.
    + intros m Hm. apply scores_dict_None in Hm.
      destruct (Hmw m) as [t Ht]. rewrite module_weighted_absent in Ht by done.
      unfold counted_time. rewrite Hm. by inversion Ht.
    + intros m ms Hms Hmax. destruct (Hmw m) as [t Ht].
      rewrite (module_weighted_nonpos _ _ _ ms) in Ht by done.
      unfold counted_time, is_pos, max_map, Decimal_of_numeric. rewrite Hms. simpl coef.
      destruct (Z.ltb_spec 0 (max_of exam m)); [lia|]. by inversion Ht.
    + intros m ms Hms Hmax.
      unfold counted_time, is_pos, max_map, Decimal_of_numeric. rewrite Hms. simpl coef.
      destruct (Z.ltb_spec 0 (max_of exam m)); [done|lia].
    + apply module_weighted_time in Hc, Hq, Ha. lia.
  - intros ms -> Htype Hraw Hweight Hmax.
    assert (Hdict : scores_dict [ms] = <["coding" := ms]> ∅).
    { unfold scores_dict. simpl. by rewrite Htype. }
    assert (Hc : module_weighted exam (scores_dict [ms]) coding
                 = Ok (mkDec 400000 (-4), ms_time_spent_sec ms)).
    { apply module_weighted_Some.
      - rewrite Hdict. apply lookup_insert_eq.
      - simpl. rewrite Hmax. lia.
      - simpl max_of. simpl weight_of. rewrite Hraw, Hweight, Hmax.
        vm_compute. reflexivity. }
    assert (Hq : module_weighted exam (scores_dict [ms]) quiz = Ok (mkDec 0 (-4), 0)).
    { apply module_weighted_absent. rewrite Hdict. done. }
    assert (Ha : module_weighted exam (scores_dict [ms]) assessment = Ok (mkDec 0 (-4), 0)).
    { apply module_weighted_absent. rewrite Hdict. done. }
    rewrite (calc_of_modules [ms] exam 400000 0 0 _ _ _ ltac:(simpl; lia)
               ltac:(simpl; lia) ltac:(simpl; lia) Hc Hq Ha).
    do 2 f_equal; lia.
Qed.

(** C4, an instance: only coding submitted, in 1234 s. *)
Lemma C4_missing_module_policy_witness :
  _calculate_weighted_score [with_score blank_score "coding" 8000 1234] exam_50_30_20
  = Ok (mkWeighted (mkDec 400000 (-4)) (mkDec 0 (-4)) (mkDec 0 (-4))
          (mkDec 400000 (-4)) 1234)
  /\ counted_time exam_50_30_20 [with_score blank_score "coding" 8000 1234] quiz = 0.
Proof.
  destruct (C4_missing_module_policy [with_score blank_score "coding" 8000 1234]
              exam_50_30_20) as (_ & Hres & Honly).
  assert (Hcalc := Honly _ eq_refl eq_refl eq_refl eq_refl eq_refl).
  split; [exact Hcalc|].
  destruct (Hres _ Hcalc) as (Habsent & _).
  apply (Habsent quiz).
  intros ms Hms. apply list_elem_of_singleton in Hms. subst. discriminate.
Defined.

(** C4 as stated fails: when the maximum of the exam for coding is 0, a
    submitted coding row with 1000 s adds nothing to [total_time_sec], which
    is 0 while the time of the submitted modules is 1000. *)
Lemma C4_counterexample :
  let rows := [with_score blank_score "coding" 0 1000] in
  _calculate_weighted_score rows exam_no_coding
  = Ok (mkWeighted (mkDec 0 (-4)) (mkDec 0 (-4)) (mkDec 0 (-4)) (mkDec 0 (-4)) 0)
  /\ submitted_time rows coding + submitted_time rows quiz
     + submitted_time rows assessment = 1000.
Proof. split; vm_compute; reflexivity. Qed.

End CalculatorClaims.

(* ====================================================================== *)
(** * Dense ranking *)
(* ====================================================================== *)

Section DenseRank.

Implicit Types (K : gset (Z * Z)) (k : Z * Z).

Lemma precedes_trichotomy k1 k2 : precedes k1 k2 \/ k1 = k2 \/ precedes k2 k1.
Proof.
  destruct k1 as [s1 t1], k2 as [s2 t2]. unfold precedes. simpl.
  destruct (Z.lt_trichotomy s1 s2) as [?|[?|?]];
    destruct (Z.lt_trichotomy t1 t2) as [?|[?|?]]; subst; auto; try lia.
Qed.

Lemma precedes_irrefl k : ~ precedes k k.
Proof. unfold precedes. lia. Qed.

Lemma not_after_precedes_trans k k1 k2 :
  not_after k k1 -> precedes k1 k2 -> not_after k k2.
Proof. unfold not_after, precedes. lia. Qed.

Lemma not_after_iff k1 k2 : not_after k1 k2 <-> (k1 = k2 \/ precedes k1 k2).
Proof.
  destruct k1 as [s1 t1], k2 as [s2 t2]. unfold not_after, precedes. simpl.
  split.
  - intros [?|[? ?]]; [auto|].
    destruct (decide (t1 = t2)); [left; congruence | right; lia].
  - intros [Heq|?]; [inversion Heq; lia | lia].
Qed.

Lemma rank_of_lt K k1 k2 :
  k2 ∈ K -> precedes k1 k2 -> rank_of K k1 < rank_of K k2.
Proof.
  intros Hin Hlt. unfold rank_of. apply inj_lt, subset_size.
  split.
  - intros k. rewrite !elem_of_filter. intros [? ?]; split; [|done].
    eauto using not_after_precedes_trans.
  - intros Hsub. specialize (Hsub k2). rewrite !elem_of_filter in Hsub.
    destruct Hsub as [Hk _].
    + split; [|done]. apply not_after_iff. by left.
    + unfold not_after, precedes in *. lia.
Qed.

Lemma rank_of_pos K k : k ∈ K -> 1 <= rank_of K k.
Proof.
  intros Hin. unfold rank_of.
  assert (size (filter (fun k' => not_after k' k) K) ≠ 0%nat); [|lia].
  apply size_non_empty_iff. intros He.
  assert (k ∈ filter (fun k' => not_after k' k) K) as Hk.
  { apply elem_of_filter. split; [|done]. apply not_after_iff. by left. }
  rewrite He in Hk. set_solver.
Qed.

Lemma rank_of_first K k :
  k ∈ K -> (forall k', k' ∈ K -> ~ precedes k' k) -> rank_of K k = 1.
Proof.
  intros Hin Hfirst. unfold rank_of.
  replace (filter (fun k' => not_after k' k) K) with ({[k]} : gset (Z * Z)).
  { by rewrite size_singleton. }
  apply set_eq. intros k'. rewrite elem_of_filter, elem_of_singleton, not_after_iff.
  split; [intros ->; auto|]. intros [[?|?] ?]; [done|]. by destruct (Hfirst k').
Qed.

Lemma rank_of_succ K k1 k2 :
  k1 ∈ K -> k2 ∈ K -> precedes k1 k2 ->
  (forall k, k ∈ K -> ~ (precedes k1 k /\ precedes k k2)) ->
  rank_of K k2 = rank_of K k1 + 1.
Proof.
  intros H1 H2 Hlt Hadj. unfold rank_of.
  replace (filter (fun k' => not_after k' k2) K)
    with (filter (fun k' => not_after k' k1) K ∪ {[k2]}).
  { rewrite size_union, size_singleton; [lia|].
    intros k. rewrite elem_of_filter, elem_of_singleton. intros [Hk _] ->.
    unfold not_after, precedes in *. lia. }
  apply set_eq. intros k.
  rewrite elem_of_union, !elem_of_filter, elem_of_singleton.
  split.
  - intros [[Hk Hin]| ->].
    + split; [|done]. eauto using not_after_precedes_trans.
    + split; [|done]. apply not_after_iff. by left.
  - intros [Hk Hin]. apply not_after_iff in Hk as [->|Hk]; [by right|].
    left. split; [|done]. apply not_after_iff.
    destruct (precedes_trichotomy k k1) as [?|[?|?]]; [by right|by left|].
    by destruct (Hadj k Hin).
Qed.

Lemma rank_of_inj K k1 k2 :
  k1 ∈ K -> k2 ∈ K -> rank_of K k1 = rank_of K k2 -> k1 = k2.
Proof.
  intros H1 H2 Heq.
  destruct (precedes_trichotomy k1 k2) as [Hlt|[?|Hlt]]; [|done|].
  - pose proof (rank_of_lt K k1 k2 H2 Hlt). lia.
  - pose proof (rank_of_lt K k2 k1 H1 Hlt). lia.
Qed.

Lemma size_set_map_inj (f : Z * Z -> Z) K :
  (forall k1 k2, k1 ∈ K -> k2 ∈ K -> f k1 = f k2 -> k1 = k2) ->
  size (set_map f K : gset Z) = size K.
Proof.
  induction K as [|k K Hk IH] using set_ind_L; intros Hinj.
  - by rewrite set_map_empty, !size_empty.
  - rewrite set_map_union_L, set_map_singleton_L.
    rewrite !size_union, !size_singleton.
    + rewrite IH; [done|]. intros. apply Hinj; set_solver.
    + set_solver.
    + intros x. rewrite elem_of_singleton, elem_of_map.
      intros -> (k' & Hf & Hk'). apply Hk.
      assert (k = k') as -> by (apply Hinj; set_solver). done.
Qed.

End DenseRank.

Section RefreshRanks.

Lemma update_ranks_fst tbl e :
  (update_ranks tbl e).1 = refresh_row (ranked tbl e) e <$> tbl.
Proof. reflexivity. Qed.

Lemma refresh_row_exam rk e lb : lb_exam_id (refresh_row rk e lb) = lb_exam_id lb.
Proof. unfold refresh_row. repeat case_match; done. Qed.

Lemma refresh_row_id rk e lb : lb_snapshot_id (refresh_row rk e lb) = lb_snapshot_id lb.
Proof. unfold refresh_row. repeat case_match; done. Qed.

Lemma refresh_row_key rk e lb : rank_key (refresh_row rk e lb) = rank_key lb.
Proof. unfold refresh_row. repeat case_match; done. Qed.

Lemma join_ranked_id rk lb lb' :
  lb_snapshot_id lb' = lb_snapshot_id lb -> join_ranked rk lb' = join_ranked rk lb.
Proof. unfold join_ranked. by intros ->. Qed.

Lemma entries_refreshed rk e (tbl : list LeaderboardSnapshot) :
  entries_of (refresh_row rk e <$> tbl) e = refresh_row rk e <$> entries_of tbl e.
Proof.
  unfold entries_of. rewrite filter_fmap_list. f_equal. apply list_filter_iff.
  intros x. by rewrite refresh_row_exam.
Qed.

Lemma keys_refreshed rk e (l : list LeaderboardSnapshot) :
  rank_key <$> (refresh_row rk e <$> l) = rank_key <$> l.
Proof.
  rewrite <- list_fmap_compose. apply list_fmap_ext.
  intros ? x _. simpl. apply refresh_row_key.
Qed.

Lemma dense_rank_refreshed rk e (part : list LeaderboardSnapshot) r :
  dense_rank (refresh_row rk e <$> part) (refresh_row rk e r) = dense_rank part r.
Proof. unfold dense_rank. by rewrite keys_refreshed, refresh_row_key. Qed.

Lemma ranked_refreshed tbl e :
  ranked (refresh_row (ranked tbl e) e <$> tbl) e = ranked tbl e.
Proof.
  unfold ranked at 1 3. rewrite entries_refreshed.
  rewrite <- list_fmap_compose. apply list_fmap_ext. intros ? r _. simpl.
  by rewrite refresh_row_id, dense_rank_refreshed.
Qed.

Lemma refresh_row_idem rk e lb :
  refresh_row rk e (refresh_row rk e lb) = refresh_row rk e lb.
Proof.
  unfold refresh_row at 1. rewrite refresh_row_exam.
  rewrite (join_ranked_id rk lb) by apply refresh_row_id.
  unfold refresh_row. destruct (decide (lb_exam_id lb = e)); [|done].
  destruct (join_ranked rk lb); done.
Qed.

Lemma update_ranks_idem tbl e :
  update_ranks (update_ranks tbl e).1 e = update_ranks tbl e.
Proof.
  rewrite update_ranks_fst. unfold update_ranks at 1 2.
  rewrite ranked_refreshed. f_equal.
  - rewrite <- list_fmap_compose. apply list_fmap_ext. intros ? lb _.
    apply refresh_row_idem.
  - f_equal. rewrite filter_fmap_list, length_fmap. f_equal.
    apply list_filter_iff. intros lb.
    rewrite refresh_row_exam.
    by rewrite (join_ranked_id _ lb) by apply refresh_row_id.
Qed.

(** With [snapshot_id] a primary key, the join pairs each entry of the exam
    with its own dense rank. *)
Lemma head_filter_own {A : Type} (id h : A -> Z) (l : list A) (x : A) :
  NoDup (id <$> l) -> x ∈ l ->
  head (filter (fun p : Z * Z => p.1 = id x) ((fun r => (id r, h r)) <$> l))
  = Some (id x, h x).
Proof.
  induction l as [|a l IH]; intros Hnd Hin; [by apply elem_of_nil in Hin|].
  rewrite fmap_cons in Hnd. apply NoDup_cons in Hnd as [Hna Hnd].
  rewrite fmap_cons, filter_cons. simpl.
  destruct (decide (id a = id x)) as [Heq|Hne].
  - apply elem_of_cons in Hin as [->|Hin]; [done|].
    destruct Hna. rewrite Heq. by apply list_elem_of_fmap_2.
  - apply elem_of_cons in Hin as [->|Hin]; [done|]. by apply IH.
Qed.

Lemma join_ranked_own tbl e lb :
  NoDup (lb_snapshot_id <$> tbl) -> lb ∈ entries_of tbl e ->
  join_ranked (ranked tbl e) lb = Some (dense_rank (entries_of tbl e) lb).
Proof.
  intros Hnd Hin. unfold join_ranked, ranked.
  rewrite (head_filter_own lb_snapshot_id); [done| |done].
  eapply sublist_NoDup; [exact Hnd|]. apply fmap_sublist, sublist_filter.
Qed.

Lemma refreshed_rank_position tbl e lb :
  NoDup (lb_snapshot_id <$> tbl) -> lb ∈ entries_of tbl e ->
  lb_rank_position (refresh_row (ranked tbl e) e lb) = dense_rank (entries_of tbl e) lb.
Proof.
  intros Hnd Hin. unfold refresh_row.
  rewrite decide_True by (by apply list_elem_of_filter in Hin as [? _]).
  by rewrite join_ranked_own.
Qed.

Lemma update_ranks_dense_ranked tbl e :
  NoDup (lb_snapshot_id <$> tbl) -> dense_ranked (update_ranks tbl e).1 e.
Proof.
  intros Hnd r Hr. rewrite update_ranks_fst, entries_refreshed in *.
  apply list_elem_of_fmap in Hr as (lb & -> & Hlb).
  rewrite dense_rank_refreshed. by apply refreshed_rank_position.
Qed.

Lemma key_in_partition (part : list LeaderboardSnapshot) r :
  r ∈ part -> rank_key r ∈ (list_to_set (rank_key <$> part) : gset (Z * Z)).
Proof. intros. apply elem_of_list_to_set, list_elem_of_fmap_2. done. Qed.

(** A dense-ranked table has the properties the specification asks for. *)
Lemma dense_ranked_properties tbl e :
  dense_ranked tbl e -> dense_rank_properties tbl e.
Proof.
  intros Hdr. unfold dense_rank_properties. set (part := entries_of tbl e).
  assert (Hrank : forall r, r ∈ part ->
    lb_rank_position r = rank_of (list_to_set (rank_key <$> part)) (rank_key r)).
  { intros r Hr. by rewrite (Hdr r Hr). }
  assert (Hkeys : forall k, k ∈ (list_to_set (rank_key <$> part) : gset (Z * Z)) ->
    exists c, c ∈ part /\ rank_key c = k).
  { intros k Hk. apply elem_of_list_to_set, list_elem_of_fmap in Hk as (c & -> & Hc).
    eauto. }
  split_and!.
  - intros a b Ha Hb Hk. rewrite (Hrank a Ha), (Hrank b Hb). by rewrite Hk.
  - intros a b Ha Hb Hlt Hadj. rewrite (Hrank a Ha), (Hrank b Hb).
    apply rank_of_succ; auto using key_in_partition.
    intros k Hk. apply Hkeys in Hk as (c & Hc & <-). by apply Hadj.
  - intros a Ha Hfirst. rewrite (Hrank a Ha).
    apply rank_of_first; auto using key_in_partition.
    intros k Hk. apply Hkeys in Hk as (c & Hc & <-). by apply Hfirst.
  - rewrite <- (size_set_map_inj (rank_of (list_to_set (rank_key <$> part)))).
    + f_equal. apply set_eq. intros x.
      rewrite elem_of_list_to_set, list_elem_of_fmap, elem_of_map.
      split.
      * intros (r & -> & Hr). exists (rank_key r).
        split; [by apply Hrank | by apply key_in_partition].
      * intros (k & -> & Hk). apply Hkeys in Hk as (c & Hc & <-).
        exists c. split; [symmetry; by apply Hrank | done].
    + intros k1 k2. apply rank_of_inj.
  - intros a b Ha Hb Hs Ht. rewrite (Hrank a Ha), (Hrank b Hb).
    apply Z.lt_le_incl, rank_of_lt; [by apply key_in_partition|].
    right. unfold rank_key. simpl. done.
Qed.

End RefreshRanks.

(* ====================================================================== *)
(** * The submission pipeline: attempts and retries *)
(* ====================================================================== *)

Section Pipeline.

Lemma storage_call_fault ft op :
  f_at ft = op -> storage_call (Some ft) op = Raise (f_exn ft).
Proof. intros <-. unfold storage_call. by rewrite decide_True. Qed.

Lemma storage_call_other ft op :
  f_at ft <> op -> storage_call (Some ft) op = Ok ().
Proof. intros H. unfold storage_call. by rewrite decide_False. Qed.

Lemma storage_call_Raise f op e :
  storage_call f op = Raise e -> exists ft, f = Some ft /\ f_at ft = op /\ f_exn ft = e.
Proof.
  unfold storage_call. destruct f as [ft|]; [|done].
  destruct (decide (f_at ft = op)); [|done]. intros [= <-]. eauto.
Qed.

(** The statement of step 1 has a row exactly when the session has one. *)
Lemma select_session_joined_nil db sid :
  select_session_joined db sid = []
  <-> filter (fun s => es_session_id s = sid) (exam_sessions db) = [].
Proof.
  unfold select_session_joined.
  destruct (filter (fun s => es_session_id s = sid) (exam_sessions db)) as [|s l];
    [done|].
  split; [|done]. rewrite bind_cons.
  destruct (session_module_scores db s); discriminate.
Qed.

(** What step 1 raises when the storage layer lets the query through. *)
Lemma scalar_one_joined_raises db sid :
  scalar_one_joined (select_session_joined db sid)
  = if decide (filter (fun s => es_session_id s = sid) (exam_sessions db) = [])
    then Raise NoResultFound else Raise InvalidRequestError.
Proof.
  pose proof (select_session_joined_nil db sid) as Hnil.
  destruct (select_session_joined db sid) as [|row rows].
  - by rewrite decide_True by (by apply Hnil).
  - rewrite decide_False; [done|]. intros H. by apply Hnil in H.
Qed.

(** No unit of work gets past step 1. *)
Lemma unit_of_work_raises f now db sub :
  unit_of_work f now db sub
  = (_ ← storage_call f OpLockSession;
     if decide (filter (fun s => es_session_id s = session_id sub) (exam_sessions db) = [])
     then Raise NoResultFound else Raise InvalidRequestError).
Proof.
  unfold unit_of_work. rewrite scalar_one_joined_raises.
  destruct (storage_call f OpLockSession); [|done]. cbn [mbind result_bind].
  by destruct (decide _).
Qed.

(** So every attempt raises, and leaves the database and the cache alone. *)
Lemma attempt_raises f now db cache sub :
  _atomic_score_update f now db cache sub
  = (db, cache,
     _ ← storage_call f OpLockSession;
     if decide (filter (fun s => es_session_id s = session_id sub) (exam_sessions db) = [])
     then Raise NoResultFound else Raise InvalidRequestError).
Proof.
  unfold _atomic_score_update. rewrite unit_of_work_raises.
  destruct (storage_call f OpLockSession); cbn [mbind result_bind]; [|done].
  by destruct (decide _).
Qed.

Lemma attempt_Raise f now db cache sub :
  exists e,
    _atomic_score_update f now db cache sub = (db, cache, Raise e)
    /\ (e = NoResultFound \/ e = InvalidRequestError
        \/ exists ft, f = Some ft /\ f_at ft = OpLockSession /\ f_exn ft = e).
Proof.
  rewrite attempt_raises.
  destruct (storage_call f OpLockSession) as [[]|e] eqn:Hcall; cbn [mbind result_bind].
  - destruct (decide _); eexists; (split; [reflexivity|]); auto.
  - exists e. split; [done|]. right. right. by apply storage_call_Raise.
Qed.

(** The loop of [submit_module_score], one iteration at a time. *)
Lemma retry_loop_retry env a rest made db cache sub db' cache' r :
  attempt env a db cache sub = (db', cache', r) ->
  operational r ->
  a <> MAX_RETRIES ->
  retry_loop env (a :: rest) made db cache sub
  = retry_loop env rest (S made) db' cache' sub.
Proof.
  intros Ha Hop Hne. unfold attempt in Ha. cbn [retry_loop]. rewrite Ha.
  destruct r as [entry|[]]; try done. by rewrite decide_False.
Qed.

Lemma retry_loop_exhausted env rest made db cache sub db' cache' r :
  attempt env MAX_RETRIES db cache sub = (db', cache', r) ->
  operational r ->
  retry_loop env (MAX_RETRIES :: rest) made db cache sub
  = mkOutcome db' cache' (Raise RuntimeError) (S made).
Proof.
  intros Ha Hop. unfold attempt in Ha. cbn [retry_loop]. rewrite Ha.
  destruct r as [entry|[]]; try done.
Qed.

Lemma retry_loop_done env a rest made db cache sub db' cache' r :
  attempt env a db cache sub = (db', cache', r) ->
  ~ operational r ->
  retry_loop env (a :: rest) made db cache sub
  = mkOutcome db' cache' (returned r) (S made).
Proof.
  intros Ha Hne. unfold attempt in Ha. cbn [retry_loop]. rewrite Ha.
  destruct r as [entry|e]; [done|]. destruct e; done.
Qed.

Lemma retry_loop_attempts env attempts made db cache sub :
  (out_attempts (retry_loop env attempts made db cache sub) <= made + length attempts)%nat.
Proof.
  revert made db cache. induction attempts as [|a rest IH]; intros made db cache.
  - simpl. lia.
  - cbn [retry_loop length].
    destruct (_atomic_score_update _ _ _ _ _) as [[db' cache'] [entry|e]]; [simpl; lia|].
    destruct e; try (simpl; lia).
    destruct (decide (a = MAX_RETRIES)); [simpl; lia|].
    etrans; [apply IH|]. lia.
Qed.

Lemma submit_valid env db cache sub :
  module_type sub ∈ _VALID_MODULES ->
  submit_module_score env db cache sub
  = retry_loop env [1; 2; 3]%nat 0 db cache sub.
Proof.
  intros Hv. unfold submit_module_score, _validate_module_type.
  by rewrite decide_True.
Qed.

(** The loop commits nothing. *)
Lemma retry_loop_state env attempts made db cache sub :
  out_db (retry_loop env attempts made db cache sub) = db
  /\ out_cache (retry_loop env attempts made db cache sub) = cache.
Proof.
  revert made. induction attempts as [|a rest IH]; intros made; [done|].
  cbn [retry_loop].
  destruct (attempt_Raise (faults env a) (clock env a) db cache sub) as (e & -> & _).
  destruct e; try done.
  destruct (decide (a = MAX_RETRIES)); [done|apply IH].
Qed.

(** The loop returns nothing, unless it runs out of attempts before the
    attempt numbered [MAX_RETRIES]. *)
Lemma retry_loop_Ok env attempts made db cache sub r :
  out_result (retry_loop env attempts made db cache sub) = Ok r ->
  r = None /\ MAX_RETRIES ∉ attempts.
Proof.
  revert made. induction attempts as [|a rest IH]; intros made.
  - intros [= <-]. split; [done|apply not_elem_of_nil].
  - cbn [retry_loop].
    destruct (attempt_Raise (faults env a) (clock env a) db cache sub) as (e & -> & _).
    destruct e; try done.
    destruct (decide (a = MAX_RETRIES)); [done|].
    intros H. apply IH in H as [-> Hn]. split; [done|].
    apply not_elem_of_cons. split; [congruence|done].
Qed.

(** The exceptions of the loop. *)
Lemma retry_loop_Raise env sub attempts made db cache e :
  out_result (retry_loop env attempts made db cache sub) = Raise e ->
  e = RuntimeError
  \/ (~ operational (Raise e : result unit)
      /\ (e = NoResultFound \/ e = InvalidRequestError
          \/ exists k ft, faults env k = Some ft /\ f_exn ft = e)).
Proof.
  revert made. induction attempts as [|k rest IH]; intros made; [done|].
  cbn [retry_loop].
  destruct (attempt_Raise (faults env k) (clock env k) db cache sub) as (e1 & -> & He1).
  assert (Hfrom : e1 = NoResultFound \/ e1 = InvalidRequestError
                  \/ exists k ft, faults env k = Some ft /\ f_exn ft = e1).
  { destruct He1 as [?|[?|(ft & ? & _ & ?)]]; eauto 6. }
  destruct e1; try (intros [= <-]; right; split; [by intros []|done]).
  destruct (decide (k = MAX_RETRIES)); [intros [= <-]; by left|apply IH].
Qed.

Lemma retry_loop_RuntimeError env sub attempts made db cache :
  (forall k ft, faults env k = Some ft -> f_exn ft <> RuntimeError) ->
  out_result (retry_loop env attempts made db cache sub) = Raise RuntimeError ->
  exists pre post,
    attempts = pre ++ (MAX_RETRIES :: post) /\ (MAX_RETRIES ∉ pre)
    /\ out_attempts (retry_loop env attempts made db cache sub)
       = (made + length pre + 1)%nat.
Proof.
  intros Hf. revert made.
  induction attempts as [|k rest IH]; intros made; [done|].
  cbn [retry_loop].
  destruct (attempt_Raise (faults env k) (clock env k) db cache sub) as (e1 & -> & He1).
  destruct e1; try done.
  - intros _. destruct He1 as [?|[?|(ft & Hft & _ & Hexn)]]; [done|done|].
    by destruct (Hf k ft Hft).
  - destruct (decide (k = MAX_RETRIES)) as [->|Hk].
    + intros _. exists [], rest. split_and!; [done|apply not_elem_of_nil|simpl; lia].
    + intros H. apply IH in H as (pre & post & -> & Hpre & Hn).
      exists (k :: pre), post. split_and!; [done| |simpl; rewrite Hn; simpl; lia].
      apply not_elem_of_cons. split; [congruence|done].
Qed.

Lemma submit_RuntimeError env db cache sub :
  (forall k ft, faults env k = Some ft -> f_exn ft <> RuntimeError) ->
  out_result (submit_module_score env db cache sub) = Raise RuntimeError ->
  out_attempts (submit_module_score env db cache sub) = MAX_RETRIES.
Proof.
  intros Hf. unfold submit_module_score.
  destruct (_validate_module_type _) as [[]|e] eqn:Hv.
  - intros H. apply retry_loop_RuntimeError in H as (pre & post & Heq & Hpre & ->);
      [|done].
    change (seq 1 MAX_RETRIES) with [1; 2; 3]%nat in Heq. unfold MAX_RETRIES in *.
    destruct pre as [|a [|b [|c pre]]]; simpl in Heq.
    + discriminate Heq.
    + by simplify_eq.
    + done.
    + simplify_eq. by destruct pre.
  - unfold _validate_module_type in Hv. destruct (decide _); [done|].
    injection Hv as <-. done.
Qed.

Lemma submit_Raise env db cache sub e :
  module_type sub ∈ _VALID_MODULES ->
  out_result (submit_module_score env db cache sub) = Raise e ->
  e = RuntimeError
  \/ (~ operational (Raise e : result unit)
      /\ (e = NoResultFound \/ e = InvalidRequestError
          \/ exists k ft, faults env k = Some ft /\ f_exn ft = e)).
Proof. intros Hv. rewrite (submit_valid env db cache sub Hv). apply retry_loop_Raise. Qed.

(** A call commits nothing and returns nothing. *)
Lemma submit_state env db cache sub :
  out_db (submit_module_score env db cache sub) = db
  /\ out_cache (submit_module_score env db cache sub) = cache.
Proof.
  unfold submit_module_score. destruct (_validate_module_type _); [|done].
  apply retry_loop_state.
Qed.

Lemma submit_not_Ok env db cache sub r :
  out_result (submit_module_score env db cache sub) <> Ok r.
Proof.
  unfold submit_module_score. destruct (_validate_module_type _); [|done].
  intros H. apply retry_loop_Ok in H as [_ Hn]. apply Hn.
  change (seq 1 MAX_RETRIES) with [1; 2; 3]%nat. unfold MAX_RETRIES.
  repeat first [apply list_elem_of_here | apply list_elem_of_further].
Qed.

(** The first attempt, on a storage layer that lets the first query
    through. *)
Lemma first_attempt env db cache sub :
  (forall ft, faults env 1%nat = Some ft -> f_at ft <> OpLockSession) ->
  attempt env 1 db cache sub
  = (db, cache,
     if decide (filter (fun s => es_session_id s = session_id sub) (exam_sessions db) = [])
     then Raise NoResultFound else Raise InvalidRequestError).
Proof.
  intros Hfault. unfold attempt. rewrite attempt_raises.
  assert (Hcall : storage_call (faults env 1%nat) OpLockSession = Ok ()).
  { destruct (faults env 1%nat) as [ft|]; [|done].
    apply storage_call_other. by apply Hfault. }
  by rewrite Hcall.
Qed.

(** A submission for a session that does not exist. *)
Lemma submit_unknown_session env db cache sub :
  module_type sub ∈ _VALID_MODULES ->
  filter (fun s => es_session_id s = session_id sub) (exam_sessions db) = [] ->
  (forall ft, faults env 1%nat = Some ft -> f_at ft <> OpLockSession) ->
  submit_module_score env db cache sub = mkOutcome db cache (Raise NoResultFound) 1.
Proof.
  intros Hv Hnone Hfault. rewrite (submit_valid env db cache sub Hv).
  apply (retry_loop_done env 1%nat [2; 3]%nat 0 db cache sub db cache (Raise NoResultFound));
    [|by intros []].
  rewrite (first_attempt env db cache sub Hfault). by rewrite decide_True.
Qed.

(** A submission for a session that exists. *)
Lemma submit_known_session env db cache sub :
  module_type sub ∈ _VALID_MODULES ->
  filter (fun s => es_session_id s = session_id sub) (exam_sessions db) <> [] ->
  (forall ft, faults env 1%nat = Some ft -> f_at ft <> OpLockSession) ->
  submit_module_score env db cache sub
  = mkOutcome db cache (Raise InvalidRequestError) 1.
Proof.
  intros Hv Hsome Hfault. rewrite (submit_valid env db cache sub Hv).
  apply (retry_loop_done env 1%nat [2; 3]%nat 0 db cache sub db cache
           (Raise InvalidRequestError)); [|by intros []].
  rewrite (first_attempt env db cache sub Hfault). by rewrite decide_False.
Qed.

Lemma schema_valid_module_type sub :
  SubmitScoreSchema_valid sub = true -> module_type sub ∈ _VALID_MODULES.
Proof.
  unfold SubmitScoreSchema_valid. intros H.
  repeat (apply andb_prop in H as [H _]). by apply bool_decide_eq_true in H.
Qed.

End Pipeline.

(* ====================================================================== *)
(** * Tables and rows *)
(* ====================================================================== *)

Section PipelineState.

Lemma refresh_ranks_tables db e :
  exams (_refresh_ranks db e).1 = exams db /\
  exam_sessions (_refresh_ranks db e).1 = exam_sessions db /\
  module_scores (_refresh_ranks db e).1 = module_scores db /\
  score_audit_log (_refresh_ranks db e).1 = score_audit_log db /\
  leaderboard_snapshot (_refresh_ranks db e).1
  = (update_ranks (leaderboard_snapshot db) e).1.
Proof. done. Qed.

(** The dict of the rows after a function that keeps module types. *)
Lemma scores_dict_fmap (g : ModuleScore -> ModuleScore) (rows : list ModuleScore) k :
  (forall r, ms_module_type (g r) = ms_module_type r) ->
  scores_dict (g <$> rows) !! k = g <$> (scores_dict rows !! k).
Proof.
  intros Hg. unfold scores_dict.
  assert (Hgen : forall (acc acc' : gmap string ModuleScore),
    acc' !! k = g <$> (acc !! k) ->
    foldl (fun d ms => <[ms_module_type ms := ms]> d) acc' (g <$> rows) !! k
    = g <$> (foldl (fun d ms => <[ms_module_type ms := ms]> d) acc rows !! k)).
  { induction rows as [|r rows IH]; intros acc acc' Hacc; [done|].
    simpl. apply IH. rewrite Hg.
    destruct (decide (ms_module_type r = k)) as [<-|Hne].
    - by rewrite !lookup_insert_eq.
    - by rewrite !lookup_insert_ne. }
  apply Hgen. by rewrite !lookup_empty.
Qed.

(** The weighted scores depend on the raw scores of the rows only. *)
Lemma module_weighted_same_raw exam (scores scores' : gmap string ModuleScore) m w t w' t' :
  match scores !! module_name m, scores' !! module_name m with
  | Some a, Some b => ms_raw_score a = ms_raw_score b
  | None, None => True
  | _, _ => False
  end ->
  module_weighted exam scores m = Ok (w, t) ->
  module_weighted exam scores' m = Ok (w', t') ->
  w = w'.
Proof.
  unfold module_weighted.
  destruct (scores !! module_name m) as [a|], (scores' !! module_name m) as [b|];
    try done.
  - intros Hraw. rewrite Hraw.
    destruct (is_pos (max_map exam m)); [|by intros [= <- _] [= <- _]].
    intros H H'.
    apply bind_Ok in H as (n & Hn & H). apply bind_Ok in H' as (n' & Hn' & H').
    rewrite Hn in Hn'. inversion Hn'; subst.
    apply bind_Ok in H as (x & Hx & H). apply bind_Ok in H' as (x' & Hx' & H').
    rewrite Hx in Hx'. inversion Hx'; subst.
    inversion H; inversion H'; by subst.
  - by intros _ [= <- _] [= <- _].
Qed.

End PipelineState.

(* ====================================================================== *)
(** * Ranks: the claims *)
(* ====================================================================== *)

Section RankClaims.

(** C1. After [_refresh_ranks] for an exam, run alone
    ([recalculate_all_ranks]) or inside a submission that returns, the
    [rank_position] of every entry of that exam is the dense rank of its
    [(total_score, total_time_sec)] under [total_score] descending, then
    [total_time_sec] ascending: equal pairs share a rank, the next distinct
    pair has the previous rank plus one (the first has rank 1), there are as
    many distinct ranks as distinct pairs, and of two entries with the same
    score the faster one does not rank after the slower one.
    ([snapshot_id] is the primary key of the table.) *)
Theorem C1_dense_rank :
  (forall db e,
     NoDup (lb_snapshot_id <$> leaderboard_snapshot db) ->
     let tbl := leaderboard_snapshot (recalculate_all_ranks db e).1 in
     dense_ranked tbl e /\ dense_rank_properties tbl e)
  /\ (forall f now db cache sub db' cache' entry,
     NoDup (lb_snapshot_id <$> leaderboard_snapshot db) ->
     _atomic_score_update f now db cache sub = (db', cache', Ok entry) ->
     dense_ranked (leaderboard_snapshot db') (lb_exam_id entry)
     /\ dense_rank_properties (leaderboard_snapshot db') (lb_exam_id entry)).
Proof.
  split.
  - intros db e Hnd tbl.
    assert (Hdr : dense_ranked tbl e) by (by apply update_ranks_dense_ranked).
    split; [exact Hdr | by apply dense_ranked_properties].
  - intros f now db cache sub db' cache' entry Hnd H.
    destruct (attempt_Raise f now db cache sub) as (e & He & _).
    rewrite He in H. discriminate H.
Qed.

(** C1, an instance: the ranks of a leaderboard with a tie. *)
Lemma C1_dense_rank_witness :
  NoDup (lb_snapshot_id <$> leaderboard_snapshot db_unranked)
  /\ dense_rank_properties (leaderboard_snapshot (recalculate_all_ranks db_unranked 1).1) 1
  /\ lb_rank_position <$> leaderboard_snapshot (recalculate_all_ranks db_unranked 1).1
     = [2; 1; 3; 0; 1].
Proof.
  assert (Hnd : NoDup (lb_snapshot_id <$> leaderboard_snapshot db_unranked)).
  { apply (bool_decide_unpack _). vm_compute. exact I. }
  split; [exact Hnd|]. split.
  - apply (proj1 C1_dense_rank db_unranked 1 Hnd).
  - vm_compute. reflexivity.
Defined.

(** C9. [_refresh_ranks] is idempotent: a second run right after a first one
    leaves every row of every table as the first run left it, and reports the
    same number of rows. *)
Theorem C9_refresh_idempotent (db : DB) (e : Z) :
  _refresh_ranks (_refresh_ranks db e).1 e = _refresh_ranks db e
  /\ recalculate_all_ranks (recalculate_all_ranks db e).1 e = recalculate_all_ranks db e.
Proof.
  assert (H : _refresh_ranks (_refresh_ranks db e).1 e = _refresh_ranks db e).
  { unfold _refresh_ranks at 1 3.
    destruct (refresh_ranks_tables db e) as (He & Hs & Hm & Ha & Hl).
    rewrite Hl, update_ranks_idem.
    destruct (update_ranks (leaderboard_snapshot db) e) as [tbl n] eqn:Hupd.
    unfold with_leaderboard. rewrite He, Hs, Hm, Ha. reflexivity. }
  split; [exact H | exact H].
Qed.

End RankClaims.

(* ====================================================================== *)
(** * The pipeline: the claims *)
(* ====================================================================== *)

Section PipelineClaims.

(** C5 (amended). A call of [submit_module_score] with a module type outside
    [coding], [quiz], [assessment] raises [ValueError] before any attempt:
    nothing is retried and neither the database nor the cache changes.  The
    bounds on the scores ([raw_score >= 0], [max_score > 0],
    [raw_score <= max_score]) are those of the request schema: a request that
    breaks one of them, or names an unknown module type, is answered 422 by
    [submit_score] without reaching the pipeline, the state unchanged. *)
Theorem C5_invalid_input (env : Env) (db : DB) (cache : Cache) (sub : Submission) :
  (module_type sub ∉ _VALID_MODULES ->
   submit_module_score env db cache sub = mkOutcome db cache (Raise ValueError) 0)
  /\ (module_type sub ∉ _VALID_MODULES \/ raw_score sub < 0 \/ max_score sub <= 0
      \/ raw_score sub > max_score sub ->
      submit_score env db cache sub = (db, cache, 422)).
Proof.
  split.
  - intros Hm. unfold submit_module_score, _validate_module_type.
    by rewrite decide_False.
  - intros H. unfold submit_score.
    assert (Hv : SubmitScoreSchema_valid sub = false); [|by rewrite Hv].
    unfold SubmitScoreSchema_valid. destruct H as [Hm|[Hr|[Hx|Hrx]]].
    + rewrite bool_decide_eq_false_2; done.
    + destruct (Z.leb_spec 0 (raw_score sub)); [lia|].
      by rewrite andb_false_r.
    + destruct (Z.leb_spec 1 (max_score sub)); [lia|].
      by rewrite !andb_false_r.
    + destruct (Z.leb_spec (raw_score sub) (max_score sub)); [lia|].
      by rewrite !andb_false_r.
Qed.

(** C5, an instance: an unknown module type, and a negative score. *)
Lemma C5_invalid_input_witness :
  submit_module_score quiet db0 ∅ (mkSubmission 1 "essay" 8000 10000 60 None 0)
  = mkOutcome db0 ∅ (Raise ValueError) 0
  /\ submit_score quiet db0 ∅ (mkSubmission 1 "coding" (-500) 10000 60 None 0)
     = (db0, ∅, 422).
Proof.
  split.
  - apply C5_invalid_input. vm_compute. intros H.
    repeat (apply elem_of_cons in H as [H|H]; [discriminate|]).
    by apply elem_of_nil in H.
  - apply C5_invalid_input. right. left. simpl. lia.
Defined.

(** C5 as stated fails: [submit_module_score] checks the module type only.
    Called with a negative raw score, with a raw score above the maximum, or
    with a maximum of 0, it raises no [ValueError]: it makes an attempt, which
    queries the database, and it ends as the call with valid scores ends, with
    the [InvalidRequestError] of step 1 for a session that exists and with
    [NoResultFound] for one that does not; and when the storage layer reports
    lock wait timeouts it is retried as any other call is. *)
Lemma C5_counterexample :
  let valid := mkSubmission 1 "coding" 8000 10000 60 None 0 in
  let negative := mkSubmission 1 "coding" (-500) 10000 60 None 0 in
  let above := mkSubmission 1 "coding" 15000 10000 60 None 0 in
  let no_max := mkSubmission 1 "coding" 0 0 60 None 0 in
  submit_module_score quiet db0 ∅ negative
  = mkOutcome db0 ∅ (Raise InvalidRequestError) 1
  /\ submit_module_score quiet db0 ∅ above
     = mkOutcome db0 ∅ (Raise InvalidRequestError) 1
  /\ submit_module_score quiet db0 ∅ no_max
     = mkOutcome db0 ∅ (Raise InvalidRequestError) 1
  /\ submit_module_score quiet db0 ∅ valid
     = mkOutcome db0 ∅ (Raise InvalidRequestError) 1
  /\ submit_module_score quiet db0 ∅ (mkSubmission 99 "coding" (-500) 10000 60 None 0)
     = mkOutcome db0 ∅ (Raise NoResultFound) 1
  /\ submit_module_score (contended 3) db0 ∅ negative
     = mkOutcome db0 ∅ (Raise RuntimeError) 3.
Proof. cbv zeta. split_and!; vm_compute; reflexivity. Qed.

(** C6 (amended). For a valid module type: no call makes more than 3
    attempts; an attempt that fails with an [OperationalError], be it a
    write-write conflict or any other failure that the driver reports in this
    class, has committed nothing, and after it the whole sequence is run again
    on the same state; when the attempt that follows such failures returns, or
    fails with an exception of another class, its outcome is the outcome of
    the call and no further attempt is made; after a third [OperationalError]
    the call raises [RuntimeError] (retries exhausted), the database and the
    cache as they were. *)
Theorem C6_retry_policy (env : Env) (db : DB) (cache : Cache) (sub : Submission) :
  module_type sub ∈ _VALID_MODULES ->
  let out := submit_module_score env db cache sub in
  (out_attempts out <= MAX_RETRIES)%nat
  /\ (forall k, operational (attempt env k db cache sub).2 ->
        (attempt env k db cache sub).1 = (db, cache))
  /\ (forall k db' cache' r,
        (k < MAX_RETRIES)%nat ->
        (forall j, (1 <= j <= k)%nat -> operational (attempt env j db cache sub).2) ->
        attempt env (S k) db cache sub = (db', cache', r) ->
        ~ operational r ->
        out = mkOutcome db' cache' (returned r) (S k))
  /\ ((forall j, (1 <= j <= MAX_RETRIES)%nat ->
         operational (attempt env j db cache sub).2) ->
      out = mkOutcome db cache (Raise RuntimeError) MAX_RETRIES).
Proof.
  intros Hv out. unfold out. rewrite (submit_valid env db cache sub Hv).
  assert (Hstate : forall k, exists r, attempt env k db cache sub = (db, cache, r)).
  { intros k. unfold attempt.
    destruct (attempt_Raise (faults env k) (clock env k) db cache sub) as (e & -> & _).
    by eexists. }
  assert (Hretry : forall j, operational (attempt env j db cache sub).2 ->
            exists r, attempt env j db cache sub = (db, cache, r) /\ operational r).
  { intros j Hj. destruct (Hstate j) as [r Hr]. rewrite Hr in Hj. eauto. }
  split_and!.
  - exact (retry_loop_attempts env [1; 2; 3]%nat 0 db cache sub).
  - intros k _. destruct (Hstate k) as [r ->]. done.
  - intros k db' cache' r Hk Hop Hatt Hr.
    unfold MAX_RETRIES in Hk.
    destruct k as [|[|[|k]]]; [| | |lia].
    + by apply retry_loop_done.
    + destruct (Hretry 1%nat) as (r1 & H1 & Hop1); [apply Hop; lia|].
      rewrite (retry_loop_retry _ _ _ _ _ _ _ _ _ _ H1 Hop1) by done.
      by apply retry_loop_done.
    + destruct (Hretry 1%nat) as (r1 & H1 & Hop1); [apply Hop; lia|].
      destruct (Hretry 2%nat) as (r2 & H2 & Hop2); [apply Hop; lia|].
      rewrite (retry_loop_retry _ _ _ _ _ _ _ _ _ _ H1 Hop1) by done.
      rewrite (retry_loop_retry _ _ _ _ _ _ _ _ _ _ H2 Hop2) by done.
      by apply retry_loop_done.
  - intros Hop. unfold MAX_RETRIES in Hop.
    destruct (Hretry 1%nat) as (r1 & H1 & Hop1); [apply Hop; lia|].
    destruct (Hretry 2%nat) as (r2 & H2 & Hop2); [apply Hop; lia|].
    destruct (Hretry 3%nat) as (r3 & H3 & Hop3); [apply Hop; lia|].
    rewrite (retry_loop_retry _ _ _ _ _ _ _ _ _ _ H1 Hop1) by done.
    rewrite (retry_loop_retry _ _ _ _ _ _ _ _ _ _ H2 Hop2) by done.
    by apply (retry_loop_exhausted env [] 2 db cache sub db cache r3).
Qed.

Lemma contended_operational n k db cache sub :
  (1 <= k <= n)%nat -> operational (attempt (contended n) k db cache sub).2.
Proof.
  intros Hk. unfold attempt, contended. cbn [faults]. rewrite decide_True by lia.
  rewrite attempt_raises. by rewrite storage_call_fault.
Qed.

(** C6, two instances: three lock wait timeouts in a row, and two followed by
    an attempt that fails at step 1 with another exception. *)
Lemma C6_retry_policy_witness :
  submit_module_score (contended 3) db0 ∅ (mkSubmission 1 "coding" 8000 10000 3000 None 0)
  = mkOutcome db0 ∅ (Raise RuntimeError) 3
  /\ submit_module_score (contended 2) db0 ∅ (mkSubmission 1 "coding" 8000 10000 3000 None 0)
     = mkOutcome db0 ∅ (Raise InvalidRequestError) 3.
Proof.
  assert (Hv : module_type (mkSubmission 1 "coding" 8000 10000 3000 None 0) ∈ _VALID_MODULES)
    by (apply elem_of_cons; by left).
  split.
  - apply (C6_retry_policy (contended 3) db0 ∅ _ Hv).
    intros j Hj. by apply contended_operational.
  - apply (proj1 (proj2 (proj2 (C6_retry_policy (contended 2) db0 ∅ _ Hv))) 2%nat
             db0 ∅ (Raise InvalidRequestError)).
    + unfold MAX_RETRIES. lia.
    + intros j Hj. by apply contended_operational.
    + vm_compute. reflexivity.
    + by intros [].
Defined.

(** C6 as stated fails on its last part: a failure that has nothing to do
    with locks is retried when the driver reports it as an
    [OperationalError].  A connection that is lost on the first query of every
    attempt is no write-write conflict; the call makes its three attempts all
    the same and raises [RuntimeError], where the claim has the failure
    propagated at once. *)
Lemma C6_counterexample :
  let sub := mkSubmission 1 "coding" 8000 10000 3000 None 0 in
  ~ write_write_conflict ConnectionLost
  /\ attempt unplugged 1 db0 ∅ sub = (db0, ∅, Raise (OperationalError ConnectionLost))
  /\ submit_module_score unplugged db0 ∅ sub = mkOutcome db0 ∅ (Raise RuntimeError) 3.
Proof.
  cbv zeta. split_and!.
  - by intros [|].
  - vm_compute. reflexivity.
  - vm_compute. reflexivity.
Qed.

(** C7. A call for a session that has no row, with a valid module type and
    no failure of the storage layer on the first lookup, raises
    [NoResultFound] at its first attempt: nothing is retried and neither the
    database nor the cache changes. *)
Theorem C7_session_not_found (env : Env) (db : DB) (cache : Cache) (sub : Submission) :
  module_type sub ∈ _VALID_MODULES ->
  filter (fun s => es_session_id s = session_id sub) (exam_sessions db) = [] ->
  (forall ft, faults env 1%nat = Some ft -> f_at ft <> OpLockSession) ->
  submit_module_score env db cache sub = mkOutcome db cache (Raise NoResultFound) 1.
Proof. apply submit_unknown_session. Qed.

(** C7, an instance: session 99 does not exist. *)
Lemma C7_session_not_found_witness :
  submit_module_score quiet db0 ∅ (mkSubmission 99 "quiz" 8000 10000 3000 None 0)
  = mkOutcome db0 ∅ (Raise NoResultFound) 1.
Proof.
  apply C7_session_not_found.
  - apply elem_of_cons. right. apply elem_of_cons. by left.
  - reflexivity.
  - intros ft Hft. discriminate Hft.
Defined.

End PipelineClaims.

Section ResubmissionClaim.

(** C8. What the code does with the submission of a module, a first one or
    a repeated one.  Step 1 reads the session with [.scalar_one()]; the
    session comes with its module scores, by a joined eager load, and the
    result is read without [.unique()]: the attempt raises
    [InvalidRequestError] there, which is not retried.  On the sample
    database, a first submission of coding creates no module score and no
    audit entry.  On the database that has coding on record with 80, a
    submission of 80 again leaves the version of the row at 1, the audit log
    at its one entry and the leaderboard entry as it was. *)
Theorem C8_resubmission_fails :
  let sub := mkSubmission 1 "coding" 8000 10000 3000 None 0 in
  let first := submit_module_score quiet db0 ∅ sub in
  let again := submit_module_score quiet db_submitted ∅ sub in
  first = mkOutcome db0 ∅ (Raise InvalidRequestError) 1
  /\ module_scores (out_db first) = []
  /\ score_audit_log (out_db first) = []
  /\ again = mkOutcome db_submitted ∅ (Raise InvalidRequestError) 1
  /\ ms_version <$> module_scores (out_db again) = [1]
  /\ al_old_score <$> score_audit_log (out_db again) = [None]
  /\ leaderboard_snapshot (out_db again) = leaderboard_snapshot db_submitted.
Proof. cbv zeta. split_and!; vm_compute; reflexivity. Qed.

End ResubmissionClaim.

(* ====================================================================== *)
(** * Cache keys: the claim *)
(* ====================================================================== *)

Section CacheClaim.

Lemma occurs_app c s1 s2 : occurs c (s1 +:+ s2) <-> occurs c s1 \/ occurs c s2.
Proof.
  induction s1 as [|a s1 IH]; simpl; [tauto|]. rewrite IH. tauto.
Qed.

Lemma pretty_N_char_no_colon x : pretty_N_char x <> ":"%char.
Proof. unfold pretty_N_char. repeat case_match; discriminate. Qed.

Lemma pretty_N_go_no_colon x s :
  ~ occurs ":" s -> ~ occurs ":" (pretty_N_go x s).
Proof.
  revert s. induction (N.lt_wf_0 x) as [x _ IH]; intros s Hs.
  destruct (decide (0 < x)%N) as [Hx|Hx].
  - rewrite pretty_N_go_step by done. apply IH; [by apply N.div_lt|].
    simpl. intros [Hc|Hc]; [by apply pretty_N_char_no_colon in Hc|done].
  - assert (x = 0%N) as -> by lia. by rewrite pretty_N_go_0.
Qed.

Lemma pretty_N_no_colon (x : N) : ~ occurs ":" (pretty x).
Proof.
  unfold pretty, pretty_N. destruct (decide (x = 0%N)).
  - simpl. intros [H|[]]. discriminate.
  - apply pretty_N_go_no_colon. simpl. tauto.
Qed.

(** The decimal string of an integer has no colon. *)
Lemma pretty_Z_no_colon (x : Z) : ~ occurs ":" (pretty x).
Proof.
  unfold pretty, pretty_Z. destruct x as [|p|p].
  - simpl. intros [H|[]]. discriminate.
  - apply (pretty_N_no_colon (Npos p)).
  - intros H. apply occurs_app in H as [H|H].
    + simpl in H. destruct H as [H|[]]. discriminate.
    + by apply (pretty_N_no_colon (Npos p)) in H.
Qed.

Lemma invalidation_key_not_page_key e e' page per_page :
  invalidation_key e <> page_key e' page per_page.
Proof.
  unfold invalidation_key, page_key. intros H.
  injection H as H.
  change (pretty e = pretty e' +:+ ":p" +:+ pretty page +:+ ":pp" +:+ pretty per_page) in H.
  apply (pretty_Z_no_colon e). rewrite H.
  apply occurs_app. right. simpl. by left.
Qed.

(** What an attempt does to the cache, whatever its outcome. *)
Lemma attempt_cache f now db cache sub :
  (_atomic_score_update f now db cache sub).1.2 = cache.
Proof. by destruct (attempt_Raise f now db cache sub) as (e & -> & _). Qed.

(** C10. The invalidation of the core deletes the key
    ["leaderboard:exam:{exam_id}"] and nothing else; this key is the key of no
    page of [get_leaderboard] (["leaderboard:exam:{exam_id}:p{page}:pp{per_page}"]),
    of this exam or of another; so a page that the reader cached is still
    cached after the invalidation, and after any attempt of a submission. *)
Theorem C10_invalidation_misses_pages (e e' page per_page : Z) (cache : Cache)
    (payload : string) :
  invalidation_key e = "leaderboard:exam:" +:+ pretty e
  /\ _invalidate_leaderboard_cache cache e !! invalidation_key e = None
  /\ (forall k, k <> invalidation_key e ->
        _invalidate_leaderboard_cache cache e !! k = cache !! k)
  /\ invalidation_key e <> page_key e' page per_page
  /\ _invalidate_leaderboard_cache cache e !! page_key e' page per_page
     = cache !! page_key e' page per_page
  /\ get_leaderboard_cached
       (_invalidate_leaderboard_cache
          (get_leaderboard_store cache e' page per_page payload) e)
       e' page per_page = Some payload
  /\ (forall f now db sub,
        (_atomic_score_update f now db cache sub).1.2 !! page_key e' page per_page
        = cache !! page_key e' page per_page).
Proof.
  pose proof invalidation_key_not_page_key as Hne.
  split_and!.
  - reflexivity.
  - apply lookup_delete_eq.
  - intros k Hk. by apply lookup_delete_ne.
  - apply Hne.
  - apply lookup_delete_ne, Hne.
  - unfold get_leaderboard_cached, get_leaderboard_store, _invalidate_leaderboard_cache.
    rewrite lookup_delete_ne by apply Hne. apply lookup_insert_eq.
  - intros f now db sub. by rewrite attempt_cache.
Qed.

(** C10, an instance: page 1 of exam 1 outlives the invalidation of exam 1. *)
Lemma C10_invalidation_misses_pages_witness :
  get_leaderboard_cached
    (_invalidate_leaderboard_cache (get_leaderboard_store ∅ 1 1 50 "{}") 1) 1 1 50
  = Some "{}"
  /\ invalidation_key 1 = "leaderboard:exam:1"
  /\ page_key 1 1 50 = "leaderboard:exam:1:p1:pp50".
Proof.
  split; [apply (C10_invalidation_misses_pages 1 1 1 50 ∅ "{}")|].
  split; vm_compute; reflexivity.
Defined.

End CacheClaim.

(* ====================================================================== *)
(** * More on the rank refresh *)
(* ====================================================================== *)

Section RefreshFrame.

Lemma set_rank_own lb : set_rank lb (lb_rank_position lb) = lb.
Proof. by destruct lb. Qed.

Lemma refresh_row_frame rk e lb :
  refresh_row rk e lb = set_rank lb (lb_rank_position (refresh_row rk e lb))
  /\ (lb_exam_id lb <> e -> refresh_row rk e lb = lb).
Proof.
  unfold refresh_row. destruct (decide (lb_exam_id lb = e)) as [He|He].
  - split; [|done]. destruct (join_ranked rk lb); [done|by rewrite set_rank_own].
  - split; [by rewrite set_rank_own|done].
Qed.

Lemma join_ranked_is_Some tbl e lb :
  lb ∈ entries_of tbl e -> is_Some (join_ranked (ranked tbl e) lb).
Proof.
  intros Hin. unfold join_ranked, ranked. apply fmap_is_Some.
  destruct (filter _ _) as [|p l] eqn:Hf; [|by eexists].
  assert (Hp : (lb_snapshot_id lb, dense_rank (entries_of tbl e) lb)
               ∈ filter (fun p : Z * Z => p.1 = lb_snapshot_id lb)
                   ((fun r => (lb_snapshot_id r, dense_rank (entries_of tbl e) r))
                      <$> entries_of tbl e)).
  { apply list_elem_of_filter. split; [done|].
    apply list_elem_of_fmap. by exists lb. }
  rewrite Hf in Hp. by apply elem_of_nil in Hp.
Qed.

Lemma filter_iff_elem_of {A : Type} (P Q : A -> Prop) `{!forall x, Decision (P x)}
    `{!forall x, Decision (Q x)} (l : list A) :
  (forall x, x ∈ l -> (P x <-> Q x)) -> filter P l = filter Q l.
Proof.
  induction l as [|x l IH]; intros Hiff; [done|].
  rewrite !filter_cons. rewrite IH by (intros; apply Hiff; by right).
  destruct (decide (P x)) as [HP|HP], (decide (Q x)) as [HQ|HQ]; try done.
  - destruct HQ. apply Hiff; [by left|done].
  - destruct HP. apply Hiff; [by left|done].
Qed.

Lemma refresh_ranks_fst db e :
  (_refresh_ranks db e).1
  = with_leaderboard db
      (refresh_row (ranked (leaderboard_snapshot db) e) e <$> leaderboard_snapshot db).
Proof. reflexivity. Qed.

Lemma refresh_ranks_snd db e :
  (_refresh_ranks db e).2
  = Z.of_nat (length (filter (fun lb => lb_exam_id lb = e
                                /\ is_Some (join_ranked (ranked (leaderboard_snapshot db) e) lb))
                        (leaderboard_snapshot db))).
Proof. reflexivity. Qed.

Lemma with_leaderboard_twice db t t' :
  with_leaderboard (with_leaderboard db t) t' = with_leaderboard db t'.
Proof. reflexivity. Qed.

Lemma leaderboard_with_leaderboard db t : leaderboard_snapshot (with_leaderboard db t) = t.
Proof. reflexivity. Qed.

Lemma with_leaderboard_own db : with_leaderboard db (leaderboard_snapshot db) = db.
Proof. by destruct db. Qed.

Lemma entries_of_other rk e e' (tbl : list LeaderboardSnapshot) :
  e <> e' -> entries_of (refresh_row rk e <$> tbl) e' = entries_of tbl e'.
Proof.
  intros Hne. unfold entries_of. induction tbl as [|lb tbl IH]; [done|].
  rewrite fmap_cons, !filter_cons, refresh_row_exam, IH.
  destruct (decide (lb_exam_id lb = e')) as [He|He]; [|done].
  f_equal. apply refresh_row_frame. congruence.
Qed.

Lemma ranked_other rk e e' (tbl : list LeaderboardSnapshot) :
  e <> e' -> ranked (refresh_row rk e <$> tbl) e' = ranked tbl e'.
Proof. intros Hne. unfold ranked. by rewrite entries_of_other. Qed.

Lemma refresh_row_comm rk rk' e e' lb :
  e <> e' ->
  refresh_row rk' e' (refresh_row rk e lb) = refresh_row rk e (refresh_row rk' e' lb).
Proof.
  intros Hne. unfold refresh_row at 2 4.
  destruct (decide (lb_exam_id lb = e)) as [He|He],
           (decide (lb_exam_id lb = e')) as [He'|He']; try congruence.
  - destruct (join_ranked rk lb) as [n|] eqn:Hj.
    + unfold refresh_row. simpl. rewrite decide_False by congruence.
      rewrite decide_True by done. by rewrite Hj.
    + unfold refresh_row. rewrite decide_False by congruence.
      rewrite decide_True by done. by rewrite Hj.
  - destruct (join_ranked rk' lb) as [n|] eqn:Hj.
    + unfold refresh_row. simpl. rewrite decide_True by done.
      rewrite decide_False by congruence. by rewrite Hj.
    + unfold refresh_row. rewrite decide_True by done.
      rewrite decide_False by congruence. by rewrite Hj.
  - unfold refresh_row. rewrite decide_False by done. by rewrite decide_False by done.
Qed.

End RefreshFrame.

Section RankRange.

Implicit Types (K : gset (Z * Z)) (k : Z * Z).

Lemma rank_of_le_size K k : rank_of K k <= Z.of_nat (size K).
Proof.
  unfold rank_of. apply inj_le, subseteq_size.
  intros x. rewrite elem_of_filter. by intros [_ ?].
Qed.

Lemma size_set_map_inj_on `{Countable A, Countable B} (f : A -> B) (X : gset A) :
  (forall x y, x ∈ X -> y ∈ X -> f x = f y -> x = y) ->
  size (set_map f X : gset B) = size X.
Proof.
  induction X as [|x X Hx IH] using set_ind_L; intros Hinj.
  - by rewrite set_map_empty, !size_empty.
  - rewrite set_map_union_L, set_map_singleton_L.
    rewrite !size_union, !size_singleton.
    + rewrite IH; [done|]. intros. apply Hinj; set_solver.
    + set_solver.
    + intros y. rewrite elem_of_singleton, elem_of_map.
      intros -> (x' & Hf & Hx'). apply Hx.
      assert (x = x') as -> by (apply Hinj; set_solver). done.
Qed.

Lemma size_list_to_set_le `{Countable A} (l : list A) :
  (size (list_to_set l : gset A) <= length l)%nat.
Proof.
  induction l as [|x l IH]; [by rewrite list_to_set_nil, size_empty|].
  rewrite list_to_set_cons, size_union_alt, size_singleton. simpl.
  assert (size (list_to_set l ∖ {[x]} : gset A) <= size (list_to_set l : gset A))%nat.
  { apply subseteq_size. intros y. rewrite elem_of_difference. by intros [? _]. }
  lia.
Qed.

(** The ranks of the keys of [K] are exactly [1 .. size K]. *)
Lemma rank_of_onto K (n : Z) :
  1 <= n <= Z.of_nat (size K) -> exists k, k ∈ K /\ rank_of K k = n.
Proof.
  intros Hn.
  set (X := set_map (fun k => Z.to_nat (rank_of K k)) K : gset nat).
  assert (HX : X = set_seq 1 (size K)).
  { apply set_subseteq_size_eq.
    - intros m. unfold X. rewrite elem_of_map, elem_of_set_seq.
      intros (k & -> & Hk). pose proof (rank_of_pos K k Hk).
      pose proof (rank_of_le_size K k). lia.
    - rewrite size_set_seq. unfold X. rewrite size_set_map_inj_on; [done|].
      intros k1 k2 H1 H2 Heq. apply (rank_of_inj K); [done..|].
      pose proof (rank_of_pos K k1 H1). pose proof (rank_of_pos K k2 H2). lia. }
  assert (Hin : Z.to_nat n ∈ X) by (rewrite HX, elem_of_set_seq; lia).
  unfold X in Hin. apply elem_of_map in Hin as (k & Hk & HkK).
  exists k. split; [done|]. pose proof (rank_of_pos K k HkK). lia.
Qed.

End RankRange.

(* ====================================================================== *)
(** * More on the weighted score *)
(* ====================================================================== *)

Section CalculatorOrder.

Lemma signed_nearest M R W Y :
  0 <= W ->
  2 * Z.abs (M * Y - 100 * Z.abs R * W) <= M ->
  2 * Z.abs (M * (Z.sgn R * Z.sgn W * Y) - 100 * R * W) <= M.
Proof.
  intros HW HY.
  assert (Hsame : forall a b, 2 * Z.abs a <= M -> b = a -> 2 * Z.abs b <= M)
    by (intros; lia).
  assert (Hopp : forall a b, 2 * Z.abs a <= M -> b = - a -> 2 * Z.abs b <= M)
    by (intros; lia).
  destruct (Z.sgn_spec W) as [[HW1 ->]|[[HW1 ->]|[HW1 ->]]]; [| |lia].
  - destruct (Z.sgn_spec R) as [[HR1 ->]|[[HR1 ->]|[HR1 ->]]].
    + replace (Z.abs R) with R in HY by lia. eapply Hsame; [exact HY|ring].
    + subst R. apply (Hsame 0); [lia|ring].
    + replace (Z.abs R) with (- R) in HY by lia. eapply Hopp; [exact HY|ring].
  - subst W. apply (Hsame 0); [lia|ring].
Qed.

(** The weighted score of a submitted module, for a weight that is not
    negative: a nearest multiple of [10^-4] of [(raw / max) * weight], with
    its sign. *)
Lemma module_weighted_nearest exam scores m ms :
  scores !! module_name m = Some ms ->
  numeric_10_2 (ms_raw_score ms) -> 0 <= weight_of exam m < 10 ^ 5 ->
  0 < max_of exam m < 10 ^ 10 ->
  exists y,
    module_weighted exam scores m = Ok (mkDec y (-4), ms_time_spent_sec ms)
    /\ 2 * Z.abs (max_of exam m * y - 100 * ms_raw_score ms * weight_of exam m)
       <= max_of exam m.
Proof.
  intros H HR HW HM.
  destruct (module_weighted_submitted exam scores m ms H HR) as (Y & Hw & [HY0 _] & HY);
    [unfold numeric_5_2; lia|done|].
  eexists. split; [exact Hw|].
  replace (Z.abs (weight_of exam m)) with (weight_of exam m) in HY by lia.
  apply signed_nearest; [lia|done].
Qed.

Lemma nearest_monotone M W R1 R2 y1 y2 :
  0 < M -> 0 <= W -> R1 < R2 ->
  2 * Z.abs (M * y1 - 100 * R1 * W) <= M ->
  2 * Z.abs (M * y2 - 100 * R2 * W) <= M ->
  y1 <= y2.
Proof.
  intros HM HW HR H1 H2.
  destruct (decide (W = 0)) as [->|HW0].
  - replace (M * y1 - 100 * R1 * 0) with (M * y1) in H1 by ring.
    replace (M * y2 - 100 * R2 * 0) with (M * y2) in H2 by ring.
    assert (y1 = 0) as -> by (clear - HM H1; nia).
    assert (y2 = 0) as -> by (clear - HM H2; nia). done.
  - assert (HRW : 100 * R1 * W < 100 * R2 * W) by (clear - HW HW0 HR; nia).
    assert (Hd : - M < M * (y2 - y1)) by lia.
    clear - HM Hd. nia.
Qed.

Lemma nearest_nonneg M W R y :
  0 < M -> 0 <= W -> 0 <= R -> 2 * Z.abs (M * y - 100 * R * W) <= M -> 0 <= y.
Proof.
  intros HM HW HR H.
  assert (HRW : 0 <= 100 * R * W) by nia.
  assert (Hd : - M < M * y) by lia.
  clear - HM Hd. nia.
Qed.

(** The scores of [rows'] are those of [rows], some of them raised: module
    by module, a raw score that is not lower, or a new row with a raw score
    that is not negative. *)
Lemma module_weighted_monotone exam rows rows' m y t y' t' :
  exam_in_range exam -> 0 <= weight_of exam m ->
  scores_in_range rows -> scores_in_range rows' ->
  match scores_dict rows !! module_name m, scores_dict rows' !! module_name m with
  | Some a, Some b => ms_raw_score a <= ms_raw_score b
  | None, Some b => 0 <= ms_raw_score b
  | None, None => True
  | Some _, None => False
  end ->
  module_weighted exam (scores_dict rows) m = Ok (mkDec y (-4), t) ->
  module_weighted exam (scores_dict rows') m = Ok (mkDec y' (-4), t') ->
  y <= y'.
Proof.
  intros Hexam HW0 Hrows Hrows' Hrel Hy Hy'.
  destruct (Hexam m) as [HW HM]. unfold numeric_5_2, numeric_10_2 in HW, HM.
  destruct (scores_dict rows !! module_name m) as [a|] eqn:Ha,
           (scores_dict rows' !! module_name m) as [b|] eqn:Hb; try done.
  - apply scores_dict_Some in Ha as Hina. apply scores_dict_Some in Hb as Hinb.
    destruct Hina as [Hina _], Hinb as [Hinb _].
    destruct (Z_lt_le_dec 0 (max_of exam m)) as [Hpos|Hnonpos].
    + destruct (Z_lt_le_dec (ms_raw_score a) (ms_raw_score b)) as [Hlt|Hge].
      * destruct (module_weighted_nearest exam _ m a Ha (Hrows _ Hina)) as (z & Hz & Hzb);
          [lia..|].
        destruct (module_weighted_nearest exam _ m b Hb (Hrows' _ Hinb)) as (z' & Hz' & Hzb');
          [lia..|].
        rewrite Hz in Hy. rewrite Hz' in Hy'. injection Hy as -> _. injection Hy' as -> _.
        eapply (nearest_monotone (max_of exam m) (weight_of exam m)); eauto.
      * assert (Heq : mkDec y (-4) = mkDec y' (-4)).
        { eapply (module_weighted_same_raw exam (scores_dict rows) (scores_dict rows') m);
            [|exact Hy|exact Hy']. rewrite Ha, Hb. lia. }
        injection Heq as ->. lia.
    + rewrite (module_weighted_nonpos _ _ _ a) in Hy by done.
      rewrite (module_weighted_nonpos _ _ _ b) in Hy' by done.
      injection Hy as <- _. injection Hy' as <- _. lia.
  - rewrite module_weighted_absent in Hy by done. injection Hy as <- _.
    apply scores_dict_Some in Hb as Hinb. destruct Hinb as [Hinb _].
    destruct (Z_lt_le_dec 0 (max_of exam m)) as [Hpos|Hnonpos].
    + destruct (module_weighted_nearest exam _ m b Hb (Hrows' _ Hinb)) as (z' & Hz' & Hzb');
        [lia..|].
      rewrite Hz' in Hy'. injection Hy' as -> _.
      eapply (nearest_nonneg (max_of exam m) (weight_of exam m)); eauto.
    + rewrite (module_weighted_nonpos _ _ _ b) in Hy' by done. injection Hy' as <- _. lia.
  - rewrite module_weighted_absent in Hy by done.
    rewrite module_weighted_absent in Hy' by done.
    injection Hy as <- _. injection Hy' as <- _. lia.
Qed.

(** The result of the calculator on values of the columns: three numbers of
    units of [10^-4] and their sum. *)
Lemma calc_numeric rows exam res :
  exam_in_range exam -> scores_in_range rows ->
  _calculate_weighted_score rows exam = Ok res ->
  exists c q a tc tq ta,
    module_weighted exam (scores_dict rows) coding = Ok (mkDec c (-4), tc) /\
    module_weighted exam (scores_dict rows) quiz = Ok (mkDec q (-4), tq) /\
    module_weighted exam (scores_dict rows) assessment = Ok (mkDec a (-4), ta) /\
    res = mkWeighted (mkDec c (-4)) (mkDec q (-4)) (mkDec a (-4))
            (mkDec (c + q + a) (-4)) (0 + tc + tq + ta).
Proof.
  intros Hexam Hrows Hres.
  destruct (calc_defined rows exam Hexam Hrows)
    as (c & q & a & tc & tq & ta & Hc & Hq & Ha & Hcalc).
  rewrite Hcalc in Hres. injection Hres as <-.
  by exists c, q, a, tc, tq, ta.
Qed.

Lemma numeric_Q_le s a b : a <= b -> (numeric_Q s a <= numeric_Q s b)%Q.
Proof.
  intros Hab. unfold numeric_Q.
  destruct (Z_lt_le_dec 0 (10 ^ s)) as [Hpos|Hnonpos].
  - apply Qle_shift_div_l.
    + change 0%Q with (inject_Z 0). by rewrite <- Zlt_Qlt.
    + unfold Qdiv. rewrite <- Qmult_assoc, (Qmult_comm (/ _)), Qmult_inv_r, Qmult_1_r.
      * by rewrite <- Zle_Qle.
      * change 0%Q with (inject_Z 0). rewrite inject_Z_injective. lia.
  - assert (10 ^ s = 0) as ->.
    { destruct s as [|p|p]; [done| |done]. pose proof (pow10_pos (Z.pos p)). lia. }
    unfold Qdiv. change (/ inject_Z 0)%Q with 0%Q. rewrite !Qmult_0_r. apply Qle_refl.
Qed.

Lemma numeric_Q_rescale c : (numeric_Q 4 (100 * c) == numeric_Q 2 c)%Q.
Proof.
  unfold numeric_Q. rewrite inject_Z_mult.
  change (inject_Z (10 ^ 4)) with (10000 # 1)%Q. change (inject_Z (10 ^ 2)) with (100 # 1)%Q.
  change (inject_Z 100) with (100 # 1)%Q. field.
Qed.

Lemma numeric_Q_0 s : (numeric_Q s 0 == 0)%Q.
Proof. unfold numeric_Q, Qdiv. change (inject_Z 0) with 0%Q. apply Qmult_0_l. Qed.

(** An exact weighted score that is a multiple of [10^-4]. *)
Lemma exact_Q R M W Y :
  0 < M -> M * Y = 100 * R * W -> (numeric_Q 4 Y == exact_weighted R M W)%Q.
Proof.
  intros HM Heq. unfold exact_weighted, numeric_Q.
  change (10 ^ 4) with 10000. change (10 ^ 2) with 100.
  assert (Hm : (0 < inject_Z M)%Q)
    by (change 0%Q with (inject_Z 0); rewrite <- Zlt_Qlt; exact HM).
  assert (Hm0 : ~ (inject_Z M == 0)%Q) by lra.
  assert (Hz : (inject_Z M * inject_Z Y == 100 * inject_Z R * inject_Z W)%Q).
  { change 100%Q with (inject_Z 100). rewrite <- !inject_Z_mult.
    by rewrite Heq. }
  change (inject_Z 10000) with (10000 # 1)%Q. change (inject_Z 100) with (100 # 1)%Q.
  apply (Qmult_inj_r _ _ (inject_Z M)); [exact Hm0|].
  transitivity ((inject_Z M * inject_Z Y) / (10000 # 1))%Q; [field|].
  rewrite Hz. field. exact Hm0.
Qed.

End CalculatorOrder.

(* ====================================================================== *)
(** * The weighted score: further properties *)
(* ====================================================================== *)

Section CalculatorProperties.

(** X1. The ranges the calculator promises, whatever modules the session has
    submitted: for weights between 0 and 100 and raw scores between 0 and the
    maximum of the exam, every weighted score lies between 0 and the weight of
    its module, [total_score] is exactly the sum of the three weighted scores,
    and it lies between 0 and the sum of the weights. *)
Theorem X1_weighted_ranges (rows : list ModuleScore) (exam : Exam) :
  (forall m, 0 <= weight_of exam m <= 10000) ->
  (forall m, numeric_10_2 (max_of exam m)) ->
  (forall m ms, scores_dict rows !! module_name m = Some ms -> 0 < max_of exam m ->
     0 <= ms_raw_score ms <= max_of exam m) ->
  exists res,
    _calculate_weighted_score rows exam = Ok res
    /\ (forall m, (0 <= to_Q (weighted_of res m) <= numeric_Q 2 (weight_of exam m))%Q)
    /\ (to_Q (w_total_score res)
        == to_Q (w_coding res) + to_Q (w_quiz res) + to_Q (w_assessment res))%Q
    /\ (0 <= to_Q (w_total_score res)
        <= numeric_Q 2 (weight_of exam coding + weight_of exam quiz
                        + weight_of exam assessment))%Q.
Proof.
  intros HW HM HR.
  assert (Hmod : forall m, exists c t,
            module_weighted exam (scores_dict rows) m = Ok (mkDec c (-4), t)
            /\ 0 <= c <= 100 * weight_of exam m).
  { intros m. specialize (HW m). specialize (HM m). unfold numeric_10_2 in HM.
    destruct (scores_dict rows !! module_name m) as [ms|] eqn:Hms.
    - destruct (Z_lt_le_dec 0 (max_of exam m)) as [Hpos|Hnonpos].
      + destruct (module_weighted_valid exam _ m ms Hms) as (c & Hc & Hcb & _);
          [lia|lia|by apply (HR m)|]. by eexists _, _.
      + rewrite (module_weighted_nonpos _ _ _ ms) by done. eexists _, _. split; [done|lia].
    - rewrite module_weighted_absent by done. eexists _, _. split; [done|lia]. }
  destruct (Hmod coding) as (c & tc & Hc & Hcb).
  destruct (Hmod quiz) as (q & tq & Hq & Hqb).
  destruct (Hmod assessment) as (a & ta & Ha & Hab).
  pose proof (HW coding). pose proof (HW quiz). pose proof (HW assessment).
  eexists. split.
  { apply (calc_of_modules rows exam c q a tc tq ta); [lia..|done|done|done]. }
  cbn [w_coding w_quiz w_assessment w_total_score].
  assert (Hb : forall y w, 0 <= y <= 100 * w ->
            (0 <= to_Q (mkDec y (-4)) <= numeric_Q 2 w)%Q).
  { intros y w Hy. rewrite to_Q_numeric, <- numeric_Q_rescale, <- (numeric_Q_0 4).
    split; apply numeric_Q_le; lia. }
  split; [|split].
  - intros []; cbn [weighted_of w_coding w_quiz w_assessment]; by apply Hb.
  - rewrite !to_Q_numeric, !numeric_Q_plus. reflexivity.
  - apply Hb. lia.
Qed.

(** X1, an instance: only the quiz submitted, 90 out of 100. *)
Lemma X1_weighted_ranges_witness :
  exists res,
    _calculate_weighted_score [with_score blank_score "quiz" 9000 500] exam_50_30_20 = Ok res
    /\ (0 <= to_Q (w_total_score res) <= numeric_Q 2 10000)%Q.
Proof.
  destruct (X1_weighted_ranges [with_score blank_score "quiz" 9000 500] exam_50_30_20)
    as (res & Hres & _ & _ & Hrange).
  - intros []; vm_compute; split; discriminate.
  - intros []; vm_compute; reflexivity.
  - intros [] ms Hms _; vm_compute in Hms; try discriminate Hms.
    injection Hms as <-. vm_compute. split; discriminate.
  - exists res. split; [exact Hres|exact Hrange].
Defined.

(** X2. A better raw score never costs points.  When the rows of a session
    change so that, module by module, the raw score is not lower (or a module
    is submitted for the first time with a raw score that is not negative),
    the weights not being negative, no weighted score and not the total get
    lower. *)
Theorem X2_score_monotone (rows rows' : list ModuleScore) (exam : Exam)
    (res res' : Weighted) :
  exam_in_range exam -> (forall m, 0 <= weight_of exam m) ->
  scores_in_range rows -> scores_in_range rows' ->
  (forall m,
     match scores_dict rows !! module_name m, scores_dict rows' !! module_name m with
     | Some a, Some b => ms_raw_score a <= ms_raw_score b
     | None, Some b => 0 <= ms_raw_score b
     | None, None => True
     | Some _, None => False
     end) ->
  _calculate_weighted_score rows exam = Ok res ->
  _calculate_weighted_score rows' exam = Ok res' ->
  (forall m, (to_Q (weighted_of res m) <= to_Q (weighted_of res' m))%Q)
  /\ (to_Q (w_total_score res) <= to_Q (w_total_score res'))%Q.
Proof.
  intros Hexam HW Hrows Hrows' Hrel Hres Hres'.
  apply calc_numeric in Hres as (c & q & a & tc & tq & ta & Hc & Hq & Ha & ->); [|done..].
  apply calc_numeric in Hres' as (c' & q' & a' & tc' & tq' & ta' & Hc' & Hq' & Ha' & ->);
    [|done..].
  pose proof (module_weighted_monotone exam rows rows' coding c tc c' tc'
                Hexam (HW coding) Hrows Hrows' (Hrel coding) Hc Hc') as Hcc.
  pose proof (module_weighted_monotone exam rows rows' quiz q tq q' tq'
                Hexam (HW quiz) Hrows Hrows' (Hrel quiz) Hq Hq') as Hqq.
  pose proof (module_weighted_monotone exam rows rows' assessment a ta a' ta'
                Hexam (HW assessment) Hrows Hrows' (Hrel assessment) Ha Ha') as Haa.
  split.
  - intros []; cbn [weighted_of w_coding w_quiz w_assessment];
      rewrite !to_Q_numeric; by apply numeric_Q_le.
  - cbn [w_total_score]. rewrite !to_Q_numeric. apply numeric_Q_le. lia.
Qed.

(** X2, an instance: coding raised from 80 to 85, the quiz submitted anew. *)
Lemma X2_score_monotone_witness :
  (to_Q (mkDec 400000 (-4)) <= to_Q (mkDec 695000 (-4)))%Q.
Proof.
  apply (proj2 (X2_score_monotone
    [with_score blank_score "coding" 8000 1000]
    [with_score blank_score "coding" 8500 1200; with_score blank_score "quiz" 9000 500]
    exam_50_30_20
    (mkWeighted (mkDec 400000 (-4)) (mkDec 0 (-4)) (mkDec 0 (-4)) (mkDec 400000 (-4)) 1000)
    (mkWeighted (mkDec 425000 (-4)) (mkDec 270000 (-4)) (mkDec 0 (-4)) (mkDec 695000 (-4))
       1700)
    ltac:(intros []; split; vm_compute; reflexivity)
    ltac:(intros []; vm_compute; discriminate)
    ltac:(intros ms Hms; apply list_elem_of_singleton in Hms as ->; vm_compute; reflexivity)
    ltac:(intros ms Hms; apply elem_of_cons in Hms as [->|Hms];
          [|apply list_elem_of_singleton in Hms as ->]; vm_compute; reflexivity)
    ltac:(intros []; vm_compute; try exact I; discriminate)
    ltac:(vm_compute; reflexivity)
    ltac:(vm_compute; reflexivity))).
Defined.

(** X3. The calculator reads the module type, the raw score and the time of
    a module score and nothing else of it: the [max_score] sent with a
    submission is stored and never used (the divisor is the maximum of the
    exam), and neither are [details], the version or the identifiers. *)
Theorem X3_row_max_score_unused (rows : list ModuleScore) (exam : Exam)
    (g : ModuleScore -> ModuleScore) :
  (forall r, ms_module_type (g r) = ms_module_type r
             /\ ms_raw_score (g r) = ms_raw_score r
             /\ ms_time_spent_sec (g r) = ms_time_spent_sec r) ->
  _calculate_weighted_score (g <$> rows) exam = _calculate_weighted_score rows exam.
Proof.
  intros Hg.
  assert (Hmod : forall m, module_weighted exam (scores_dict (g <$> rows)) m
                           = module_weighted exam (scores_dict rows) m).
  { intros m. unfold module_weighted.
    rewrite (scores_dict_fmap g rows) by (intros r; apply Hg).
    destruct (scores_dict rows !! module_name m) as [ms|]; [|done]. simpl.
    destruct (Hg ms) as (_ & -> & ->). done. }
  by rewrite !calc_unfold, !Hmod.
Qed.

(** X3, an instance: 80 points sent with a maximum of 200 weigh as much as
    sent with a maximum of 100. *)
Lemma X3_row_max_score_unused_witness :
  _calculate_weighted_score [mkModuleScore 1 1 "coding" 8000 20000 1000 None 1 0] exam_50_30_20
  = _calculate_weighted_score [mkModuleScore 1 1 "coding" 8000 10000 1000 None 1 0]
      exam_50_30_20.
Proof.
  apply (X3_row_max_score_unused [mkModuleScore 1 1 "coding" 8000 10000 1000 None 1 0]
           exam_50_30_20
           (fun r => mkModuleScore (ms_score_id r) (ms_session_id r) (ms_module_type r)
                       (ms_raw_score r) 20000 (ms_time_spent_sec r) (ms_details r)
                       (ms_version r) (ms_updated_at r))).
  intros r. done.
Defined.

(** X4. No rounding where none is needed: when [(raw / max) * weight] of a
    submitted module is a multiple of [0.0001], the weighted score of the
    module is exactly that number. *)
Theorem X4_exact_when_representable (rows : list ModuleScore) (exam : Exam) (m : module)
    (ms : ModuleScore) (res : Weighted) :
  scores_dict rows !! module_name m = Some ms ->
  0 <= weight_of exam m <= 10000 -> 0 < max_of exam m < 10 ^ 10 ->
  0 <= ms_raw_score ms <= max_of exam m ->
  (max_of exam m | 100 * ms_raw_score ms * weight_of exam m) ->
  _calculate_weighted_score rows exam = Ok res ->
  (to_Q (weighted_of res m)
   == exact_weighted (ms_raw_score ms) (max_of exam m) (weight_of exam m))%Q.
Proof.
  intros Hms HW HM HR [k Hk] Hres.
  destruct (module_weighted_valid exam _ m ms Hms HW HM HR) as (c & Hc & _ & Hnear).
  apply calc_Ok in Hres as (tc & tq & ta & Hwc & Hwq & Hwa & _).
  assert (Hw : weighted_of res m = mkDec c (-4)).
  { destruct m; cbn [weighted_of]; [rewrite Hwc in Hc|rewrite Hwq in Hc|rewrite Hwa in Hc];
      by injection Hc. }
  rewrite Hw, to_Q_numeric. apply exact_Q; [lia|].
  rewrite Hk in Hnear |- *.
  assert (c = k); [|subst; ring].
  destruct HM as [HM _]. clear - HM Hnear. nia.
Qed.

(** X4, an instance: 80 out of 100 with weight 50 is 40 exactly. *)
Lemma X4_exact_when_representable_witness :
  (to_Q (mkDec 400000 (-4)) == exact_weighted 8000 10000 5000)%Q.
Proof.
  apply (X4_exact_when_representable [with_score blank_score "coding" 8000 1000]
           exam_50_30_20 coding (with_score blank_score "coding" 8000 1000)
           (mkWeighted (mkDec 400000 (-4)) (mkDec 0 (-4)) (mkDec 0 (-4))
              (mkDec 400000 (-4)) 1000)).
  - vm_compute. reflexivity.
  - vm_compute. split; discriminate.
  - vm_compute. split; reflexivity.
  - vm_compute. split; discriminate.
  - exists 400000. vm_compute. reflexivity.
  - vm_compute. reflexivity.
Defined.

End CalculatorProperties.

(* ====================================================================== *)
(** * The rank refresh: further properties *)
(* ====================================================================== *)

Section RefreshProperties.

(** X5. [_refresh_ranks] writes nothing but [rank_position], and only on the
    entries of the exam: the other tables are as before, the leaderboard keeps
    its rows in place, each row keeps every other column, and the entries of
    other exams are untouched. *)
Theorem X5_refresh_only_ranks (db : DB) (e : Z) :
  let db' := (_refresh_ranks db e).1 in
  exams db' = exams db
  /\ exam_sessions db' = exam_sessions db
  /\ module_scores db' = module_scores db
  /\ score_audit_log db' = score_audit_log db
  /\ length (leaderboard_snapshot db') = length (leaderboard_snapshot db)
  /\ (forall i lb, leaderboard_snapshot db !! i = Some lb ->
        exists lb', leaderboard_snapshot db' !! i = Some lb'
          /\ lb' = set_rank lb (lb_rank_position lb')
          /\ (lb_exam_id lb <> e -> lb' = lb)).
Proof.
  intros db'. destruct (refresh_ranks_tables db e) as (He & Hs & Hm & Ha & Hl).
  split_and!; try done.
  - unfold db'. by rewrite Hl, update_ranks_fst, length_fmap.
  - intros i lb Hi. unfold db'. rewrite Hl, update_ranks_fst, list_lookup_fmap, Hi.
    eexists. split; [done|]. apply refresh_row_frame.
Qed.

(** X6. After a refresh the ranks of the entries of the exam are exactly the
    numbers [1 .. d], [d] the number of distinct [(total_score,
    total_time_sec)] pairs: no rank is skipped, none is below 1 or above the
    number of entries. *)
Theorem X6_ranks_without_gaps (db : DB) (e : Z) (n : Z) :
  NoDup (lb_snapshot_id <$> leaderboard_snapshot db) ->
  let part := entries_of (leaderboard_snapshot (_refresh_ranks db e).1) e in
  let d := size (list_to_set (rank_key <$> part) : gset (Z * Z)) in
  ((exists r, r ∈ part /\ lb_rank_position r = n) <-> 1 <= n <= Z.of_nat d)
  /\ (d <= length part)%nat.
Proof.
  intros Hnd part d.
  assert (Hdr : dense_ranked (leaderboard_snapshot (_refresh_ranks db e).1) e).
  { destruct (refresh_ranks_tables db e) as (_ & _ & _ & _ & ->).
    by apply update_ranks_dense_ranked. }
  split; [split|].
  - intros (r & Hr & <-). rewrite (Hdr r Hr). unfold dense_rank. fold part.
    split; [apply rank_of_pos, key_in_partition, Hr | apply rank_of_le_size].
  - intros Hn. apply rank_of_onto in Hn as (k & Hk & Hrank).
    apply elem_of_list_to_set, list_elem_of_fmap in Hk as (r & -> & Hr).
    exists r. split; [done|]. by rewrite (Hdr r Hr).
  - unfold d. etrans; [apply size_list_to_set_le|]. by rewrite length_fmap.
Qed.

(** X6, an instance: rank 3 is taken on the sample leaderboard. *)
Lemma X6_ranks_without_gaps_witness :
  NoDup (lb_snapshot_id <$> leaderboard_snapshot db_unranked)
  /\ exists r, r ∈ entries_of (leaderboard_snapshot (_refresh_ranks db_unranked 1).1) 1
               /\ lb_rank_position r = 3.
Proof.
  assert (Hnd : NoDup (lb_snapshot_id <$> leaderboard_snapshot db_unranked)).
  { apply (bool_decide_unpack _). vm_compute. exact I. }
  split; [exact Hnd|].
  apply (proj1 (X6_ranks_without_gaps db_unranked 1 3 Hnd)).
  apply (bool_decide_unpack _). vm_compute. exact I.
Defined.

(** X7. After a refresh the ranks order the entries of the exam as the
    leaderboard does: an entry with a higher score, or the same score in less
    time, has a strictly smaller rank, and conversely; two entries have the
    same rank exactly when they have the same score and time. *)
Theorem X7_ranks_follow_order (db : DB) (e : Z) (a b : LeaderboardSnapshot) :
  NoDup (lb_snapshot_id <$> leaderboard_snapshot db) ->
  let part := entries_of (leaderboard_snapshot (_refresh_ranks db e).1) e in
  a ∈ part -> b ∈ part ->
  (precedes (rank_key a) (rank_key b) <-> lb_rank_position a < lb_rank_position b)
  /\ (rank_key a = rank_key b <-> lb_rank_position a = lb_rank_position b)
  /\ (lb_total_score b < lb_total_score a -> lb_rank_position a < lb_rank_position b).
Proof.
  intros Hnd part Ha Hb.
  assert (Hdr : dense_ranked (leaderboard_snapshot (_refresh_ranks db e).1) e).
  { destruct (refresh_ranks_tables db e) as (_ & _ & _ & _ & ->).
    by apply update_ranks_dense_ranked. }
  rewrite (Hdr a Ha), (Hdr b Hb). unfold dense_rank. fold part.
  set (K := list_to_set (rank_key <$> part) : gset (Z * Z)).
  assert (HaK : rank_key a ∈ K) by by apply key_in_partition.
  assert (HbK : rank_key b ∈ K) by by apply key_in_partition.
  assert (Hlt : forall k1 k2, k1 ∈ K -> k2 ∈ K ->
                  (precedes k1 k2 <-> rank_of K k1 < rank_of K k2)).
  { intros k1 k2 H1 H2. split; [by apply rank_of_lt|]. intros Hr.
    destruct (precedes_trichotomy k1 k2) as [?|[->|Hgt]]; [done|lia|].
    apply (rank_of_lt K) in Hgt; [lia|done]. }
  split_and!.
  - by apply Hlt.
  - split; [by intros ->|]. by apply rank_of_inj.
  - intros Hs. apply Hlt; [done..|]. left. done.
Qed.

(** X7, an instance: on the sample leaderboard the entry with 40.0000 in
    2000 s ranks before the entry with 25.0000. *)
Lemma X7_ranks_follow_order_witness :
  let a := mkLeaderboardSnapshot 2 1 8 2 400000 0 0 400000 2000 1 0 in
  let b := mkLeaderboardSnapshot 3 1 9 3 250000 0 0 250000 100 3 0 in
  (precedes (rank_key a) (rank_key b) <-> lb_rank_position a < lb_rank_position b)
  /\ (rank_key a = rank_key b <-> lb_rank_position a = lb_rank_position b)
  /\ (lb_total_score b < lb_total_score a -> lb_rank_position a < lb_rank_position b).
Proof.
  apply (X7_ranks_follow_order db_unranked 1).
  - apply (bool_decide_unpack _). vm_compute. exact I.
  - apply (bool_decide_unpack _). vm_compute. exact I.
  - apply (bool_decide_unpack _). vm_compute. exact I.
Defined.

(** X8. [recalculate_all_ranks] returns the number of leaderboard entries of
    the exam; on an exam without entries it returns 0 and leaves the database
    as it is. *)
Theorem X8_refresh_rowcount (db : DB) (e : Z) :
  (recalculate_all_ranks db e).2
  = Z.of_nat (length (entries_of (leaderboard_snapshot db) e))
  /\ (entries_of (leaderboard_snapshot db) e = [] -> recalculate_all_ranks db e = (db, 0)).
Proof.
  assert (Hcount : (recalculate_all_ranks db e).2
                   = Z.of_nat (length (entries_of (leaderboard_snapshot db) e))).
  { unfold recalculate_all_ranks, _refresh_ranks, update_ranks. cbn [snd]. f_equal.
    unfold entries_of. f_equal. apply filter_iff_elem_of. intros lb Hin.
    split; [by intros [? _]|].
    intros He. split; [done|]. apply join_ranked_is_Some.
    by apply list_elem_of_filter. }
  split; [exact Hcount|].
  intros Hnone.
  assert (Htbl : refresh_row (ranked (leaderboard_snapshot db) e) e
                   <$> leaderboard_snapshot db = leaderboard_snapshot db).
  { apply list_eq. intros i. rewrite list_lookup_fmap.
    destruct (leaderboard_snapshot db !! i) as [lb|] eqn:Hi; [|done]. simpl. f_equal.
    apply refresh_row_frame. intros He.
    assert (lb ∈ entries_of (leaderboard_snapshot db) e) as Hin.
    { apply list_elem_of_filter. split; [done|]. by eapply list_elem_of_lookup_2. }
    rewrite Hnone in Hin. by apply elem_of_nil in Hin. }
  rewrite (surjective_pairing (recalculate_all_ranks db e)), Hcount, Hnone. f_equal.
  unfold recalculate_all_ranks, _refresh_ranks, update_ranks. cbn [fst].
  by rewrite Htbl, with_leaderboard_own.
Qed.

(** X9. Refreshes of two different exams do not disturb each other: in either
    order they leave the same database, and the row count of the one is not
    changed by running the other first. *)
Theorem X9_refreshes_commute (db : DB) (e e' : Z) :
  e <> e' ->
  (_refresh_ranks (_refresh_ranks db e).1 e').1
  = (_refresh_ranks (_refresh_ranks db e').1 e).1
  /\ (_refresh_ranks (_refresh_ranks db e).1 e').2 = (_refresh_ranks db e').2
  /\ entries_of (leaderboard_snapshot (_refresh_ranks db e).1) e'
     = entries_of (leaderboard_snapshot db) e'.
Proof.
  intros Hne.
  assert (Hent : forall e1 e2, e1 <> e2 ->
            entries_of (leaderboard_snapshot (_refresh_ranks db e1).1) e2
            = entries_of (leaderboard_snapshot db) e2).
  { intros e1 e2 H12. destruct (refresh_ranks_tables db e1) as (_ & _ & _ & _ & ->).
    rewrite update_ranks_fst. by apply entries_of_other. }
  split_and!.
  - rewrite !refresh_ranks_fst, !with_leaderboard_twice, !leaderboard_with_leaderboard.
    f_equal. rewrite (ranked_other _ e e'), (ranked_other _ e' e) by done.
    rewrite <- !list_fmap_compose. apply list_fmap_ext. intros i lb _. simpl.
    by apply refresh_row_comm.
  - rewrite !refresh_ranks_snd, refresh_ranks_fst, leaderboard_with_leaderboard.
    rewrite ranked_other by done. f_equal.
    rewrite filter_fmap_list, length_fmap. f_equal.
    apply list_filter_iff. intros lb. simpl.
    rewrite refresh_row_exam.
    destruct (decide (lb_exam_id lb = e')) as [He'|He']; [|split; by intros [? _]].
    by rewrite (proj2 (refresh_row_frame _ e lb)) by congruence.
  - by apply Hent.
Qed.

(** X9, an instance: exams 1 and 2 of the sample leaderboard. *)
Lemma X9_refreshes_commute_witness :
  (_refresh_ranks (_refresh_ranks db_unranked 1).1 2).1
  = (_refresh_ranks (_refresh_ranks db_unranked 2).1 1).1
  /\ (_refresh_ranks (_refresh_ranks db_unranked 1).1 2).2 = (_refresh_ranks db_unranked 2).2
  /\ entries_of (leaderboard_snapshot (_refresh_ranks db_unranked 1).1) 2
     = entries_of (leaderboard_snapshot db_unranked) 2.
Proof. apply (X9_refreshes_commute db_unranked 1 2). discriminate. Defined.

End RefreshProperties.

(* ====================================================================== *)
(** * The keys of the cached pages *)
(* ====================================================================== *)

Section PageKeys.

(** Two strings without a colon, each followed by a colon and a rest, are
    equal only when both parts are. *)
Lemma split_at_colon a a' r r' :
  ~ occurs ":" a -> ~ occurs ":" a' ->
  a +:+ String ":" r = a' +:+ String ":" r' -> a = a' /\ r = r'.
Proof.
  revert a'. induction a as [|c a IH]; intros [|c' a'] Ha Ha' H; simpl in *.
  - by injection H as ->.
  - injection H as Hc _. destruct Ha'. by left.
  - injection H as Hc _. destruct Ha. by left.
  - injection H as -> H. apply IH in H as [-> ->]; [done|tauto..].
Qed.

Lemma page_key_inj e page per_page e' page' per_page' :
  page_key e page per_page = page_key e' page' per_page' ->
  e = e' /\ page = page' /\ per_page = per_page'.
Proof.
  unfold page_key. intros H. injection H as H.
  change (pretty e +:+ String ":" ("p" +:+ pretty page +:+ ":pp" +:+ pretty per_page)
          = pretty e' +:+ String ":" ("p" +:+ pretty page' +:+ ":pp" +:+ pretty per_page'))
    in H.
  apply split_at_colon in H as [He H]; [|apply pretty_Z_no_colon..].
  injection H as H.
  change (pretty page +:+ String ":" ("pp" +:+ pretty per_page)
          = pretty page' +:+ String ":" ("pp" +:+ pretty per_page')) in H.
  apply split_at_colon in H as [Hp H]; [|apply pretty_Z_no_colon..].
  injection H as H.
  split_and!; by apply (inj pretty).
Qed.

(** X10. The keys of the cached pages do not collide: pages of different
    exams, page numbers or page sizes have different keys.  So a page stored
    by [get_leaderboard] is read back by exactly the requests with the same
    exam and the same page and page size after clamping ([page] below 1 counts
    as 1, [per_page] is brought into [1 .. 200]); any other request finds what
    the cache held before. *)
Theorem X10_page_keys_distinct (cache : Cache) (e page per_page : Z) (payload : string)
    (e' page' per_page' : Z) :
  (page_key e page per_page = page_key e' page' per_page'
   <-> e = e' /\ page = page' /\ per_page = per_page')
  /\ get_leaderboard_cached (get_leaderboard_store cache e page per_page payload)
       e' page' per_page'
     = (if decide (e' = e /\ clamp_page page' = clamp_page page
                   /\ clamp_per_page per_page' = clamp_per_page per_page)
        then Some payload
        else get_leaderboard_cached cache e' page' per_page')
  /\ get_leaderboard_cached cache e page per_page
     = get_leaderboard_cached cache e (clamp_page page) (clamp_per_page per_page)
  /\ 1 <= clamp_page page /\ 1 <= clamp_per_page per_page <= 200.
Proof.
  split_and!.
  - split; [apply page_key_inj|]. by intros (-> & -> & ->).
  - unfold get_leaderboard_cached, get_leaderboard_store.
    rewrite lookup_insert. destruct (decide (page_key _ _ _ = _)) as [Hk|Hk].
    + apply page_key_inj in Hk as (-> & <- & <-). by rewrite decide_True.
    + rewrite decide_False; [done|]. intros (-> & Hp & Hpp). destruct Hk.
      by rewrite Hp, Hpp.
  - unfold get_leaderboard_cached, clamp_page, clamp_per_page. do 2 f_equal; lia.
  - unfold clamp_page. lia.
  - unfold clamp_per_page. lia.
  - unfold clamp_per_page. lia.
Qed.

End PageKeys.

(* ====================================================================== *)
(** * The submission pipeline: further properties *)
(* ====================================================================== *)

Section PipelineProperties.

(** X11. No attempt of [_atomic_score_update] commits anything, and none
    returns.  Whatever the submission, the database and the storage layer,
    the attempt leaves the database and the cache as they were and raises:
    the exception of the storage layer when the first query fails; otherwise
    [NoResultFound] when the session has no row, and [InvalidRequestError]
    when the session exists, its rows being those of a joined eager load of
    [module_scores] that step 1 reads without [.unique()]. *)
Theorem X11_attempt_commits_nothing (f : option fault) (now : Z) (db : DB)
    (cache : Cache) (sub : Submission) :
  let out := _atomic_score_update f now db cache sub in
  out.1 = (db, cache)
  /\ (forall entry, out.2 <> Ok entry)
  /\ (forall ft, f = Some ft -> f_at ft = OpLockSession -> out.2 = Raise (f_exn ft))
  /\ ((forall ft, f = Some ft -> f_at ft <> OpLockSession) ->
      (filter (fun s => es_session_id s = session_id sub) (exam_sessions db) = [] ->
       out.2 = Raise NoResultFound)
      /\ (forall session,
            session ∈ exam_sessions db -> es_session_id session = session_id sub ->
            out.2 = Raise InvalidRequestError)).
Proof.
  intros out. unfold out. rewrite attempt_raises. cbn [fst snd].
  split_and!.
  - done.
  - intros entry. destruct (storage_call f OpLockSession); cbn [mbind result_bind];
      [by destruct (decide _)|done].
  - intros ft -> Hat. by rewrite storage_call_fault.
  - intros Hfault.
    assert (Hcall : storage_call f OpLockSession = Ok ()).
    { destruct f as [ft|]; [|done]. apply storage_call_other. by apply Hfault. }
    rewrite Hcall. cbn [mbind result_bind]. split.
    + intros Hnone. by rewrite decide_True.
    + intros session Hin Hid. rewrite decide_False; [done|].
      intros Hnone.
      assert (session ∈ filter (fun s => es_session_id s = session_id sub)
                          (exam_sessions db)) as Hs by (by apply list_elem_of_filter).
      rewrite Hnone in Hs. by apply elem_of_nil in Hs.
Qed.

(** X12. No call of [submit_module_score] returns an entry or changes the
    database or the cache, whatever the storage layer does: every call
    raises.  For a valid module type and a session that exists, the first
    query going through, it raises [InvalidRequestError] after one attempt.
    So [POST /api/v1/scores] answers no request with 200 and changes
    nothing, and it answers 500 to a request that the schema accepts for a
    session that exists. *)
Theorem X12_no_submission_succeeds (env : Env) (db : DB) (cache : Cache)
    (sub : Submission) :
  let out := submit_module_score env db cache sub in
  let answer := submit_score env db cache sub in
  out_db out = db /\ out_cache out = cache
  /\ (exists e, out_result out = Raise e)
  /\ answer.1 = (db, cache) /\ answer.2 <> 200
  /\ (forall session,
        session ∈ exam_sessions db -> es_session_id session = session_id sub ->
        (forall ft, faults env 1%nat = Some ft -> f_at ft <> OpLockSession) ->
        (module_type sub ∈ _VALID_MODULES ->
         out = mkOutcome db cache (Raise InvalidRequestError) 1)
        /\ (SubmitScoreSchema_valid sub = true -> answer = (db, cache, 500))).
Proof.
  intros out answer. unfold out, answer.
  destruct (submit_state env db cache sub) as [Hdb Hcache].
  pose proof (submit_not_Ok env db cache sub) as Hnot.
  assert (Hknown : forall session,
            session ∈ exam_sessions db -> es_session_id session = session_id sub ->
            (forall ft, faults env 1%nat = Some ft -> f_at ft <> OpLockSession) ->
            module_type sub ∈ _VALID_MODULES ->
            submit_module_score env db cache sub
            = mkOutcome db cache (Raise InvalidRequestError) 1).
  { intros session Hin Hid Hfault Hv. apply submit_known_session; [done| |done].
    intros Hnone.
    assert (session ∈ filter (fun s => es_session_id s = session_id sub)
                        (exam_sessions db)) as Hs by (by apply list_elem_of_filter).
    rewrite Hnone in Hs. by apply elem_of_nil in Hs. }
  split_and!; try done.
  - destruct (out_result (submit_module_score env db cache sub)) as [r|e] eqn:Hres;
      [by destruct (Hnot r)|by eexists].
  - unfold submit_score. destruct (SubmitScoreSchema_valid sub); [|done].
    cbn [fst]. by rewrite Hdb, Hcache.
  - unfold submit_score. destruct (SubmitScoreSchema_valid sub); [|done].
    cbn [snd].
    destruct (out_result (submit_module_score env db cache sub)) as [r|e] eqn:Hres;
      [by destruct (Hnot r)|by destruct e].
  - intros session Hin Hid Hfault. split; [by apply (Hknown session)|].
    intros Hvalid. unfold submit_score. rewrite Hvalid.
    by rewrite (Hknown session Hin Hid Hfault (schema_valid_module_type sub Hvalid)).
Qed.

End PipelineProperties.

Section RequestProperties.

(** X14. The answers of [POST /api/v1/scores], the storage layer raising
    neither [ValueError] nor [RuntimeError].  The status is 200, 409, 422 or
    500, never 400: a module type that the pipeline rejects was rejected by
    the schema before.  It is 422 exactly when the schema rejects the request,
    which then changes nothing; 200 exactly when the schema accepts it and
    the pipeline returns an entry; 409 only after three attempts.  A request
    for a session that does not exist is answered 500 and changes nothing. *)
Theorem X14_submit_score_status (env : Env) (db : DB) (cache : Cache)
    (sub : Submission) :
  (forall k ft, faults env k = Some ft ->
     f_exn ft <> ValueError /\ f_exn ft <> RuntimeError) ->
  let answer := submit_score env db cache sub in
  let out := submit_module_score env db cache sub in
  answer.2 ∈ [200; 409; 422; 500]
  /\ (answer.2 = 422 <-> SubmitScoreSchema_valid sub = false)
  /\ (answer.2 = 422 -> answer.1 = (db, cache))
  /\ (answer.2 = 200
      <-> SubmitScoreSchema_valid sub = true /\ exists r, out_result out = Ok r)
  /\ (answer.2 = 409 -> out_attempts out = MAX_RETRIES)
  /\ (SubmitScoreSchema_valid sub = true ->
      filter (fun s => es_session_id s = session_id sub) (exam_sessions db) = [] ->
      (forall ft, faults env 1%nat = Some ft -> f_at ft <> OpLockSession) ->
      answer = (db, cache, 500)).
Proof.
  intros Hf answer out. unfold answer, out, submit_score.
  destruct (SubmitScoreSchema_valid sub) eqn:Hvalid; cbn [fst snd].
  - pose proof (schema_valid_module_type sub Hvalid) as Hv.
    pose proof (submit_Raise env db cache sub) as Hraise.
    pose proof (submit_RuntimeError env db cache sub) as Hexhausted.
    pose proof (submit_unknown_session env db cache sub Hv) as Hunknown.
    destruct (out_result (submit_module_score env db cache sub)) as [r|e] eqn:Hres.
    + split_and!; try done.
      * apply elem_of_cons. by left.
      * split; [eauto|done].
      * intros _ Hnone Hlock. by rewrite Hunknown in Hres.
    + assert (He : e <> ValueError).
      { intros ->.
        destruct (Hraise ValueError Hv eq_refl) as [?|[_ [?|[?|(k & ft & Hft & Hexn)]]]];
          [done|done|done|by destruct (Hf k ft Hft)]. }
      split_and!.
      * destruct e; try done; repeat first [apply list_elem_of_here | apply list_elem_of_further].
      * by destruct e.
      * by destruct e.
      * split; [by destruct e|]. by intros [_ [r [=]]].
      * intros H409. apply Hexhausted; [intros k ft Hft; by destruct (Hf k ft Hft)|].
        by destruct e.
      * intros _ Hnone Hlock. rewrite Hunknown in * by done.
        cbn [out_result out_db out_cache] in *. by injection Hres as <-.
  - split_and!; try done.
    + repeat first [apply list_elem_of_here | apply list_elem_of_further].
    + split; [done|by intros [? _]].
Qed.

(** X14, an instance: a request for session 99, which does not exist. *)
Lemma X14_submit_score_status_witness :
  submit_score quiet db0 ∅ (mkSubmission 99 "quiz" 8000 10000 3000 None 0) = (db0, ∅, 500).
Proof.
  apply (X14_submit_score_status quiet db0 ∅ (mkSubmission 99 "quiz" 8000 10000 3000 None 0)).
  - intros k ft [=].
  - reflexivity.
  - reflexivity.
  - intros ft [=].
Defined.

End RequestProperties.

(* ====================================================================== *)
(** * The leaderboard reader: properties *)
(* ====================================================================== *)

Section ReaderProperties.

Lemma leaderboard_order_total : Total leaderboard_order.
Proof.
  intros a b. unfold leaderboard_order.
  destruct (precedes_trichotomy (rank_key a.1) (rank_key b.1)) as [H|[H|H]].
  - left. apply not_after_iff. by right.
  - left. apply not_after_iff. by left.
  - right. apply not_after_iff. by right.
Qed.

Lemma leaderboard_order_trans : Transitive leaderboard_order.
Proof. intros a b c. unfold leaderboard_order, not_after. lia. Qed.

(** A key that sorts no later has a rank that is no greater. *)
Lemma rank_of_mono (K : gset (Z * Z)) k1 k2 :
  not_after k1 k2 -> rank_of K k1 <= rank_of K k2.
Proof.
  intros H. unfold rank_of. apply inj_le, subseteq_size.
  intros k. rewrite !elem_of_filter. intros [Hk ?]. split; [|done].
  unfold not_after in *. lia.
Qed.

Lemma elem_of_join_users users (tbl : list LeaderboardSnapshot) lb u :
  (lb, u) ∈ join_users users tbl
  <-> lb ∈ tbl /\ u ∈ users /\ u_user_id u = lb_user_id lb.
Proof.
  unfold join_users. rewrite list_elem_of_bind. split.
  - intros (lb' & Hin & Hlb). apply list_elem_of_fmap in Hin as (u' & [= -> ->] & Hu).
    apply list_elem_of_filter in Hu as [? ?]. done.
  - intros (Hlb & Hu & Hid). exists lb. split; [|done].
    apply list_elem_of_fmap. exists u. split; [done|]. by apply list_elem_of_filter.
Qed.

(** The rows of a page are rows of the sorted query. *)
Lemma leaderboard_page_sorted users (tbl : list LeaderboardSnapshot) e page per_page :
  StronglySorted leaderboard_order (leaderboard_page users tbl e page per_page)
  /\ forall r, r ∈ leaderboard_page users tbl e page per_page ->
       r ∈ filter (fun r => lb_exam_id r.1 = e) (join_users users tbl).
Proof.
  unfold leaderboard_page.
  set (rows := filter (fun r => lb_exam_id r.1 = e) (join_users users tbl)).
  set (sorted := merge_sort leaderboard_order rows).
  assert (Hs : StronglySorted leaderboard_order sorted)
    by apply (@StronglySorted_merge_sort _ leaderboard_order _
                leaderboard_order_trans leaderboard_order_total).
  split.
  - rewrite <- (take_drop (Z.to_nat ((page - 1) * per_page)) sorted) in Hs.
    apply StronglySorted_app_1_r in Hs.
    rewrite <- (take_drop (Z.to_nat per_page)
                  (drop (Z.to_nat ((page - 1) * per_page)) sorted)) in Hs.
    by apply StronglySorted_app_1_l in Hs.
  - intros r Hr. apply subseteq_take, subseteq_drop in Hr.
    unfold sorted in Hr. by rewrite merge_sort_Permutation in Hr.
Qed.

End ReaderProperties.

Section ReaderTheorems.

(** X18. A page of the leaderboard: at most [per_page] rows and never more
    than 200; each the entry of the exam joined to its user; in the order of
    the leaderboard (higher score first, then shorter time); and, the ranks
    being those of the last refresh, with ranks that never decrease down the
    page. *)
Theorem X18_leaderboard_page (users : list User) (db : DB) (e page per_page : Z) :
  dense_ranked (leaderboard_snapshot db) e ->
  let rows :=
    leaderboard_page users (leaderboard_snapshot db) e
      (clamp_page page) (clamp_per_page per_page) in
  (length rows <= 200)%nat
  /\ Z.of_nat (length rows) <= clamp_per_page per_page
  /\ (forall lb u, (lb, u) ∈ rows ->
        lb ∈ entries_of (leaderboard_snapshot db) e
        /\ u ∈ users /\ u_user_id u = lb_user_id lb)
  /\ StronglySorted leaderboard_order rows
  /\ StronglySorted Z.le (le_rank <$> (entry_dict <$> rows)).
Proof.
  intros Hdr rows.
  destruct (leaderboard_page_sorted users (leaderboard_snapshot db) e
              (clamp_page page) (clamp_per_page per_page)) as [Hsorted Hin].
  fold rows in Hsorted, Hin.
  assert (Hlen : (length rows <= Z.to_nat (clamp_per_page per_page))%nat).
  { unfold rows, leaderboard_page. rewrite length_take. lia. }
  assert (Hmem : forall lb u, (lb, u) ∈ rows ->
            lb ∈ entries_of (leaderboard_snapshot db) e
            /\ u ∈ users /\ u_user_id u = lb_user_id lb).
  { intros lb u Hr. apply Hin, list_elem_of_filter in Hr as [He Hj].
    apply elem_of_join_users in Hj as (Hlb & Hu & Hid).
    split_and!; try done. by apply list_elem_of_filter. }
  split_and!; try done.
  - unfold clamp_per_page in Hlen. lia.
  - unfold clamp_per_page in *. lia.
  - rewrite <- list_fmap_compose.
    assert (Hall : Forall (fun r => r ∈ rows) rows) by (by apply Forall_forall).
    revert Hsorted Hall. generalize rows at 1 3 4. intros l Hsorted.
    induction Hsorted as [|r l Hl IH Hr]; intros Hall; [constructor|].
    apply Forall_cons in Hall as [Hrin Hall].
    rewrite fmap_cons. constructor; [by apply IH|].
    apply Forall_fmap, Forall_forall. intros r' Hr'.
    rewrite Forall_forall in Hr, Hall. specialize (Hr r' Hr'). specialize (Hall r' Hr').
    destruct r as [lb u], r' as [lb' u']. simpl.
    destruct (Hmem lb u Hrin) as (Hlb & _). destruct (Hmem lb' u' Hall) as (Hlb' & _).
    rewrite (Hdr lb Hlb), (Hdr lb' Hlb'). by apply rank_of_mono.
Qed.

(** X18, an instance: the first page of the sample leaderboard, two rows a
    page, after a refresh. *)
Lemma X18_leaderboard_page_witness :
  le_rank <$> (entry_dict <$>
    leaderboard_page sample_users
      (leaderboard_snapshot (_refresh_ranks db_unranked 1).1) 1 1 2) = [1; 1]
  /\ StronglySorted Z.le
       (le_rank <$> (entry_dict <$>
          leaderboard_page sample_users
            (leaderboard_snapshot (_refresh_ranks db_unranked 1).1) 1
            (clamp_page 1) (clamp_per_page 2))).
Proof.
  split; [vm_compute; reflexivity|].
  apply (X18_leaderboard_page sample_users (_refresh_ranks db_unranked 1).1 1 1 2).
  destruct (refresh_ranks_tables db_unranked 1) as (_ & _ & _ & _ & ->).
  apply update_ranks_dense_ranked.
  apply (bool_decide_unpack _). vm_compute. exact I.
Defined.

(** X19. The answers of [GET /api/v1/leaderboard].  Without [exam_id] the
    answer is 400 and nothing is read.  When the page is in the cache, the
    cached payload is the answer and the cache stays as it is, whatever the
    database holds by then, the exam itself included.  When it is not, an
    exam that does not exist gives 404 and nothing is cached; an exam that
    exists gives the page of the database, which is stored under the key of
    the page, so that the same request right after is answered from the
    cache.  (Entries of the cache do not expire in the embedding.) *)
Theorem X19_get_leaderboard_answers (dumps : Page -> string) (users : list User)
    (db : DB) (cache : Cache) (e : Z) (page per_page user_id : option Z) :
  let p := default 1 page in
  let pp := default 50 per_page in
  (forall db' u, get_leaderboard dumps users db' cache None page per_page u
                 = (cache, Ok BadRequest))
  /\ (forall payload, get_leaderboard_cached cache e p pp = Some payload ->
        forall db',
          (get_leaderboard dumps users db' cache (Some e) page per_page user_id).1 = cache
          /\ (get_leaderboard dumps users db' cache (Some e) page per_page None).2
             = Ok (FromCache payload None))
  /\ (get_leaderboard_cached cache e p pp = None ->
      (filter (fun x => exam_id x = e) (exams db) = [] ->
       get_leaderboard dumps users db cache (Some e) page per_page user_id
       = (cache, Ok ExamNotFound))
      /\ (filter (fun x => exam_id x = e) (exams db) <> [] ->
          let result :=
            mkPage e (Z.of_nat (length (entries_of (leaderboard_snapshot db) e)))
              (clamp_page p) (clamp_per_page pp)
              (entry_dict <$> leaderboard_page users (leaderboard_snapshot db) e
                                (clamp_page p) (clamp_per_page pp)) in
          let cache' :=
            (get_leaderboard dumps users db cache (Some e) page per_page user_id).1 in
          cache' = get_leaderboard_store cache e p pp (dumps result)
          /\ (get_leaderboard dumps users db cache (Some e) page per_page None).2
             = Ok (FromDatabase result None)
          /\ forall db',
               (get_leaderboard dumps users db' cache' (Some e) page per_page None).2
               = Ok (FromCache (dumps result) None))).
Proof.
  intros p pp. split_and!.
  - done.
  - intros payload Hhit db'. unfold get_leaderboard. fold p pp. rewrite Hhit.
    split; [|done]. by destruct user_id as [u|]; [destruct (decide (u = 0))|].
  - intros Hmiss. split.
    + intros Hnone. unfold get_leaderboard. fold p pp. by rewrite Hmiss, Hnone.
    + intros Hsome result cache'.
      destruct (filter (fun x => exam_id x = e) (exams db)) as [|exam l] eqn:Hex; [done|].
      assert (Hcache : cache' = get_leaderboard_store cache e p pp (dumps result)).
      { unfold cache', get_leaderboard. fold p pp. rewrite Hmiss, Hex. simpl.
        by destruct user_id as [u|]; [destruct (decide (u = 0))|]. }
      split_and!.
      * exact Hcache.
      * unfold get_leaderboard. fold p pp. by rewrite Hmiss, Hex.
      * intros db'. unfold get_leaderboard. fold p pp. rewrite Hcache.
        unfold get_leaderboard_cached, get_leaderboard_store.
        by rewrite lookup_insert_eq.
Qed.

End ReaderTheorems.
